(** * Classroom security monitor: capture loop, recognition pipeline, alarm

    A shallow embedding of the parts of [app.py], [ai_service.py] and
    [alarm_system.py] that coordinate frame capture, face matching and the
    alarm, with the properties the specification states about them.

    Modelling conventions.
    - Python values that travel through JSON (capability responses, request
      bodies, per-face result dictionaries) are values of [pyval]; a dict is
      an association list in insertion order.
    - Finite floats are rationals ([Q]); the acceptance threshold 0.75 is
      3/4 exactly in both.
    - Code that can raise runs in the monad [M]: a state transformer on
      [World] whose result is a value or a raised exception; the state
      reached when the exception is raised is kept, as in Python.
    - The remote model is a queue of pending HTTP outcomes in the world;
      each [requests.post] consumes one.  Library functions the repository
      only calls (JSON parsing, JPEG and base64 coding, array slicing, time
      formatting) are fields of the class [Platform]. *)

From Stdlib Require Import List String Ascii ZArith NArith QArith Bool Lia Lqa.
From Stdlib Require Import Qround.
Import ListNotations.

Local Open Scope string_scope.
Local Open Scope Z_scope.
Local Open Scope list_scope.

(** ** Python values *)

#[local] Unset Elimination Schemes.
Inductive pyval : Type :=
| PNone
| PBool (b : bool)
| PNum (q : Q)
| PStr (s : string)
| PList (l : list pyval)
| PDict (d : list (string * pyval)).
#[local] Set Elimination Schemes.

(** Truth value of an object in a condition ([if x:], [not x]). *)
Definition truthy (v : pyval) : bool :=
  match v with
  | PNone => false
  | PBool b => b
  | PNum q => negb (Qeq_bool q 0)
  | PStr s => negb (String.eqb s "")
  | PList l => match l with [] => false | _ => true end
  | PDict d => match d with [] => false | _ => true end
  end.

(** [d.get(key, default)] on the items of a dict. *)
Fixpoint dict_get (key : string) (d : list (string * pyval)) (default : pyval)
  : pyval :=
  match d with
  | [] => default
  | (k, v) :: rest => if String.eqb k key then v else dict_get key rest default
  end.

(** [key in d] on the items of a dict. *)
Fixpoint dict_has (key : string) (d : list (string * pyval)) : bool :=
  match d with
  | [] => false
  | (k, _) :: rest => String.eqb k key || dict_has key rest
  end.

(** [x > y] for a right operand that is a float: defined for numbers and
    for booleans (a bool is an int in Python), a [TypeError] otherwise. *)
Definition as_number (v : pyval) : option Q :=
  match v with
  | PNum q => Some q
  | PBool true => Some 1%Q
  | PBool false => Some 0%Q
  | _ => None
  end.

Definition Qgtb (x y : Q) : bool := negb (Qle_bool x y).

(** ** Strings: [str.find], [str.rfind] and slices *)

(** [s.find(c)] for a one-character pattern: the lowest index, or -1. *)
Fixpoint find (c : ascii) (s : string) : Z :=
  match s with
  | EmptyString => -1
  | String a rest =>
      if Ascii.eqb a c then 0
      else let r := find c rest in if r <? 0 then -1 else r + 1
  end.

(** [s.rfind(c)]: the highest index, or -1. *)
Fixpoint rfind (c : ascii) (s : string) : Z :=
  match s with
  | EmptyString => -1
  | String a rest =>
      let r := rfind c rest in
      if 0 <=? r then r + 1 else if Ascii.eqb a c then 0 else -1
  end.

(** [s[start:stop]] for [0 <= start], the only slices the code takes. *)
Definition slice (s : string) (start stop : Z) : string :=
  substring (Z.to_nat start) (Z.to_nat (stop - start)) s.

(** The best-effort extraction shared by the three capability wrappers:
<<
    start_idx = content.find('{')
    end_idx = content.rfind('}') + 1
    if start_idx >= 0 and end_idx > start_idx:
        json_str = content[start_idx:end_idx]
>>
    [None] when the condition is false. *)
Definition json_span (content : string) : option string :=
  let start_idx := find "{"%char content in
  let end_idx := rfind "}"%char content + 1 in
  if (0 <=? start_idx) && (start_idx <? end_idx)
  then Some (slice content start_idx end_idx)
  else None.

(** ** Library operations the repository calls

    None of these is code of the repository; each is taken as given.
    [None] stands for a raised exception where the comment says so. *)

Class Platform : Type := {
  (** a numpy image array *)
  Image : Type;
  (** [array.size] *)
  image_size : Image -> N;
  (** [frame[y:y+h, x:x+w]] with [x, y, w, h] the bounding-box fractions of
      the dict [bbox] scaled by the frame's width and height and truncated
      by [int]; [None] when [bbox.get] or the arithmetic raises *)
  crop_region : Image -> pyval -> option Image;
  (** [cv2.imencode('.jpg', array)] followed by [base64.b64encode] and
      [decode('utf-8')]; [None] when one of them raises *)
  imencode_b64 : Image -> option string;
  (** the same at JPEG quality 70, as the capture loop encodes *)
  imencode70_b64 : Image -> option string;
  (** [base64.b64decode], [np.frombuffer], [cv2.imdecode]: [None] when one
      raises, [Some None] when [imdecode] returns [None] *)
  imdecode_b64 : pyval -> option (option Image);
  (** [json.loads]; [None] is [json.JSONDecodeError] *)
  json_loads : string -> option pyval;
  (** [str(hash(content))] *)
  hash_str : string -> string;
  (** [t.strftime("%Y-%m-%d %H:%M:%S")] of a clock reading *)
  strftime : Q -> string;
  (** [t.isoformat()] of a clock reading *)
  isoformat : Q -> string
}.

(** ** The alarm ([alarm_system.py]) *)

(** [xs[-n:]] for a positive [n]. *)
Definition last_n {A : Type} (n : nat) (xs : list A) : list A :=
  skipn (List.length xs - n) xs.

(** The file [logs/alarm_log.json] as [_log_alarm] sees it.  A file that
    holds a JSON document is kept as the document: what [json.dump] writes,
    [json.load] reads back. *)
Inductive LogFile : Type :=
| FileMissing                 (* [os.path.exists] is false *)
| FileUnreadable              (* [json.load] raises *)
| FileJSON (doc : pyval).

(** The notification thread that [trigger_alarm] starts: the arguments it
    was created with and the [start_time] its loop reads first. *)
Record AlarmThread : Type := {
  th_alert_type : string;
  th_message : string;
  th_severity : string;
  th_start_time : Q
}.

(** The [AlarmSystem] object with the log file it owns.  [started] is the
    history of threads ever started, oldest first; the object itself only
    keeps the handle of the latest one in [alarm_thread]. *)
Record AlarmSystem : Type := {
  is_active : bool;
  alarm_thread : option AlarmThread;
  started : list AlarmThread;
  alarm_log : LogFile
}.

Definition AlarmSystem_init (f : LogFile) : AlarmSystem :=
  {| is_active := false; alarm_thread := None; started := []; alarm_log := f |}.

(** [_get_alarm_duration], in seconds. *)
Definition _get_alarm_duration (severity : string) : Z :=
  if String.eqb severity "high" then 60
  else if String.eqb severity "medium" then 30
  else if String.eqb severity "low" then 15
  else 30.


Section Alarm.
Context `{Platform}.

Definition log_entry (now : Q) (alert_type message severity : string)
  : pyval :=
  PDict [ ("timestamp", PStr (isoformat now));
          ("alert_type", PStr alert_type);
          ("message", PStr message);
          ("severity", PStr severity);
          ("status", PStr "activated") ].

(** The list [_log_alarm] starts from: empty when the file is absent or
    unreadable, the stored list otherwise.  [None] when the stored document
    is not a list: it has no [append], the exception is caught by the outer
    handler and nothing is written. *)
Definition stored_logs (f : LogFile) : option (list pyval) :=
  match f with
  | FileMissing => Some []
  | FileUnreadable => Some []
  | FileJSON (PList l) => Some l
  | FileJSON _ => None
  end.

(** [_log_alarm]: append, keep the last 1000, write back. *)
Definition _log_alarm (now : Q) (f : LogFile)
  (alert_type message severity : string) : LogFile :=
  let entry := log_entry now alert_type message severity in
  match stored_logs f with
  | Some logs => FileJSON (PList (last_n 1000 (logs ++ [entry])))
  | None => f
  end.

(** [trigger_alarm], called when the clock reads [now].  The thread it
    starts is taken to read its [start_time] at that same instant. *)
Definition trigger_alarm (now : Q) (a : AlarmSystem)
  (alert_type message severity : string) : AlarmSystem :=
  if negb (is_active a) then
    let t := {| th_alert_type := alert_type; th_message := message;
                th_severity := severity; th_start_time := now |} in
    {| is_active := true;
       alarm_thread := Some t;
       started := started a ++ [t];
       alarm_log := _log_alarm now (alarm_log a) alert_type message severity |}
  else a.

Definition stop_alarm (a : AlarmSystem) : AlarmSystem :=
  {| is_active := false;
     alarm_thread := alarm_thread a;
     started := started a;
     alarm_log := alarm_log a |}.

(** A call of [trigger_alarm]: the clock reading and the arguments. *)
Record TriggerCall : Type := {
  call_time : Q;
  call_alert_type : string;
  call_message : string;
  call_severity : string
}.

Definition trigger_call (a : AlarmSystem) (c : TriggerCall) : AlarmSystem :=
  trigger_alarm (call_time c) a
    (call_alert_type c) (call_message c) (call_severity c).


(** The alarm object together with the notification threads that are
    still running, and what can happen to them: a call of [trigger_alarm],
    a call of [stop_alarm], or the running thread number [index] evaluating
    the condition of its loop when the clock reads [now]. *)
Record AlarmRun : Type := {
  alarm : AlarmSystem;
  live : list AlarmThread
}.

Inductive AlarmEvent : Type :=
| Triggered (c : TriggerCall)
| Stopped
| LoopRead (index : nat) (now : Q).

Definition thread_of (c : TriggerCall) : AlarmThread :=
  {| th_alert_type := call_alert_type c; th_message := call_message c;
     th_severity := call_severity c; th_start_time := call_time c |}.

(** One evaluation of
    [self.is_active and (time.time() - start_time) < alarm_duration] by a
    running thread: it goes on, or it leaves the loop, clears the flag and
    ends. *)
Definition loop_read (r : AlarmRun) (index : nat) (now : Q) : AlarmRun :=
  match nth_error (live r) index with
  | Some t =>
      if is_active (alarm r)
         && Qgtb (inject_Z (_get_alarm_duration (th_severity t)))
              (now - th_start_time t)
      then r
      else {| alarm := stop_alarm (alarm r);
              live := firstn index (live r) ++ skipn (S index) (live r) |}
  | None => r
  end.

Definition alarm_step (r : AlarmRun) (e : AlarmEvent) : AlarmRun :=
  match e with
  | Triggered c =>
      {| alarm := trigger_call (alarm r) c;
         live := if is_active (alarm r) then live r
                 else live r ++ [thread_of c] |}
  | Stopped => {| alarm := stop_alarm (alarm r); live := live r |}
  | LoopRead index now => loop_read r index now
  end.

Definition alarm_run (events : list AlarmEvent) (r : AlarmRun) : AlarmRun :=
  fold_left alarm_step events r.



End Alarm.

(** What one evaluation of the loop condition reads: the flag
    [self.is_active] (false once a concurrent [stop_alarm] cleared it) and
    [time.time()]. *)
Record LoopCheck : Type := {
  seen_active : bool;
  time_now : Q
}.

Inductive LoopStatus : Type :=
| Running                     (* the checks given so far all passed *)
| Exited (at_time : Q).       (* the check read at [at_time] failed *)

(** [_alarm_loop] after [start_time = time.time()]:
<<
    while self.is_active and (time.time() - start_time) < alarm_duration:
        ... notify ...; time.sleep(2 if severity == "high" else 5)
    self.is_active = False
>>
    driven by the successive readings of its condition. *)
Fixpoint _alarm_loop (alarm_duration : Z) (start_time : Q)
  (checks : list LoopCheck) : LoopStatus :=
  match checks with
  | [] => Running
  | c :: rest =>
      if seen_active c
         && Qgtb (inject_Z alarm_duration) (time_now c - start_time)
      then _alarm_loop alarm_duration start_time rest
      else Exited (time_now c)
  end.

(** A reading that lets the loop go on. *)
Definition passes (d : Z) (start : Q) (c : LoopCheck) : Prop :=
  seen_active c = true /\ (time_now c - start < inject_Z d)%Q.

(** The thread of alarm [t] run against the readings [checks]; on exit it
    clears the flag. *)
Definition run_alarm_thread (t : AlarmThread) (checks : list LoopCheck)
  (a : AlarmSystem) : AlarmSystem * LoopStatus :=
  match _alarm_loop (_get_alarm_duration (th_severity t))
          (th_start_time t) checks with
  | Running => (a, Running)
  | Exited at_time => (stop_alarm a, Exited at_time)
  end.




(** ** The capture loop ([app.py], [_capture_loop]) *)

Section Capture.
Context `{Platform}.

(** What [camera.read()] does in one iteration. *)
Inductive CameraRead : Type :=
| ReadRaises
| ReadReturns (ret : bool) (frame : option Image).

(** One iteration as the environment presents it: the value of the loop
    condition [monitoring_active and camera and camera.isOpened()] and the
    behaviour of the device read. *)
Record CaptureIter : Type := {
  loop_condition : bool;
  camera_read : CameraRead
}.

(** The shared cell: the globals [latest_frame] and [latest_frame_b64]. *)
Record FrameCell : Type := {
  latest_frame : option Image;
  latest_frame_b64 : option string
}.

Inductive CaptureStatus : Type :=
| Capturing                   (* the iterations given so far did not end it *)
| CaptureExited.

(** [ret and frame is not None and frame.size > 0] *)
Definition good_read (ret : bool) (frame : option Image) : option Image :=
  match frame with
  | Some f => if ret && (0 <? image_size f)%N then Some f else None
  | None => None
  end.

(** The loop from a given value of the local [consecutive_failures]. *)
Fixpoint capture_from (consecutive_failures : nat) (cell : FrameCell)
  (iters : list CaptureIter) : nat * FrameCell * CaptureStatus :=
  match iters with
  | [] => (consecutive_failures, cell, Capturing)
  | it :: rest =>
      if negb (loop_condition it)
      then (consecutive_failures, cell, CaptureExited)
      else
        match camera_read it with
        | ReadRaises =>
            (* except Exception: print, sleep(0.2) *)
            capture_from consecutive_failures cell rest
        | ReadReturns ret frame =>
            match good_read ret frame with
            | Some f =>
                (* consecutive_failures = 0, then encode and publish *)
                match imencode70_b64 f with
                | Some b64 =>
                    capture_from 0
                      {| latest_frame := Some f; latest_frame_b64 := Some b64 |}
                      rest
                | None => capture_from 0 cell rest
                end
            | None =>
                let consecutive_failures := S consecutive_failures in
                if (30 <? consecutive_failures)%nat
                then (consecutive_failures, cell, CaptureExited)
                else capture_from consecutive_failures cell rest
            end
        end
  end.

Definition _capture_loop (cell : FrameCell) (iters : list CaptureIter)
  : nat * FrameCell * CaptureStatus :=
  capture_from 0 cell iters.

(** An iteration whose read fails: the loop condition holds and the read
    returns without a usable frame. *)
Definition failed_read (it : CaptureIter) : Prop :=
  loop_condition it = true /\
  exists ret frame,
    camera_read it = ReadReturns ret frame /\ good_read ret frame = None.

(** An iteration whose read succeeds with frame [f]. *)
Definition successful_read (it : CaptureIter) (f : Image) : Prop :=
  loop_condition it = true /\
  exists ret frame,
    camera_read it = ReadReturns ret frame /\ good_read ret frame = Some f.

(** The cell after a successful read of [f] encoded as [b64]. *)
Definition published (f : Image) (b64 : string) : FrameCell :=
  {| latest_frame := Some f; latest_frame_b64 := Some b64 |}.

(** Where the value of the cell after a run comes from. *)
Definition cell_from (iters : list CaptureIter) (cell cell' : FrameCell)
  : Prop :=
  cell' = cell
  \/ exists it f b64,
       In it iters /\ successful_read it f
       /\ imencode70_b64 f = Some b64 /\ cell' = published f b64.

End Capture.

(** ** Persistent records ([models.py]) and the world *)

Record Student : Type := {
  s_id : Z;
  s_name : string;
  s_face_encoding : option string;    (* nullable text column *)
  s_is_active : bool
}.

Record EntryLog : Type := {
  e_student_id : option Z;
  e_is_recognized : bool;
  e_confidence_score : option Q;
  e_entry_time : Q
}.

Record SystemAlert : Type := {
  a_alert_type : string;
  a_message : string;
  a_severity : string
}.

(** An object handed to [db.session.add]. *)
Inductive Row : Type :=
| RowEntry (e : EntryLog)
| RowAlert (a : SystemAlert).

Inductive Capability : Type := Detect | Extract | Compare.

(** What one [requests.post] and the reading of its reply give. *)
Inductive http_result : Type :=
| NetworkError
    (* [requests.post] raises: timeout, connection failure *)
| HttpResponse (status_code : Z) (content : option string).
    (* [content] is [result['choices'][0]['message']['content']]; [None]
       when [response.json()] or that lookup raises *)

(** Observable calls, newest last. *)
Inductive Event : Type :=
| EvDecode                    (* the submitted frame is decoded *)
| EvPost (c : Capability)     (* an HTTP request to the remote model *)
| EvCompare (student : Student).
    (* [compare_faces] called with this student's stored descriptor *)

Record World : Type := {
  monitoring_active : bool;
  students : list Student;            (* table [students], in query order *)
  entry_logs : list EntryLog;         (* committed rows, oldest first *)
  system_alerts : list SystemAlert;   (* committed rows, oldest first *)
  session : list Row;                 (* added and not yet committed *)
  alarm_system : AlarmSystem;
  network : list http_result;         (* pending replies of the remote model *)
  clock : Q;          (* [datetime.utcnow()] as the request reads it *)
  alarm_clock : Q;    (* the clock as a later [trigger_alarm] reads it *)
  events : list Event
}.

Definition set_session (s : list Row) (w : World) : World :=
  {| monitoring_active := monitoring_active w; students := students w;
     entry_logs := entry_logs w; system_alerts := system_alerts w;
     session := s; alarm_system := alarm_system w; network := network w;
     clock := clock w; alarm_clock := alarm_clock w; events := events w |}.

Definition set_alarm_system (a : AlarmSystem) (w : World) : World :=
  {| monitoring_active := monitoring_active w; students := students w;
     entry_logs := entry_logs w; system_alerts := system_alerts w;
     session := session w; alarm_system := a; network := network w;
     clock := clock w; alarm_clock := alarm_clock w; events := events w |}.

Definition set_network (n : list http_result) (w : World) : World :=
  {| monitoring_active := monitoring_active w; students := students w;
     entry_logs := entry_logs w; system_alerts := system_alerts w;
     session := session w; alarm_system := alarm_system w; network := n;
     clock := clock w; alarm_clock := alarm_clock w; events := events w |}.

Definition set_events (e : list Event) (w : World) : World :=
  {| monitoring_active := monitoring_active w; students := students w;
     entry_logs := entry_logs w; system_alerts := system_alerts w;
     session := session w; alarm_system := alarm_system w;
     network := network w; clock := clock w; alarm_clock := alarm_clock w;
     events := e |}.

Definition entries_of (rows : list Row) : list EntryLog :=
  flat_map (fun r => match r with RowEntry e => [e] | RowAlert _ => [] end) rows.

Definition alerts_of (rows : list Row) : list SystemAlert :=
  flat_map (fun r => match r with RowAlert a => [a] | RowEntry _ => [] end) rows.

(** [db.session.commit()] *)
Definition commit (w : World) : World :=
  {| monitoring_active := monitoring_active w; students := students w;
     entry_logs := entry_logs w ++ entries_of (session w);
     system_alerts := system_alerts w ++ alerts_of (session w);
     session := []; alarm_system := alarm_system w; network := network w;
     clock := clock w; alarm_clock := alarm_clock w; events := events w |}.

(** [db.session.rollback()] *)
Definition rollback (w : World) : World := set_session [] w.

(** ** Computations that change the world and may raise *)

Inductive outcome (A : Type) : Type :=
| Return (a : A)
| Raise (message : string).
Arguments Return {A} a.
Arguments Raise {A} message.

Definition M (A : Type) : Type := World -> World * outcome A.

Definition ret {A : Type} (a : A) : M A := fun w => (w, Return a).

Definition raise {A : Type} (message : string) : M A :=
  fun w => (w, Raise message).

Definition bind {A B : Type} (m : M A) (k : A -> M B) : M B :=
  fun w =>
    match m w with
    | (w', Return a) => k a w'
    | (w', Raise message) => (w', Raise message)
    end.

Definition modify (f : World -> World) : M unit := fun w => (f w, Return tt).

Definition gets {A : Type} (f : World -> A) : M A := fun w => (w, Return (f w)).

Declare Scope py_scope.
Delimit Scope py_scope with py.
Notation "x <- m ;; k" := (bind m (fun x => k))
  (at level 100, m at next level, right associativity) : py_scope.
Notation "m ;;; k" := (bind m (fun _ => k))
  (at level 100, right associativity) : py_scope.
Local Open Scope py_scope.

(** A [for] loop that collects what each iteration appends. *)
Fixpoint for_each {A B : Type} (body : A -> M (list B)) (xs : list A)
  : M (list B) :=
  match xs with
  | [] => ret []
  | x :: rest =>
      here <- body x ;;
      later <- for_each body rest ;;
      ret (here ++ later)
  end.

Definition log_event (e : Event) : M unit :=
  modify (fun w => set_events (events w ++ [e]) w).

(** [db.session.add(row)] *)
Definition session_add (r : Row) : M unit :=
  modify (fun w => set_session (session w ++ [r]) w).

(** [requests.post(..., timeout=30)] and the reading of the reply: takes the
    next pending outcome; with none pending the connection fails. *)
Definition requests_post (c : Capability) : M http_result :=
  fun w =>
    let w1 := set_events (events w ++ [EvPost c]) w in
    match network w with
    | [] => (w1, Return NetworkError)
    | r :: rest => (set_network rest w1, Return r)
    end.

(** ** The capability wrappers ([ai_service.py]) *)

Section Recognition.
Context `{Platform}.

(** [encode_image_to_base64] on an array; an exception is caught and gives
    [None]. *)
Definition encode_image_to_base64 (image : Image) : option string :=
  imencode_b64 image.

(** [not base64_image] *)
Definition no_image_data (b : option string) : bool :=
  match b with
  | None => true
  | Some s => String.eqb s ""
  end.

(** What [detect_faces_in_image] returns for a given outcome of its
    request.  The handler [except Exception] returns the empty list; a
    status-200 reply without a brace-delimited span leaves the [try] block
    without a [return], so the function returns [None]. *)
Definition detect_result (r : http_result) : pyval :=
  match r with
  | NetworkError => PList []
  | HttpResponse status_code content =>
      if status_code =? 200 then
        match content with
        | None => PList []
        | Some content =>
            match json_span content with
            | Some json_str =>
                match json_loads json_str with
                | Some (PDict face_data) => dict_get "faces" face_data (PList [])
                | Some _ => PList []   (* no [get]: caught by the handler *)
                | None => PList []     (* except json.JSONDecodeError *)
                end
            | None => PNone
            end
        end
      else PList []
  end.

Definition detect_faces_in_image (image_data : Image) : M pyval :=
  if no_image_data (encode_image_to_base64 image_data) then ret (PList [])
  else r <- requests_post Detect ;; ret (detect_result r).

(** The descriptor [extract_face_features] builds when the span is not
    valid JSON. *)
Definition raw_descriptor (content : string) : pyval :=
  PDict [ ("feature_vector", PStr content);
          ("key_features", PList []);
          ("face_hash", PStr (hash_str content)) ].

Definition extract_result (r : http_result) : pyval :=
  match r with
  | NetworkError => PNone
  | HttpResponse status_code content =>
      if status_code =? 200 then
        match content with
        | None => PNone
        | Some content =>
            match json_span content with
            | Some json_str =>
                match json_loads json_str with
                | Some feature_data => feature_data
                | None => raw_descriptor content
                end
            | None => PNone
            end
        end
      else PNone
  end.

Definition extract_face_features (image_data : Image) : M pyval :=
  if no_image_data (encode_image_to_base64 image_data) then ret PNone
  else r <- requests_post Extract ;; ret (extract_result r).

Definition compare_result (r : http_result) : pyval :=
  match r with
  | NetworkError => PNum 0
  | HttpResponse status_code content =>
      if status_code =? 200 then
        match content with
        | None => PNum 0
        | Some content =>
            match json_span content with
            | Some json_str =>
                match json_loads json_str with
                | Some (PDict comparison_data) =>
                    dict_get "similarity_score" comparison_data (PNum 0)
                | Some _ => PNum 0
                | None => PNum 0
                end
            | None => PNone
            end
        end
      else PNum 0
  end.

Definition compare_faces (face1_features face2_features : pyval) : M pyval :=
  if negb (truthy face1_features) || negb (truthy face2_features)
  then ret (PNum 0)
  else r <- requests_post Compare ;; ret (compare_result r).

(** An entry of the list [process_frame_for_faces] returns. *)
Record Face : Type := {
  bbox : pyval;
  confidence : pyval;
  features : pyval;
  face_region : Image
}.

(** The elements a [for] statement visits, [None] when the object is not
    iterable. *)
Definition py_iter (v : pyval) : option (list pyval) :=
  match v with
  | PList l => Some l
  | PDict d => Some (map (fun kv => PStr (fst kv)) d)
  | PStr s => Some (map (fun c => PStr (String c EmptyString)) (list_ascii_of_string s))
  | _ => None
  end.

(** The body of the loop of [process_frame_for_faces] for one candidate;
    an exception inside it is caught and the candidate is passed over. *)
Definition process_face (frame : Image) (face : pyval) : M (list Face) :=
  match face with
  | PDict d =>
      let bbox := dict_get "bbox" d (PDict []) in
      match crop_region frame bbox with
      | Some face_region =>
          if (0 <? image_size face_region)%N then
            features <- extract_face_features face_region ;;
            ret [ {| bbox := bbox;
                     confidence := dict_get "confidence" d (PNum 0);
                     features := features;
                     face_region := face_region |} ]
          else ret []
      | None => ret []
      end
  | _ => ret []
  end.

Definition process_frame_for_faces (frame : Image) : M (list Face) :=
  faces <- detect_faces_in_image frame ;;
  match py_iter faces with
  | Some candidates => for_each (process_face frame) candidates
  | None => raise "TypeError: object is not iterable"
  end.

(** ** Frame analysis ([app.py], [analyze_frame]) *)

(** [if student.face_encoding:] *)
Definition stored_encoding (student : Student) : option string :=
  match s_face_encoding student with
  | Some text => if String.eqb text "" then None else Some text
  | None => None
  end.

(** The loop over the enrolled students for one face, from given values of
    [matched_student] and [best_match_score]:
<<
    for student in students:
        if student.face_encoding:
            stored_features = json.loads(student.face_encoding)
            similarity = ai_service.compare_faces(face_data['features'], stored_features)
            if similarity > best_match_score and similarity > 0.75:
                best_match_score = similarity
                matched_student = student
>>
    A similarity that is no number makes the comparison raise. *)
Fixpoint match_students (face_features : pyval) (candidates : list Student)
  (matched_student : option Student) (best_match_score : Q)
  : M (option Student * Q) :=
  match candidates with
  | [] => ret (matched_student, best_match_score)
  | student :: rest =>
      match stored_encoding student with
      | Some text =>
          match json_loads text with
          | Some stored_features =>
              log_event (EvCompare student) ;;;
              similarity <- compare_faces face_features stored_features ;;
              match as_number similarity with
              | Some similarity =>
                  if Qgtb similarity best_match_score
                     && Qgtb similarity (3 # 4)
                  then match_students face_features rest (Some student) similarity
                  else match_students face_features rest
                         matched_student best_match_score
              | None => raise "TypeError: '>' not supported"
              end
          | None => raise "JSONDecodeError"
          end
      | None =>
          match_students face_features rest matched_student best_match_score
      end
  end.

(** The similarities the comparison capability returns during that loop,
    in call order, each with the student it was computed for: the same
    calls, without the selection. *)
Fixpoint similarities (face_features : pyval) (candidates : list Student)
  : M (list (Student * Q)) :=
  match candidates with
  | [] => ret []
  | student :: rest =>
      match stored_encoding student with
      | Some text =>
          match json_loads text with
          | Some stored_features =>
              log_event (EvCompare student) ;;;
              similarity <- compare_faces face_features stored_features ;;
              match as_number similarity with
              | Some similarity =>
                  later <- similarities face_features rest ;;
                  ret ((student, similarity) :: later)
              | None => raise "TypeError: '>' not supported"
              end
          | None => raise "JSONDecodeError"
          end
      | None => similarities face_features rest
      end
  end.

(** The selection of [match_students] on similarities already known. *)
Fixpoint select (sims : list (Student * Q))
  (matched_student : option Student) (best_match_score : Q)
  : option Student * Q :=
  match sims with
  | [] => (matched_student, best_match_score)
  | (student, similarity) :: rest =>
      if Qgtb similarity best_match_score && Qgtb similarity (3 # 4)
      then select rest (Some student) similarity
      else select rest matched_student best_match_score
  end.

(** [m] is the greatest of the similarities [sims]. *)
Definition is_maximum (m : Q) (sims : list (Student * Q)) : Prop :=
  (exists s, In (s, m) sims) /\ Forall (fun x => (snd x <= m)%Q) sims.

(** [Student.query.filter_by(is_active=True).all()] *)
Definition active_students (w : World) : list Student :=
  filter s_is_active (students w).

Definition unknown_message (current_time : Q) : string :=
  ("Unknown person detected at " ++ strftime current_time)%string.

(** [trigger_security_alarm] on the process-wide alarm object.  The
    alarm reads the clock itself ([time.time()] in the thread it starts,
    [datetime.now()] in [_log_alarm]), after the requests of the analysis:
    that reading is [alarm_clock], not the [current_time] of the request. *)
Definition trigger_security_alarm (alert_type message severity : string)
  : M unit :=
  modify (fun w =>
    set_alarm_system
      (trigger_alarm (alarm_clock w) (alarm_system w)
         alert_type message severity) w).

Definition recognized_record (student : Student) (score : Q) : pyval :=
  PDict [ ("recognized", PBool true);
          ("name", PStr (s_name student));
          ("confidence", PNum score) ].

Definition unknown_record : pyval :=
  PDict [ ("recognized", PBool false); ("name", PStr "Unknown") ].

(** The body of the loop over [detected_faces], first part: the search for
    a match, made only when the face has a descriptor. *)
Definition find_match (face_data : Face) : M (option Student * Q) :=
  if truthy (features face_data) then
    candidates <- gets active_students ;;
    match_students (features face_data) candidates None 0%Q
  else ret (None, 0%Q).

Definition entry_row (current_time : Q) (matched_student : option Student)
  (best_match_score : Q) : Row :=
  RowEntry
    {| e_student_id := option_map s_id matched_student;
       e_is_recognized :=
         match matched_student with Some _ => true | None => false end;
       e_confidence_score :=
         if Qgtb best_match_score 0 then Some best_match_score else None;
       e_entry_time := current_time |}.

Definition alert_row (current_time : Q) : Row :=
  RowAlert
    {| a_alert_type := "unknown_person";
       a_message := unknown_message current_time;
       a_severity := "high" |}.

(** Second part: the entry-log row, then the result record for a match, or
    the alert, the alarm and the result record for no match.  The value is
    what the iteration appends to [results]. *)
Definition record_outcome (current_time : Q)
  (matched_student : option Student) (best_match_score : Q)
  : M (list pyval) :=
  session_add (entry_row current_time matched_student best_match_score) ;;;
  match matched_student with
  | Some student => ret [recognized_record student best_match_score]
  | None =>
      session_add (alert_row current_time) ;;;
      trigger_security_alarm "unknown_person"
        (unknown_message current_time) "high" ;;;
      ret [unknown_record]
  end.

Definition analyze_face (current_time : Q) (face_data : Face)
  : M (list pyval) :=
  found <- find_match face_data ;;
  record_outcome current_time (fst found) (snd found).

(** The world after [record_outcome] for a match and for no match. *)
Definition after_match (current_time : Q) (student : Student) (score : Q)
  (w : World) : World :=
  set_session (session w ++ [entry_row current_time (Some student) score]) w.

Definition after_no_match (current_time : Q) (score : Q) (w : World) : World :=
  set_alarm_system
    (trigger_alarm (alarm_clock w) (alarm_system w)
       "unknown_person" (unknown_message current_time) "high")
    (set_session
       (session w ++ [entry_row current_time None score; alert_row current_time])
       w).

(** An event the matching loop can add for the candidates [cs]. *)
Definition matching_event (cs : list Student) (e : Event) : Prop :=
  match e with
  | EvCompare s => In s cs /\ stored_encoding s <> None
  | EvPost c => c = Compare
  | EvDecode => False
  end.

(** The similarities returned for one face of [detected_faces]: none when
    the face has no descriptor, since then no comparison is made. *)
Definition face_similarities (face_data : Face) : M (list (Student * Q)) :=
  if truthy (features face_data) then
    candidates <- gets active_students ;;
    similarities (features face_data) candidates
  else ret [].

(** The fields of a per-face record: a boolean [recognized], a [name], and
    a [confidence] exactly when [recognized] is true. *)
Definition record_fields (r : pyval) : Prop :=
  exists d b name,
    r = PDict d
    /\ dict_get "recognized" d PNone = PBool b
    /\ dict_get "name" d PNone = PStr name
    /\ dict_has "confidence" d = b.

(** The world in which the next reply of the remote model is [r]. *)
Definition with_reply (r : http_result) (w : World) : World :=
  set_network (r :: network w) w.

(** ['frame' in data] *)
Definition contains_frame (data : pyval) : option bool :=
  match data with
  | PDict d => Some (dict_has "frame" d)
  | PList l =>
      Some (existsb (fun v => match v with
                              | PStr s => String.eqb s "frame"
                              | _ => false
                              end) l)
  | PStr s => Some (match String.index 0 "frame" s with
                    | Some _ => true
                    | None => false
                    end)
  | _ => None
  end.

Definition status_message (status message : string) : pyval :=
  PDict [ ("status", PStr status); ("message", PStr message) ].

Definition success_response (faces_detected : nat) (results : list pyval)
  : pyval :=
  PDict [ ("status", PStr "success");
          ("faces_detected", PNum (inject_Z (Z.of_nat faces_detected)));
          ("results", PList results) ].

(** The [try] block of [analyze_frame]; [data] is [request.get_json()]. *)
Definition analyze_frame_body (data : pyval) : M pyval :=
  if negb (truthy data) then
    ret (status_message "error" "No frame data received")
  else
    match contains_frame data with
    | None => raise "TypeError: argument is not iterable"
    | Some false => ret (status_message "error" "No frame data received")
    | Some true =>
        match data with
        | PDict d =>
            let frame_b64 := dict_get "frame" d PNone in
            log_event EvDecode ;;;
            match imdecode_b64 frame_b64 with
            | None => raise "decoding raised"
            | Some None => ret (status_message "error" "Could not decode frame")
            | Some (Some frame) =>
                if (image_size frame =? 0)%N then
                  ret (status_message "error" "Could not decode frame")
                else
                  current_time <- gets clock ;;
                  detected_faces <- process_frame_for_faces frame ;;
                  results <- for_each (analyze_face current_time) detected_faces ;;
                  modify commit ;;;
                  ret (success_response (List.length detected_faces) results)
            end
        | _ => raise "TypeError: indices must be integers"
        end
    end.

(** [analyze_frame]: the gate on [monitoring_active], then the body under
    its handler, which rolls the session back and reports the exception. *)
Definition analyze_frame (data : pyval) (w : World) : World * pyval :=
  if negb (monitoring_active w) then
    (w, status_message "skipped" "Monitoring not active")
  else
    match analyze_frame_body data w with
    | (w', Return response) => (w', response)
    | (w', Raise message) => (rollback w', status_message "error" message)
    end.

End Recognition.

(** ** Further operations of the application

    The rest of [app.py] and [alarm_system.py] that works on the state
    modelled above. *)

(** [c in s] for a character. *)
Fixpoint has_char (c : ascii) (s : string) : bool :=
  match s with
  | EmptyString => false
  | String a rest => Ascii.eqb a c || has_char c rest
  end.

(** [s.lower()] on the ASCII letters; other bytes are kept.  No non-ASCII
    character lowers to one of the letters of the allowed extensions, so
    membership in [ALLOWED_EXTENSIONS] is the same as in Python. *)
Definition lower_char (c : ascii) : ascii :=
  let n := nat_of_ascii c in
  if ((65 <=? n) && (n <=? 90))%nat then ascii_of_nat (n + 32) else c.

Fixpoint lower (s : string) : string :=
  match s with
  | EmptyString => EmptyString
  | String a rest => String (lower_char a) (lower rest)
  end.

(** [s.rsplit(c, 1)[1]]: what follows the last [c]; [None] when [s] has no
    [c] (the list then has one element and the index raises). *)
Fixpoint rsplit_tail (c : ascii) (s : string) : option string :=
  match s with
  | EmptyString => None
  | String a rest =>
      match rsplit_tail c rest with
      | Some tail => Some tail
      | None => if Ascii.eqb a c then Some rest else None
      end
  end.

Definition ALLOWED_EXTENSIONS : list string := ["png"; "jpg"; "jpeg"; "gif"].

(** [allowed_file]:
<<
    return '.' in filename and filename.rsplit('.', 1)[1].lower() in ALLOWED_EXTENSIONS
>> *)
Definition allowed_file (filename : string) : bool :=
  has_char "." filename
  && match rsplit_tail "." filename with
     | Some extension =>
         existsb (String.eqb (lower extension)) ALLOWED_EXTENSIONS
     | None => false
     end.

(** [xs[-limit:]] for any integer [limit]: the start index [-limit] counts
    from the end when negative and is clamped to the list. *)
Definition slice_from_end {A : Type} (limit : Z) (xs : list A) : list A :=
  let n := Z.of_nat (List.length xs) in
  let start := - limit in
  let start := if start <? 0 then Z.max (start + n) 0 else Z.min start n in
  skipn (Z.to_nat start) xs.

(** [get_alarm_history]:
<<
    if os.path.exists(log_file):
        with open(log_file, 'r') as f: logs = json.load(f)
        return logs[-limit:] if logs else []
    return []
>>
    under a handler that returns the empty list.  A stored string is sliced
    as a string; a stored dict, number or boolean that is true cannot be
    sliced and ends in the handler. *)
Definition get_alarm_history (f : LogFile) (limit : Z) : pyval :=
  match f with
  | FileMissing => PList []
  | FileUnreadable => PList []
  | FileJSON logs =>
      if truthy logs then
        match logs with
        | PList l => PList (slice_from_end limit l)
        | PStr s =>
            PStr (string_of_list_ascii
                    (slice_from_end limit (list_ascii_of_string s)))
        | _ => PList []
        end
      else PList []
  end.

(** The worlds [w] and [w'] agree on everything a request of the remote
    model cannot touch. *)
Definition same_store (w w' : World) : Prop :=
  monitoring_active w' = monitoring_active w
  /\ students w' = students w
  /\ entry_logs w' = entry_logs w
  /\ system_alerts w' = system_alerts w
  /\ session w' = session w
  /\ alarm_system w' = alarm_system w
  /\ clock w' = clock w
  /\ alarm_clock w' = alarm_clock w.

(** [w'] has the committed tables, the roster, the flag and the clock of
    [w], and its session extends that of [w]. *)
Definition same_tables (w w' : World) : Prop :=
  monitoring_active w' = monitoring_active w
  /\ students w' = students w
  /\ entry_logs w' = entry_logs w
  /\ system_alerts w' = system_alerts w
  /\ clock w' = clock w
  /\ alarm_clock w' = alarm_clock w
  /\ exists added, session w' = session w ++ added.

(** A call that makes at most one request of kind [c]: nothing changes but
    the trace and the queue of pending replies, and either both are as
    before or one request is logged and the first pending reply is gone. *)
Definition one_request (c : Capability) (w w' : World) : Prop :=
  same_store w w'
  /\ ((events w' = events w /\ network w' = network w)
      \/ (events w' = events w ++ [EvPost c] /\ network w' = tl (network w))).

(** A per-face record with [recognized] false. *)
Definition is_unknown (r : pyval) : bool :=
  match r with
  | PDict d =>
      match dict_get "recognized" d PNone with
      | PBool false => true
      | _ => false
      end
  | _ => false
  end.

(** An entry-log row as [analyze_frame] writes it at time [now]: either
    recognized, with a student and a confidence above 3/4, or not
    recognized, with neither. *)
Definition entry_written (now : Q) (e : EntryLog) : Prop :=
  e_entry_time e = now
  /\ ((e_is_recognized e = true
       /\ exists pk c, e_student_id e = Some pk
            /\ e_confidence_score e = Some c /\ (3 # 4 < c)%Q)
      \/ (e_is_recognized e = false
          /\ e_student_id e = None /\ e_confidence_score e = None)).

(** The students of the [EvCompare] events of a trace, in order. *)
Definition compared_students (trace : list Event) : list Student :=
  flat_map (fun e => match e with EvCompare s => [s] | _ => [] end) trace.

Definition has_descriptor (s : Student) : bool :=
  match stored_encoding s with Some _ => true | None => false end.

Definition set_monitoring (b : bool) (w : World) : World :=
  {| monitoring_active := b; students := students w;
     entry_logs := entry_logs w; system_alerts := system_alerts w;
     session := session w; alarm_system := alarm_system w;
     network := network w; clock := clock w; alarm_clock := alarm_clock w;
     events := events w |}.

Definition set_students (rows : list Student) (w : World) : World :=
  {| monitoring_active := monitoring_active w; students := rows;
     entry_logs := entry_logs w; system_alerts := system_alerts w;
     session := session w; alarm_system := alarm_system w;
     network := network w; clock := clock w; alarm_clock := alarm_clock w;
     events := events w |}.

(** [start_monitoring].  The thread it starts runs [monitor_faces], which
    only sleeps while the flag is set and has no effect on the state. *)
Definition start_monitoring (w : World) : World * pyval :=
  if negb (monitoring_active w) then
    (set_monitoring true w,
     status_message "success" "✅ Monitoring started — camera active in browser")
  else (w, status_message "info" "Monitoring already active").

(** [stop_monitoring] *)
Definition stop_monitoring (w : World) : World * pyval :=
  (set_monitoring false w, status_message "success" "Monitoring stopped").

Inductive ControlRequest : Type := StartMonitoring | StopMonitoring.

Definition control (w : World) (r : ControlRequest) : World :=
  match r with
  | StartMonitoring => fst (start_monitoring w)
  | StopMonitoring => fst (stop_monitoring w)
  end.

(** The row with primary key [pk] marked inactive; [None] when there is
    no such row ([get_or_404] raises). *)
Fixpoint deactivate (pk : Z) (rows : list Student) : option (list Student) :=
  match rows with
  | [] => None
  | s :: rest =>
      if s_id s =? pk then
        Some ({| s_id := s_id s; s_name := s_name s;
                 s_face_encoding := s_face_encoding s;
                 s_is_active := false |} :: rest)
      else option_map (cons s) (deactivate pk rest)
  end.

(** [delete_student]: the row is marked inactive and committed; when the
    row does not exist the handler rolls back.  Either way the answer is
    the redirect to the student page. *)
Definition delete_student (student_id : Z) (w : World) : World :=
  match deactivate student_id (students w) with
  | Some rows => commit (set_students rows w)
  | None => rollback w
  end.

Section FaceRegions.
Context `{Platform}.

(** A face whose region is the non-empty crop of [frame] by its own
    bounding box. *)
Definition cut_from (frame : Image) (f : Face) : Prop :=
  crop_region frame (bbox f) = Some (face_region f)
  /\ (0 < image_size (face_region f))%N.

End FaceRegions.

Section UnknownFaces.
Context `{Platform}.

(** The alert row written for an unmatched face. *)
Definition unknown_alert (now : Q) : SystemAlert :=
  {| a_alert_type := "unknown_person";
     a_message := unknown_message now;
     a_severity := "high" |}.

(** The alarm object of [w] after the trigger for an unmatched face seen
    by the analysis of time [now]: the message carries [now], the alarm
    reads the clock itself. *)
Definition triggered (now : Q) (w : World) : AlarmSystem :=
  trigger_alarm (alarm_clock w) (alarm_system w)
    "unknown_person" (unknown_message now) "high".

(** A per-face record as the loop writes it for the roster of [w]. *)
Definition face_record (w : World) (r : pyval) : Prop :=
  (exists s b, r = recognized_record s b
     /\ In s (active_students w) /\ (3 # 4 < b)%Q)
  \/ r = unknown_record.

End UnknownFaces.

Section CaptureReaders.
Context `{Platform}.

(** [get_camera_frame], answered when the clock reads [now]. *)
Definition get_camera_frame (now : Q) (cell : FrameCell) : pyval :=
  match latest_frame_b64 cell with
  | Some b64 =>
      if negb (String.eqb b64 "") then
        PDict [ ("status", PStr "success");
                ("frame", PStr b64);
                ("timestamp", PStr (isoformat now)) ]
      else status_message "error" "No frame available yet"
  | None => status_message "error" "No frame available yet"
  end.

(** An iteration whose read returns without a usable frame. *)
Definition is_failed_read (it : CaptureIter) : bool :=
  match camera_read it with
  | ReadReturns ret frame =>
      match good_read ret frame with Some _ => false | None => true end
  | ReadRaises => false
  end.

(** An iteration that publishes a frame: the read succeeds and the frame
    is encoded. *)
Definition publishes (it : CaptureIter) : bool :=
  match camera_read it with
  | ReadReturns ret frame =>
      match good_read ret frame with
      | Some f => match imencode70_b64 f with Some _ => true | None => false end
      | None => false
      end
  | ReadRaises => false
  end.

(** An iteration whose read returns a usable frame. *)
Definition is_good_read (it : CaptureIter) : bool :=
  match camera_read it with
  | ReadReturns ret frame =>
      match good_read ret frame with Some _ => true | None => false end
  | ReadRaises => false
  end.

End CaptureReaders.

(** ** A concrete platform for the examples

    It agrees with the libraries on the inputs the examples use: an image
    is an array of [img_height] rows, [img_width] columns and three
    channels; the listed JSON documents parse to the values beside them and
    every other text is rejected. *)

Record SampleImage : Type := {
  img_height : Z;
  img_width : Z
}.

Definition sample_size (i : SampleImage) : N :=
  Z.to_N (img_height i * img_width i * 3).

(** [int(x)] of a finite float: truncation towards zero. *)
Definition truncate (q : Q) : Z :=
  if Qle_bool 0 q then Qfloor q else Qceiling q.

(** A slice bound on an axis of length [n]. *)
Definition slice_bound (i n : Z) : Z :=
  if i <? 0 then Z.max (i + n) 0 else Z.min i n.

Definition slice_length (start stop n : Z) : Z :=
  Z.max 0 (slice_bound stop n - slice_bound start n).

Definition scaled (d : list (string * pyval)) (key : string) (n : Z)
  : option Z :=
  match as_number (dict_get key d (PNum 0)) with
  | Some q => Some (truncate (q * inject_Z n))
  | None => None
  end.

Definition sample_crop (frame : SampleImage) (bbox : pyval)
  : option SampleImage :=
  match bbox with
  | PDict d =>
      match scaled d "x" (img_width frame), scaled d "y" (img_height frame),
            scaled d "width" (img_width frame),
            scaled d "height" (img_height frame) with
      | Some x, Some y, Some w, Some h =>
          Some {| img_height := slice_length y (y + h) (img_height frame);
                  img_width := slice_length x (x + w) (img_width frame) |}
      | _, _, _, _ => None
      end
  | _ => None
  end.

Definition dquote : string := String "034"%char EmptyString.

Definition quoted (s : string) : string := (dquote ++ s ++ dquote)%string.

(** [{"similarity_score": value}] *)
Definition doc_similarity (value : string) : string :=
  ("{" ++ quoted "similarity_score" ++ ": " ++ value ++ "}")%string.

(** [{"face_hash": "tag"}] *)
Definition doc_descriptor (tag : string) : string :=
  ("{" ++ quoted "face_hash" ++ ": " ++ quoted tag ++ "}")%string.

(** [{"faces": [{"bbox": {"x": 0, "y": 0, "width": 1, "height": 1}, "confidence": 0.5}]}] *)
Definition doc_one_face : string :=
  ("{" ++ quoted "faces" ++ ": [{" ++ quoted "bbox" ++ ": {"
   ++ quoted "x" ++ ": 0, " ++ quoted "y" ++ ": 0, "
   ++ quoted "width" ++ ": 1, " ++ quoted "height" ++ ": 1}, "
   ++ quoted "confidence" ++ ": 0.5}]}")%string.

Definition whole_frame_bbox : pyval :=
  PDict [ ("x", PNum 0); ("y", PNum 0); ("width", PNum 1); ("height", PNum 1) ].

Definition sample_documents : list (string * pyval) :=
  [ (doc_similarity "0.875", PDict [("similarity_score", PNum (7 # 8))]);
    (doc_similarity "0.75", PDict [("similarity_score", PNum (3 # 4))]);
    (doc_similarity "0.5", PDict [("similarity_score", PNum (1 # 2))]);
    (doc_descriptor "a", PDict [("face_hash", PStr "a")]);
    (doc_descriptor "b", PDict [("face_hash", PStr "b")]);
    (doc_descriptor "c", PDict [("face_hash", PStr "c")]);
    (doc_one_face,
     PDict [("faces",
             PList [PDict [("bbox", whole_frame_bbox);
                           ("confidence", PNum (1 # 2))]])]) ].

Fixpoint lookup_document (text : string) (table : list (string * pyval))
  : option pyval :=
  match table with
  | [] => None
  | (t, v) :: rest =>
      if String.eqb t text then Some v else lookup_document text rest
  end.

(** The base64 text of a JPEG image of 4 by 4 pixels, abbreviated. *)
Definition sample_jpeg : string := "/9j/4AAQSkZJRg".

Definition sample_imdecode (v : pyval) : option (option SampleImage) :=
  match v with
  | PStr s =>
      if String.eqb s sample_jpeg
      then Some (Some {| img_height := 4; img_width := 4 |})
      else Some None
  | _ => None
  end.

Definition sample_imencode (i : SampleImage) : option string :=
  if (0 <? sample_size i)%N then Some sample_jpeg else None.

#[local] Instance sample_platform : Platform := {|
  Image := SampleImage;
  image_size := sample_size;
  crop_region := sample_crop;
  imencode_b64 := sample_imencode;
  imencode70_b64 := sample_imencode;
  imdecode_b64 := sample_imdecode;
  json_loads := fun text => lookup_document text sample_documents;
  hash_str := fun _ => "0";
  strftime := fun _ => "2024-01-01 00:00:00";
  isoformat := fun _ => "2024-01-01T00:00:00"
|}.

(** Sample alarm data: an alarm triggered once at time 0, and a thread of
    severity "low" with readings every five seconds. *)
Definition sample_active_alarm : AlarmSystem :=
  trigger_alarm 0 (AlarmSystem_init FileMissing)
    "unknown_person" "Unknown person detected" "high".

Definition sample_low_thread : AlarmThread :=
  {| th_alert_type := "test_alert"; th_message := "test";
     th_severity := "low"; th_start_time := 0 |}.

Definition sample_readings : list LoopCheck :=
  [ {| seen_active := true; time_now := 0 |};
    {| seen_active := true; time_now := 5 |};
    {| seen_active := true; time_now := 10 |};
    {| seen_active := true; time_now := 15 |} ].

(** Sample records: two students with a stored descriptor and one without,
    a world with given pending replies, a request and a detected face. *)
Definition alice : Student :=
  {| s_id := 1; s_name := "Alice";
     s_face_encoding := Some (doc_descriptor "a"); s_is_active := true |}.

Definition bob : Student :=
  {| s_id := 2; s_name := "Bob";
     s_face_encoding := Some (doc_descriptor "b"); s_is_active := true |}.

Definition carol : Student :=
  {| s_id := 3; s_name := "Carol";
     s_face_encoding := None; s_is_active := true |}.

(** A student removed by [delete_student]: the row and its descriptor are
    kept, [is_active] is false. *)
Definition dave : Student :=
  {| s_id := 4; s_name := "Dave";
     s_face_encoding := Some (doc_descriptor "a"); s_is_active := false |}.

Definition reply (text : string) : http_result := HttpResponse 200 (Some text).

Definition sample_world (monitoring : bool) (roster : list Student)
  (replies : list http_result) : World :=
  {| monitoring_active := monitoring; students := roster;
     entry_logs := []; system_alerts := []; session := [];
     alarm_system := AlarmSystem_init FileMissing;
     network := replies; clock := 0; alarm_clock := 2; events := [] |}.

Definition sample_request : pyval := PDict [("frame", PStr sample_jpeg)].

Definition sample_frame : SampleImage := {| img_height := 4; img_width := 4 |}.

Definition sample_face (descriptor : pyval) : Face :=
  {| bbox := whole_frame_bbox; confidence := PNum (1 # 2);
     features := descriptor; face_region := sample_frame |}.

(** A face compared with equal similarity 0.875 to Alice and to Bob, the
    two active students with a descriptor. *)
Definition tie_face : Face := sample_face (PDict [("face_hash", PStr "c")]).

Definition tie_world : World :=
  sample_world true [dave; alice; carol; bob]
    [reply (doc_similarity "0.875"); reply (doc_similarity "0.875")].

Definition tie_world_compared : World :=
  Eval vm_compute in fst (face_similarities tie_face tie_world).

(** A frame with one face for which the extraction request fails. *)
Definition extraction_fails_world : World :=
  sample_world true [alice; bob] [reply doc_one_face; NetworkError].

(** A frame with one face that compares at 0.5 with the only student. *)
Definition no_match_world : World :=
  sample_world true [alice]
    [reply doc_one_face; reply (doc_descriptor "c");
     reply (doc_similarity "0.5")].

Definition no_match_world_after : World :=
  Eval vm_compute in fst (analyze_frame sample_request no_match_world).

Definition unknown_items : list (string * pyval) :=
  [("recognized", PBool false); ("name", PStr "Unknown")].

Definition idle_world : World := sample_world false [alice] [reply doc_one_face].

(** Further sample data: the state after the detection and extraction
    requests of [no_match_world]; a frame with no face; a frame whose one
    face compares at 0.875 with the only student; a roster in which the
    matching student comes last; a populated alarm log; readings of a
    camera. *)
Definition detection_done_world : World :=
  Eval vm_compute in fst (process_frame_for_faces sample_frame no_match_world).

Definition no_faces_world : World := sample_world true [alice] [NetworkError].

Definition match_world : World :=
  sample_world true [alice]
    [reply doc_one_face; reply (doc_descriptor "c");
     reply (doc_similarity "0.875")].

Definition match_world_after : World :=
  Eval vm_compute in fst (analyze_frame sample_request match_world).

Definition late_match_world : World :=
  sample_world true [bob; carol; alice]
    [reply (doc_similarity "0.5"); reply (doc_similarity "0.875")].

Definition late_match_world_compared : World :=
  Eval vm_compute in fst (face_similarities tie_face late_match_world).

Definition tie_world_matched : World :=
  Eval vm_compute in
    fst (match_students (features tie_face) [alice; carol; bob] None 0
           tie_world).

Definition sample_log_file : LogFile :=
  FileJSON (PList [ log_entry 0 "test_alert" "first" "low";
                    log_entry 0 "test_alert" "second" "low" ]).

Definition sample_call : TriggerCall :=
  {| call_time := 1; call_alert_type := "unknown_person";
     call_message := "Unknown person detected"; call_severity := "high" |}.

Definition sample_first_call : TriggerCall :=
  {| call_time := 0; call_alert_type := "test_alert";
     call_message := "test"; call_severity := "low" |}.

Definition sample_alarm_run : AlarmRun :=
  alarm_run [Triggered sample_first_call]
    {| alarm := AlarmSystem_init FileMissing; live := [] |}.

Definition good_iter : CaptureIter :=
  {| loop_condition := true;
     camera_read := ReadReturns true (Some sample_frame) |}.

Definition failed_iter : CaptureIter :=
  {| loop_condition := true; camera_read := ReadReturns false None |}.

Definition raising_iter : CaptureIter :=
  {| loop_condition := true; camera_read := ReadRaises |}.

Definition empty_cell : FrameCell :=
  {| latest_frame := None; latest_frame_b64 := None |}.

(** * Properties *)

(** ** Helpers on rationals and lists *)

Lemma Qgtb_true (x y : Q) : Qgtb x y = true <-> (y < x)%Q.
Proof.
  unfold Qgtb. rewrite negb_true_iff.
  split; intro Hlt.
  - apply Qnot_le_lt. intro Hle. apply Qle_bool_iff in Hle. congruence.
  - destruct (Qle_bool x y) eqn:E; [|reflexivity].
    apply Qle_bool_iff in E. exfalso. apply (Qlt_not_le _ _ Hlt E).
Qed.

Lemma Qgtb_false (x y : Q) : Qgtb x y = false <-> (x <= y)%Q.
Proof.
  unfold Qgtb. rewrite negb_false_iff. apply Qle_bool_iff.
Qed.

Lemma last_n_length {A : Type} (n : nat) (xs : list A) :
  (List.length (last_n n xs) <= n)%nat.
Proof. unfold last_n. rewrite length_skipn. lia. Qed.

Lemma last_n_split {A : Type} (n : nat) (xs : list A) :
  xs = firstn (List.length xs - n) xs ++ last_n n xs.
Proof. unfold last_n. symmetry. apply firstn_skipn. Qed.

Lemma last_n_snoc {A : Type} (n : nat) (xs : list A) (x : A) :
  last_n (S n) (xs ++ [x]) = last_n n xs ++ [x].
Proof.
  unfold last_n. rewrite length_app, skipn_app. cbn [List.length].
  replace (List.length xs + 1 - S n)%nat with (List.length xs - n)%nat by lia.
  replace (List.length xs - n - List.length xs)%nat with 0%nat by lia.
  reflexivity.
Qed.

(** ** The alarm *)

Section AlarmFacts.
Context `{Platform}.



Lemma trigger_call_activates (a : AlarmSystem) (c : TriggerCall) :
  is_active (trigger_call a c) = true.
Proof.
  unfold trigger_call, trigger_alarm.
  destruct (is_active a) eqn:E; cbn; [exact E | reflexivity].
Qed.





Lemma stored_logs_written (now : Q) (f : LogFile)
  (alert_type message severity : string) (logs : list pyval) :
  stored_logs f = Some logs ->
  _log_alarm now f alert_type message severity
  = FileJSON (PList (last_n 999 logs
                       ++ [log_entry now alert_type message severity])).
Proof.
  intro Hs. unfold _log_alarm. rewrite Hs.
  rewrite (last_n_snoc 999). reflexivity.
Qed.

Lemma last_n_all {A : Type} (n : nat) (xs : list A) :
  (List.length xs <= n)%nat -> last_n n xs = xs.
Proof.
  intro Hlen. unfold last_n.
  replace (List.length xs - n)%nat with 0%nat by lia. reflexivity.
Qed.

(** C9.  After [_log_alarm] the list stored in the log file has at most
    1000 entries.  When the file held a list, the new list is the last 999
    old entries, in their order, followed by the new entry: only oldest
    entries are dropped, and none while the list had fewer than 1000.
    When the file was absent or unreadable the new list is the entry
    alone.  A stored document that is no list is left as it is.  The entry
    records timestamp, alert type, message and severity. *)
Theorem log_alarm_keeps_cap
  (now : Q) (f : LogFile) (alert_type message severity : string) :
  let entry := log_entry now alert_type message severity in
  let f' := _log_alarm now f alert_type message severity in
  (forall stored, f' = FileJSON (PList stored) ->
     (List.length stored <= 1000)%nat)
  /\ (forall logs, f = FileJSON (PList logs) ->
        f' = FileJSON (PList (last_n 999 logs ++ [entry]))
        /\ logs ++ [entry]
           = firstn (List.length logs - 999) logs ++ (last_n 999 logs ++ [entry])
        /\ ((List.length logs < 1000)%nat ->
            f' = FileJSON (PList (logs ++ [entry]))))
  /\ (f = FileMissing \/ f = FileUnreadable ->
      f' = FileJSON (PList [entry]))
  /\ (forall doc, f = FileJSON doc -> (forall logs, doc <> PList logs) ->
      f' = f)
  /\ (exists d, entry = PDict d
        /\ dict_get "timestamp" d PNone = PStr (isoformat now)
        /\ dict_get "alert_type" d PNone = PStr alert_type
        /\ dict_get "message" d PNone = PStr message
        /\ dict_get "severity" d PNone = PStr severity).
Proof.
  cbv zeta. split; [|split; [|split; [|split]]].
  - intros stored Hst. unfold _log_alarm in Hst.
    destruct (stored_logs f) as [logs|] eqn:Hs.
    + injection Hst as <-. apply last_n_length.
    + destruct f as [| |doc]; try discriminate.
      injection Hst as ->. discriminate.
  - intros logs ->.
    assert (Hw : _log_alarm now (FileJSON (PList logs))
                   alert_type message severity
                 = FileJSON (PList (last_n 999 logs
                       ++ [log_entry now alert_type message severity])))
      by (apply stored_logs_written; reflexivity).
    split; [exact Hw|]. split.
    + rewrite app_assoc. f_equal. apply last_n_split.
    + intro Hlen. rewrite Hw, last_n_all by lia. reflexivity.
  - intros [-> | ->]; reflexivity.
  - intros doc -> Hdoc. destruct doc as [| | | |logs|]; try reflexivity.
    exfalso. exact (Hdoc logs eq_refl).
  - eexists. split; [reflexivity|]. cbn. repeat split; reflexivity.
Qed.

End AlarmFacts.

(** A full log: 1000 entries, then one more call. *)
Example log_alarm_drops_oldest :
  let old := PStr "oldest" :: repeat (PStr "old") 999 in
  stored_logs (_log_alarm 0 (FileJSON (PList old)) "unknown_person" "m" "high")
  = Some (repeat (PStr "old") 999
            ++ [log_entry 0 "unknown_person" "m" "high"]).
Proof. vm_compute. reflexivity. Qed.

(** *** The notification loop and its timeout *)

Lemma get_alarm_duration_cases (severity : string) :
  _get_alarm_duration severity
  = if String.eqb severity "high" then 60
    else if String.eqb severity "medium" then 30
    else if String.eqb severity "low" then 15 else 30.
Proof. reflexivity. Qed.



Lemma passes_dec (d : Z) (start : Q) (c : LoopCheck) :
  seen_active c && Qgtb (inject_Z d) (time_now c - start) = true
  <-> passes d start c.
Proof.
  unfold passes. rewrite andb_true_iff, Qgtb_true. reflexivity.
Qed.


Lemma alarm_loop_exited (d : Z) (start : Q) (checks : list LoopCheck) (T : Q) :
  _alarm_loop d start checks = Exited T ->
  exists before c after,
    checks = before ++ c :: after
    /\ time_now c = T
    /\ Forall (passes d start) before
    /\ ~ passes d start c.
Proof.
  induction checks as [|c rest IH]; cbn [_alarm_loop]; [discriminate|].
  destruct (seen_active c && Qgtb (inject_Z d) (time_now c - start)) eqn:E.
  - intro Hr. destruct (IH Hr) as (before & c' & after & -> & Ht & Hb & Hc).
    apply passes_dec in E.
    exists (c :: before), c', after. repeat split; auto.
  - intro Hx. injection Hx as <-.
    exists [], c, rest. repeat split; auto.
    intro Hp. apply passes_dec in Hp. congruence.
Qed.







(** ** The capture loop *)

Section CaptureFacts.
Context `{Platform}.

Lemma capture_failed_step (n : nat) (cell : FrameCell) (it : CaptureIter)
  (rest : list CaptureIter) :
  failed_read it ->
  capture_from n cell (it :: rest)
  = if (30 <? S n)%nat then (S n, cell, CaptureExited)
    else capture_from (S n) cell rest.
Proof.
  intros (Hc & ret & frame & Hr & Hg).
  cbn [capture_from]. rewrite Hc, Hr, Hg. reflexivity.
Qed.

Lemma capture_success_step (n : nat) (cell : FrameCell) (it : CaptureIter)
  (rest : list CaptureIter) (f : Image) :
  successful_read it f ->
  capture_from n cell (it :: rest)
  = capture_from 0
      (match imencode70_b64 f with
       | Some b64 => published f b64
       | None => cell
       end) rest.
Proof.
  intros (Hc & ret & frame & Hr & Hg).
  cbn [capture_from]. rewrite Hc, Hr, Hg.
  destruct (imencode70_b64 f); reflexivity.
Qed.

Lemma cell_from_later (it : CaptureIter) (rest : list CaptureIter)
  (cell cell' : FrameCell) :
  cell_from rest cell cell' -> cell_from (it :: rest) cell cell'.
Proof.
  intros [-> | (it' & f & b64 & Hin & Hs & He & ->)].
  - left. reflexivity.
  - right. exists it', f, b64. repeat split; try assumption.
    + right. exact Hin.
    + apply Hs.
    + apply Hs.
Qed.

Lemma cell_from_published (it : CaptureIter) (rest : list CaptureIter)
  (f : Image) (b64 : string) (cell cell' : FrameCell) :
  successful_read it f -> imencode70_b64 f = Some b64 ->
  cell_from rest (published f b64) cell' -> cell_from (it :: rest) cell cell'.
Proof.
  intros Hs He [-> | (it' & f' & b' & Hin & Hs' & He' & ->)].
  - right. exists it, f, b64. split; [left; reflexivity|]. auto.
  - right. exists it', f', b'. split; [right; exact Hin|]. auto.
Qed.

(** What a run leaves in the cell, and the bound on the counter. *)
Lemma capture_from_cell (iters : list CaptureIter) :
  forall n cell,
    (n <= 30)%nat ->
    let '(n', cell', status) := capture_from n cell iters in
    (n' <= 31)%nat
    /\ (status = Capturing -> (n' <= 30)%nat)
    /\ cell_from iters cell cell'.
Proof.
  induction iters as [|it rest IH]; intros n cell Hn.
  - cbn. split; [lia | split; [lia | left; reflexivity]].
  - cbn [capture_from].
    destruct (loop_condition it) eqn:Hc; cbn [negb].
    2:{ split; [lia | split; [discriminate | left; reflexivity]]. }
    destruct (camera_read it) as [|ret frame] eqn:Hr.
    + specialize (IH n cell Hn).
      destruct (capture_from n cell rest) as [[n' cell'] status].
      destruct IH as (H1 & H2 & H3).
      split; [exact H1 | split; [exact H2 | apply cell_from_later, H3]].
    + destruct (good_read ret frame) as [f|] eqn:Hg.
      * assert (Hs : successful_read it f).
        { split; [exact Hc|]. exists ret, frame. split; auto. }
        destruct (imencode70_b64 f) as [b64|] eqn:He.
        -- specialize (IH 0%nat (published f b64) ltac:(lia)).
           fold (published f b64).
           destruct (capture_from 0 (published f b64) rest)
             as [[n' cell'] status].
           destruct IH as (H1 & H2 & H3).
           split; [exact H1 | split; [exact H2|]].
           eapply cell_from_published; eauto.
        -- specialize (IH 0%nat cell ltac:(lia)).
           destruct (capture_from 0 cell rest) as [[n' cell'] status].
           destruct IH as (H1 & H2 & H3).
           split; [exact H1 | split; [exact H2 | apply cell_from_later, H3]].
      * destruct (30 <? S n)%nat eqn:Hlt.
        -- apply Nat.ltb_lt in Hlt.
           split; [lia | split; [discriminate | left; reflexivity]].
        -- apply Nat.ltb_ge in Hlt. specialize (IH (S n) cell Hlt).
           destruct (capture_from (S n) cell rest) as [[n' cell'] status].
           destruct IH as (H1 & H2 & H3).
           split; [exact H1 | split; [exact H2 | apply cell_from_later, H3]].
Qed.

(** A run over [pre ++ more] either ends within [pre] or goes on over
    [more] from where [pre] left. *)
Lemma capture_from_app (pre more : list CaptureIter) :
  forall n cell,
    capture_from n cell (pre ++ more)
    = match capture_from n cell pre with
      | (n1, cell1, Capturing) => capture_from n1 cell1 more
      | ended => ended
      end.
Proof.
  induction pre as [|it pre IH]; intros n cell.
  - reflexivity.
  - cbn [app capture_from].
    destruct (negb (loop_condition it)); [reflexivity|].
    destruct (camera_read it) as [|ret frame]; [apply IH|].
    destruct (good_read ret frame) as [f|].
    + destruct (imencode70_b64 f); apply IH.
    + destruct (30 <? S n)%nat; [reflexivity | apply IH].
Qed.

(** Failed reads only: the counter counts them, and the loop ends at the
    read that takes it past 30. *)
Lemma capture_failures_only (fails : list CaptureIter) :
  forall n cell,
    Forall failed_read fails ->
    (n + List.length fails <= 30)%nat ->
    capture_from n cell fails = ((n + List.length fails)%nat, cell, Capturing).
Proof.
  induction fails as [|it rest IH]; intros n cell Hf Hlen.
  - cbn. rewrite Nat.add_0_r. reflexivity.
  - inversion Hf as [|? ? Hit Hrest]; subst. cbn [List.length] in *.
    rewrite capture_failed_step by exact Hit.
    destruct (30 <? S n)%nat eqn:E; [apply Nat.ltb_lt in E; lia|].
    rewrite IH by (auto; lia). f_equal. f_equal. lia.
Qed.

Lemma capture_failures_exit (fails more : list CaptureIter) :
  forall n cell,
    Forall failed_read fails ->
    (n <= 30)%nat ->
    (30 < n + List.length fails)%nat ->
    capture_from n cell (fails ++ more) = (31%nat, cell, CaptureExited).
Proof.
  induction fails as [|it rest IH]; intros n cell Hf Hn Hlen.
  - cbn in Hlen. lia.
  - inversion Hf as [|? ? Hit Hrest]; subst. cbn [List.length] in *.
    cbn [app]. rewrite capture_failed_step by exact Hit.
    destruct (30 <? S n)%nat eqn:E.
    + apply Nat.ltb_lt in E. repeat f_equal. lia.
    + apply Nat.ltb_ge in E. apply IH; auto. lia.
Qed.

Lemma good_read_some (ret : bool) (frame : option Image) (f : Image) :
  good_read ret frame = Some f
  <-> ret = true /\ frame = Some f /\ (0 < image_size f)%N.
Proof.
  unfold good_read. split.
  - destruct frame as [g|]; [|discriminate].
    destruct ret; cbn [andb]; [|discriminate].
    destruct (0 <? image_size g)%N eqn:E; [|discriminate].
    intro Hg. injection Hg as ->. apply N.ltb_lt in E. auto.
  - intros (-> & -> & Hsize). apply N.ltb_lt in Hsize.
    cbn [andb]. rewrite Hsize. reflexivity.
Qed.

Lemma good_read_none (ret : bool) (frame : option Image) :
  good_read ret frame = None
  <-> ret = false \/ frame = None
      \/ exists f, frame = Some f /\ image_size f = 0%N.
Proof.
  unfold good_read. split.
  - destruct frame as [g|]; [|auto].
    destruct ret; cbn [andb]; [|auto].
    destruct (0 <? image_size g)%N eqn:E; [discriminate|].
    intros _. right. right. exists g. split; [reflexivity|].
    apply N.ltb_ge in E. lia.
  - intros [-> | [-> | (f & -> & Hsize)]].
    + destruct frame; reflexivity.
    + reflexivity.
    + rewrite Hsize. destruct ret; reflexivity.
Qed.

(** C7.  In [_capture_loop] a read has failed when it returns with [ret]
    false, without a frame or with an empty frame, and has succeeded when
    it returns [ret] true with a frame that is not empty.  A failed read
    adds one to the counter and ends the loop when the counter passes 30,
    leaving the cell as it was; a successful read sets the counter to zero
    and publishes the frame with its encoding (the cell is kept if
    encoding raises); up to 30 failed reads in a row keep the loop going
    and 31 in a row end it wherever they occur; after any run the cell
    holds its initial value or the frame and encoding published by one of
    the successful reads, so it is never cleared. *)
Theorem capture_loop_failure_policy :
  (forall it,
     failed_read it
     <-> loop_condition it = true
         /\ exists ret frame,
              camera_read it = ReadReturns ret frame
              /\ (ret = false \/ frame = None
                  \/ exists f, frame = Some f /\ image_size f = 0%N))
  /\ (forall it f,
        successful_read it f
        <-> loop_condition it = true
            /\ camera_read it = ReadReturns true (Some f)
            /\ (0 < image_size f)%N)
  /\ (forall n cell it rest,
        failed_read it ->
        capture_from n cell (it :: rest)
        = if (30 <? S n)%nat then (S n, cell, CaptureExited)
          else capture_from (S n) cell rest)
  /\ (forall n cell it rest f,
        successful_read it f ->
        capture_from n cell (it :: rest)
        = capture_from 0
            (match imencode70_b64 f with
             | Some b64 => published f b64
             | None => cell
             end) rest)
  /\ (forall cell fails,
        Forall failed_read fails -> (List.length fails <= 30)%nat ->
        _capture_loop cell fails = (List.length fails, cell, Capturing))
  /\ (forall cell pre fails more,
        Forall failed_read fails -> (30 < List.length fails)%nat ->
        snd (_capture_loop cell (pre ++ fails ++ more)) = CaptureExited)
  /\ (forall cell iters,
        let cell' := snd (fst (_capture_loop cell iters)) in
        cell_from iters cell cell'
        /\ (latest_frame cell <> None -> latest_frame cell' <> None)
        /\ (latest_frame_b64 cell <> None -> latest_frame_b64 cell' <> None)).
Proof.
  split; [|split; [|split; [|split; [|split; [|split]]]]].
  - intro it. unfold failed_read. split.
    + intros (Hc & ret & frame & Hr & Hg). split; [exact Hc|].
      exists ret, frame. split; [exact Hr|]. apply good_read_none, Hg.
    + intros (Hc & ret & frame & Hr & Hg). split; [exact Hc|].
      exists ret, frame. split; [exact Hr|]. apply good_read_none, Hg.
  - intros it f. unfold successful_read. split.
    + intros (Hc & ret & frame & Hr & Hg).
      apply good_read_some in Hg. destruct Hg as (-> & -> & Hsize). auto.
    + intros (Hc & Hr & Hsize). split; [exact Hc|].
      exists true, (Some f). split; [exact Hr|].
      apply good_read_some. auto.
  - intros. apply capture_failed_step. assumption.
  - intros n cell it rest f Hs. apply capture_success_step. exact Hs.
  - intros cell fails Hf Hlen. unfold _capture_loop.
    rewrite capture_failures_only by (auto; lia). reflexivity.
  - intros cell pre fails more Hf Hlen. unfold _capture_loop.
    rewrite capture_from_app.
    pose proof (capture_from_cell pre 0%nat cell ltac:(lia)) as Hpre.
    destruct (capture_from 0 cell pre) as [[n1 cell1] [|]].
    + destruct Hpre as (_ & Hn1 & _).
      rewrite capture_failures_exit; auto. lia.
    + reflexivity.
  - intros cell iters. cbv zeta. unfold _capture_loop.
    pose proof (capture_from_cell iters 0%nat cell ltac:(lia)) as Hc.
    destruct (capture_from 0 cell iters) as [[n' cell'] status].
    cbn [fst snd]. destruct Hc as (_ & _ & Hcell).
    split; [exact Hcell|].
    destruct Hcell as [-> | (it & f & b64 & _ & _ & _ & ->)].
    + split; auto.
    + split; intros _; discriminate.
Qed.

End CaptureFacts.

(** ** The capability wrappers *)

Section CapabilityFacts.
Context `{Platform}.

Lemma requests_post_reply (c : Capability) (r : http_result) (w : World) :
  requests_post c (with_reply r w)
  = (set_events (events w ++ [EvPost c]) w, Return r).
Proof. destruct w. reflexivity. Qed.

Lemma detect_with_reply (image : Image) (r : http_result) (w : World) :
  detect_faces_in_image image (with_reply r w)
  = if no_image_data (encode_image_to_base64 image)
    then (with_reply r w, Return (PList []))
    else (set_events (events w ++ [EvPost Detect]) w, Return (detect_result r)).
Proof.
  unfold detect_faces_in_image.
  destruct (no_image_data _); [reflexivity|].
  unfold bind. rewrite requests_post_reply. reflexivity.
Qed.

Lemma extract_with_reply (image : Image) (r : http_result) (w : World) :
  extract_face_features image (with_reply r w)
  = if no_image_data (encode_image_to_base64 image)
    then (with_reply r w, Return PNone)
    else (set_events (events w ++ [EvPost Extract]) w, Return (extract_result r)).
Proof.
  unfold extract_face_features.
  destruct (no_image_data _); [reflexivity|].
  unfold bind. rewrite requests_post_reply. reflexivity.
Qed.

Lemma compare_with_reply (f1 f2 : pyval) (r : http_result) (w : World) :
  compare_faces f1 f2 (with_reply r w)
  = if negb (truthy f1) || negb (truthy f2)
    then (with_reply r w, Return (PNum 0))
    else (set_events (events w ++ [EvPost Compare]) w, Return (compare_result r)).
Proof.
  unfold compare_faces.
  destruct (negb (truthy f1) || negb (truthy f2)); [reflexivity|].
  unfold bind. rewrite requests_post_reply. reflexivity.
Qed.

(** C3, as the code has it.  Let a reply have status 200 and a text whose
    span from the first opening brace to the last closing brace is not
    valid JSON.  Detection and comparison then return what they return on
    a network failure, the empty list and 0.0.
    Feature extraction returns the descriptor built from the raw text.  On
    a status-200 text with no such span, feature extraction returns no
    descriptor, as on a network failure. *)
Theorem malformed_reply_like_failure (content json_str : string) :
  json_span content = Some json_str ->
  json_loads json_str = None ->
  let reply := HttpResponse 200 (Some content) in
  (detect_result reply = PList [] /\ detect_result NetworkError = PList []
   /\ forall image w,
        snd (detect_faces_in_image image (with_reply reply w))
        = snd (detect_faces_in_image image (with_reply NetworkError w)))
  /\ (compare_result reply = PNum 0 /\ compare_result NetworkError = PNum 0
      /\ forall f1 f2 w,
           snd (compare_faces f1 f2 (with_reply reply w))
           = snd (compare_faces f1 f2 (with_reply NetworkError w)))
  /\ extract_result reply = raw_descriptor content
  /\ (forall text image w,
        json_span text = None ->
        extract_result (HttpResponse 200 (Some text)) = PNone
        /\ extract_result NetworkError = PNone
        /\ snd (extract_face_features image
                  (with_reply (HttpResponse 200 (Some text)) w))
           = snd (extract_face_features image (with_reply NetworkError w))).
Proof.
  intros Hspan Hloads. cbv zeta.
  assert (Hd : detect_result (HttpResponse 200 (Some content)) = PList []).
  { cbn. rewrite Hspan, Hloads. reflexivity. }
  assert (Hc : compare_result (HttpResponse 200 (Some content)) = PNum 0).
  { cbn. rewrite Hspan, Hloads. reflexivity. }
  split; [|split; [|split]].
  - split; [exact Hd|]. split; [reflexivity|]. intros image w.
    rewrite !detect_with_reply, Hd.
    destruct (no_image_data _); reflexivity.
  - split; [exact Hc|]. split; [reflexivity|]. intros f1 f2 w.
    rewrite !compare_with_reply, Hc.
    destruct (negb (truthy f1) || negb (truthy f2)); reflexivity.
  - cbn. rewrite Hspan, Hloads. reflexivity.
  - intros text image w Hnone.
    assert (He : extract_result (HttpResponse 200 (Some text)) = PNone).
    { cbn. rewrite Hnone. reflexivity. }
    split; [exact He|]. split; [reflexivity|].
    rewrite !extract_with_reply, He.
    destruct (no_image_data _); reflexivity.
Qed.

End CapabilityFacts.

Lemma malformed_reply_like_failure_witness :
  json_span "{x}" = Some "{x}"
  /\ json_loads "{x}" = None
  /\ detect_result (HttpResponse 200 (Some "{x}")) = PList [].
Proof.
  split; [reflexivity | split; [reflexivity|]].
  apply (malformed_reply_like_failure "{x}" "{x}"); reflexivity.
Defined.

(** C3 as stated fails for feature extraction: the text [{x}] holds no
    valid JSON, and a status-200 reply carrying it yields a descriptor
    where a network failure yields none. *)
Lemma malformed_extraction_differs :
  json_span "{x}" = Some "{x}"
  /\ json_loads "{x}" = None
  /\ extract_result (HttpResponse 200 (Some "{x}")) = raw_descriptor "{x}"
  /\ extract_result NetworkError = PNone
  /\ extract_result (HttpResponse 200 (Some "{x}"))
     <> extract_result NetworkError.
Proof.
  repeat split; try reflexivity. cbn. discriminate.
Qed.

(** ** Matching one face against the enrolled students *)

Lemma select_update (similarity best : Q) :
  Qgtb similarity best && Qgtb similarity (3 # 4) = true
  <-> (best < similarity /\ 3 # 4 < similarity)%Q.
Proof. rewrite andb_true_iff, !Qgtb_true. reflexivity. Qed.

(** The result of the selection: either nothing qualified and the values
    it started from are kept, or the result is the first entry that is
    strictly above everything before it and at least everything after. *)
Lemma select_spec (sims : list (Student * Q)) :
  forall m0 b0,
    (select sims m0 b0 = (m0, b0)
     /\ Forall (fun x => ~ (b0 < snd x /\ 3 # 4 < snd x)%Q) sims)
    \/ (exists before s b after,
          select sims m0 b0 = (Some s, b)
          /\ sims = before ++ (s, b) :: after
          /\ (b0 < b)%Q /\ (3 # 4 < b)%Q
          /\ Forall (fun x => (snd x < b)%Q) before
          /\ Forall (fun x => (snd x <= b)%Q) after).
Proof.
  induction sims as [|[s sim] rest IH]; intros m0 b0.
  - left. split; [reflexivity | constructor].
  - cbn [select].
    destruct (Qgtb sim b0 && Qgtb sim (3 # 4)) eqn:E.
    + apply select_update in E. destruct E as [Hb Ht]. right.
      destruct (IH (Some s) sim)
        as [[Heq Hno] | (before & s' & b & after & Heq & -> & Hgt & Ht' & Hbef & Haft)].
      * exists [], s, sim, rest.
        split; [exact Heq|]. split; [reflexivity|].
        split; [exact Hb|]. split; [exact Ht|]. split; [constructor|].
        eapply Forall_impl; [|exact Hno]. cbn. intros x Hx.
        apply Qnot_lt_le. intro Hlt. apply Hx. split; [exact Hlt | lra].
      * exists ((s, sim) :: before), s', b, after.
        split; [exact Heq|]. split; [reflexivity|].
        split; [lra|]. split; [exact Ht'|]. split; [|exact Haft].
        constructor; [exact Hgt | exact Hbef].
    + assert (Hno : ~ (b0 < sim /\ 3 # 4 < sim)%Q).
      { intro Hc. apply select_update in Hc. congruence. }
      destruct (IH m0 b0)
        as [[Heq Hrest] | (before & s' & b & after & Heq & -> & Hgt & Ht' & Hbef & Haft)].
      * left. split; [exact Heq|]. constructor; [exact Hno | exact Hrest].
      * right. exists ((s, sim) :: before), s', b, after.
        split; [exact Heq|]. split; [reflexivity|].
        split; [exact Hgt|]. split; [exact Ht'|]. split; [|exact Haft].
        constructor; [|exact Hbef]. cbn.
        apply Qnot_le_lt. intro Hle. apply Hno. split; lra.
Qed.

Section MatchingFacts.
Context `{Platform}.

Lemma log_event_run (e : Event) (w : World) :
  log_event e w = (set_events (events w ++ [e]) w, Return tt).
Proof. reflexivity. Qed.

(** The loop is the selection applied to the similarities it obtains; it
    raises where obtaining them raises. *)
Lemma match_students_select (f : pyval) (candidates : list Student) :
  forall m0 b0 w,
    match_students f candidates m0 b0 w
    = match similarities f candidates w with
      | (w', Return sims) => (w', Return (select sims m0 b0))
      | (w', Raise message) => (w', Raise message)
      end.
Proof.
  induction candidates as [|student rest IH]; intros m0 b0 w.
  - reflexivity.
  - cbn [match_students similarities].
    destruct (stored_encoding student) as [text|]; [|apply IH].
    destruct (json_loads text) as [stored|]; [|reflexivity].
    unfold bind at 1 3. rewrite log_event_run.
    unfold bind at 1 2.
    destruct (compare_faces f stored _) as [w1 [similarity|message]];
      [|reflexivity].
    destruct (as_number similarity) as [q|]; [|reflexivity].
    unfold bind at 1.
    destruct (Qgtb q b0 && Qgtb q (3 # 4)) eqn:E.
    + rewrite IH. destruct (similarities f rest w1) as [w2 [sims|message]].
      * unfold ret. cbn [select]. rewrite E. reflexivity.
      * reflexivity.
    + rewrite IH. destruct (similarities f rest w1) as [w2 [sims|message]].
      * unfold ret. cbn [select]. rewrite E. reflexivity.
      * reflexivity.
Qed.

End MatchingFacts.

Section FaceFacts.
Context `{Platform}.

Lemma record_outcome_match (now : Q) (s : Student) (best : Q) (w : World) :
  record_outcome now (Some s) best w
  = (after_match now s best w, Return [recognized_record s best]).
Proof. reflexivity. Qed.

Lemma record_outcome_no_match (now : Q) (best : Q) (w : World) :
  record_outcome now None best w
  = (after_no_match now best w, Return [unknown_record]).
Proof.
  unfold record_outcome, after_no_match, bind, session_add,
    trigger_security_alarm, modify, ret.
  cbn. rewrite <- app_assoc. reflexivity.
Qed.

Lemma similarities_roster (f : pyval) (cs : list Student) :
  forall w w' sims,
    similarities f cs w = (w', Return sims) ->
    map fst sims = filter has_descriptor cs.
Proof.
  induction cs as [|s rest IH]; intros w w' sims.
  - cbn. intro E. injection E as _ <-. reflexivity.
  - cbn [similarities filter]. unfold has_descriptor at 1.
    destruct (stored_encoding s) as [text|]; [|apply IH].
    destruct (json_loads text) as [stored|]; [|discriminate].
    unfold bind at 1. rewrite log_event_run. unfold bind at 1.
    destruct (compare_faces f stored _) as [w1 [v|message]]; [|discriminate].
    destruct (as_number v) as [q|]; [|discriminate].
    unfold bind.
    destruct (similarities f rest w1) as [w2 [later|message]] eqn:E;
      [|discriminate].
    intro Hr. injection Hr as _ <-. cbn [map fst]. f_equal.
    exact (IH _ _ _ E).
Qed.

Lemma find_match_select (face : Face) (w w1 : World)
  (sims : list (Student * Q)) :
  face_similarities face w = (w1, Return sims) ->
  find_match face w = (w1, Return (select sims None 0%Q)).
Proof.
  unfold face_similarities, find_match.
  destruct (truthy (features face)).
  - unfold bind, gets. rewrite match_students_select.
    intros ->. reflexivity.
  - unfold ret. intro E. injection E as <- <-. reflexivity.
Qed.

(** C1.  For a face of an analyzed frame, let [sims] be the similarities
    the comparison capability returns for it: one for each enrolled student
    that is active and has a stored descriptor, in roster order, and none
    for any other student.  The face is recorded as a match exactly when
    the greatest of them is above 3/4: then the record and the entry-log
    row name the first student, in iteration order, whose similarity is
    that greatest value (every earlier one is strictly smaller), with that
    value as confidence.  Otherwise, and in particular when the greatest
    similarity equals 3/4, the face is recorded as unknown. *)
Theorem match_iff_above_threshold
  (now : Q) (face : Face) (w w1 : World) (sims : list (Student * Q)) :
  face_similarities face w = (w1, Return sims) ->
  (map fst sims
   = (if truthy (features face)
      then filter has_descriptor (filter s_is_active (students w))
      else [])
   /\ Forall (fun x => In (fst x) (students w)
                       /\ s_is_active (fst x) = true) sims)
  /\ (((exists m, is_maximum m sims /\ (3 # 4 < m)%Q)
       /\ exists before s best after,
            sims = before ++ (s, best) :: after
            /\ is_maximum best sims
            /\ Forall (fun x => (snd x < best)%Q) before
            /\ analyze_face now face w
               = (after_match now s best w1, Return [recognized_record s best])
            /\ entry_row now (Some s) best
               = RowEntry {| e_student_id := Some (s_id s);
                             e_is_recognized := true;
                             e_confidence_score := Some best;
                             e_entry_time := now |})
      \/ ((~ exists m, is_maximum m sims /\ (3 # 4 < m)%Q)
          /\ (forall m, is_maximum m sims -> (m <= 3 # 4)%Q)
          /\ analyze_face now face w
             = (after_no_match now 0 w1, Return [unknown_record])
          /\ entry_row now None 0
             = RowEntry {| e_student_id := None;
                           e_is_recognized := false;
                           e_confidence_score := None;
                           e_entry_time := now |})).
Proof.
  intro Hsims. split.
  { assert (Hmap : map fst sims
                   = if truthy (features face)
                     then filter has_descriptor
                            (filter s_is_active (students w))
                     else []).
    { unfold face_similarities in Hsims.
      destruct (truthy (features face)).
      - unfold bind, gets in Hsims.
        apply similarities_roster in Hsims. exact Hsims.
      - unfold ret in Hsims. injection Hsims as _ <-. reflexivity. }
    split; [exact Hmap|].
    apply Forall_forall. intros x Hx.
    assert (Hin : In (fst x) (map fst sims)) by (apply in_map, Hx).
    rewrite Hmap in Hin. destruct (truthy (features face)); [|destruct Hin].
    apply filter_In in Hin. destruct Hin as [Hin _].
    apply filter_In in Hin. exact Hin. }
  apply find_match_select in Hsims.
  unfold analyze_face, bind. rewrite Hsims.
  destruct (select_spec sims None 0%Q)
    as [[Heq Hno] | (before & s & b & after & Heq & Hsplit & Hgt & Ht & Hbef & Haft)].
  - right. rewrite Heq. cbn [fst snd].
    assert (Hle : forall m, is_maximum m sims -> (m <= 3 # 4)%Q).
    { intros m [[s Hin] _]. rewrite Forall_forall in Hno.
      specialize (Hno (s, m) Hin). cbn in Hno.
      apply Qnot_lt_le. intro Hlt. apply Hno. split; [lra | exact Hlt]. }
    split; [|split; [exact Hle|split]].
    + intros (m & Hm & Hlt). specialize (Hle m Hm). lra.
    + apply record_outcome_no_match.
    + reflexivity.
  - left. rewrite Heq. cbn [fst snd].
    assert (Hin : In (s, b) sims).
    { rewrite Hsplit. apply in_or_app. right. left. reflexivity. }
    assert (Hmax : is_maximum b sims).
    { split; [exists s; exact Hin|]. rewrite Hsplit.
      apply Forall_app. split.
      - eapply Forall_impl; [|exact Hbef]. intros x Hx. apply Qlt_le_weak, Hx.
      - constructor; [apply Qle_refl | exact Haft]. }
    split; [exists b; split; [exact Hmax | exact Ht]|].
    exists before, s, b, after.
    split; [exact Hsplit|]. split; [exact Hmax|]. split; [exact Hbef|].
    split; [apply record_outcome_match|].
    unfold entry_row. cbn [option_map].
    assert (Hpos : Qgtb b 0 = true) by (apply Qgtb_true; lra).
    rewrite Hpos. reflexivity.
Qed.

End FaceFacts.

Lemma match_iff_above_threshold_witness :
  students tie_world = [dave; alice; carol; bob]
  /\ face_similarities tie_face tie_world
     = (tie_world_compared, Return [(alice, 7 # 8); (bob, 7 # 8)])
  /\ exists best,
       snd (analyze_face 0 tie_face tie_world)
       = Return [recognized_record alice best].
Proof.
  assert (Hs : face_similarities tie_face tie_world
               = (tie_world_compared, Return [(alice, 7 # 8); (bob, 7 # 8)])).
  { vm_compute. reflexivity. }
  split; [reflexivity|]. split; [exact Hs|].
  pose proof (match_iff_above_threshold 0 tie_face tie_world
                tie_world_compared [(alice, 7 # 8); (bob, 7 # 8)] Hs) as Hthm.
  destruct Hthm
    as [_ [[_ (before & s & best & after & Hsplit & _ & Hbef & Hrun & _)]
          | [Hno _]]].
  - destruct before as [|x before].
    + injection Hsplit as <- <- _. exists (7 # 8). rewrite Hrun. reflexivity.
    + exfalso. injection Hsplit as <- Hrest.
      inversion Hbef as [|? ? Hx _]; subst. cbn in Hx.
      destruct before as [|y before].
      * injection Hrest as <- <- _. apply (Qlt_irrefl _ Hx).
      * injection Hrest as _ Hrest. destruct before; discriminate Hrest.
  - exfalso. apply Hno. exists (7 # 8). split.
    + split; [exists alice; left; reflexivity|].
      repeat constructor; cbn; apply Qle_refl.
    + reflexivity.
Defined.

(** ** Students without a stored descriptor *)

Section DescriptorFacts.
Context `{Platform}.

Lemma matching_event_later (s : Student) (cs : list Student) (e : Event) :
  matching_event cs e -> matching_event (s :: cs) e.
Proof.
  destruct e as [|c|s']; cbn; auto. intros [Hin He]. auto.
Qed.

Lemma compare_faces_events (f1 f2 : pyval) (w : World) :
  exists v added,
    compare_faces f1 f2 w = (fst (compare_faces f1 f2 w), Return v)
    /\ events (fst (compare_faces f1 f2 w)) = events w ++ added
    /\ Forall (fun e => e = EvPost Compare) added.
Proof.
  unfold compare_faces.
  destruct (negb (truthy f1) || negb (truthy f2)).
  - exists (PNum 0), []. cbn. rewrite app_nil_r. auto.
  - unfold bind, requests_post.
    destruct (network w) as [|r rest].
    + exists (compare_result NetworkError), [EvPost Compare]. cbn. auto.
    + exists (compare_result r), [EvPost Compare]. cbn. auto.
Qed.

(** The events the loop adds: comparisons for candidates that have a
    stored descriptor, and the requests those comparisons make. *)
Lemma match_students_events (f : pyval) (cs : list Student) :
  forall m0 b0 w,
    exists added,
      events (fst (match_students f cs m0 b0 w)) = events w ++ added
      /\ Forall (matching_event cs) added.
Proof.
  induction cs as [|s rest IH]; intros m0 b0 w.
  - exists []. cbn. rewrite app_nil_r. auto.
  - cbn [match_students].
    destruct (stored_encoding s) as [text|] eqn:Henc.
    2:{ destruct (IH m0 b0 w) as (added & He & Hf). exists added.
        split; [exact He|]. eapply Forall_impl; [|exact Hf].
        intros e. apply matching_event_later. }
    destruct (json_loads text) as [stored|].
    2:{ exists []. cbn. rewrite app_nil_r. auto. }
    unfold bind at 1. rewrite log_event_run. unfold bind at 1.
    set (w0 := set_events (events w ++ [EvCompare s]) w).
    destruct (compare_faces_events f stored w0) as (v & added1 & Hrun & Hev & Hposts).
    rewrite Hrun. set (w1 := fst (compare_faces f stored w0)) in *.
    assert (Hhead : Forall (matching_event (s :: rest)) (EvCompare s :: added1)).
    { constructor.
      - cbn. split; [left; reflexivity | congruence].
      - eapply Forall_impl; [|exact Hposts]. intros e ->. reflexivity. }
    assert (Hw1 : events w1 = events w ++ EvCompare s :: added1).
    { rewrite Hev. unfold w0. cbn. rewrite <- app_assoc. reflexivity. }
    destruct (as_number v) as [q|].
    2:{ exists (EvCompare s :: added1). cbn. auto. }
    assert (Hgo : forall m b,
      exists added,
        events (fst (match_students f rest m b w1)) = events w ++ added
        /\ Forall (matching_event (s :: rest)) added).
    { intros m b. destruct (IH m b w1) as (added2 & He2 & Hf2).
      exists ((EvCompare s :: added1) ++ added2). split.
      - rewrite He2, Hw1, <- app_assoc. reflexivity.
      - apply Forall_app. split; [exact Hhead|].
        eapply Forall_impl; [|exact Hf2].
        intros e. apply matching_event_later. }
    destruct (Qgtb q b0 && Qgtb q (3 # 4)); apply Hgo.
Qed.

Lemma similarities_students (f : pyval) (cs : list Student) :
  forall w w' sims,
    similarities f cs w = (w', Return sims) ->
    Forall (fun x => In (fst x) cs /\ stored_encoding (fst x) <> None) sims.
Proof.
  induction cs as [|s rest IH]; intros w w' sims.
  - cbn. intro E. injection E as _ <-. constructor.
  - cbn [similarities].
    assert (Hlater : forall w0,
      similarities f rest w0 = (w', Return sims) ->
      Forall (fun x => In (fst x) (s :: rest)
                       /\ stored_encoding (fst x) <> None) sims).
    { intros w0 E. eapply Forall_impl; [|exact (IH _ _ _ E)].
      intros x [Hin He]. split; [right; exact Hin | exact He]. }
    destruct (stored_encoding s) as [text|] eqn:Henc; [|apply Hlater].
    destruct (json_loads text) as [stored|]; [|discriminate].
    unfold bind at 1. rewrite log_event_run. unfold bind at 1.
    destruct (compare_faces f stored _) as [w1 [v|message]]; [|discriminate].
    destruct (as_number v) as [q|]; [|discriminate].
    unfold bind.
    destruct (similarities f rest w1) as [w2 [later|message]] eqn:E;
      [|discriminate].
    intro Hr. injection Hr as _ <-. constructor.
    + cbn. split; [left; reflexivity | congruence].
    + eapply Forall_impl; [|exact (IH _ _ _ E)].
      intros x [Hin He]. split; [right; exact Hin | exact He].
Qed.

Lemma match_students_no_descriptor (f : pyval) (cs : list Student) :
  Forall (fun s => stored_encoding s = None) cs ->
  forall m0 b0 w, match_students f cs m0 b0 w = (w, Return (m0, b0)).
Proof.
  induction 1 as [|s rest Hs _ IH]; intros m0 b0 w.
  - reflexivity.
  - cbn [match_students]. rewrite Hs. apply IH.
Qed.

Lemma analyze_face_no_descriptor (now : Q) (face : Face) (w : World) :
  Forall (fun s => stored_encoding s = None) (active_students w) ->
  analyze_face now face w = (after_no_match now 0 w, Return [unknown_record]).
Proof.
  intro Hall. unfold analyze_face, find_match, bind.
  destruct (truthy (features face)).
  - unfold gets. rewrite match_students_no_descriptor by exact Hall.
    cbn [fst snd]. apply record_outcome_no_match.
  - unfold ret. cbn [fst snd]. apply record_outcome_no_match.
Qed.

Lemma for_each_no_descriptor (now : Q) (faces : list Face) :
  forall w,
    Forall (fun s => stored_encoding s = None) (active_students w) ->
    exists w',
      for_each (analyze_face now) faces w
      = (w', Return (map (fun _ => unknown_record) faces))
      /\ events w' = events w /\ network w' = network w.
Proof.
  induction faces as [|face rest IH]; intros w Hall.
  - exists w. auto.
  - cbn [for_each map]. unfold bind at 1.
    rewrite analyze_face_no_descriptor by exact Hall.
    destruct (IH (after_no_match now 0 w) Hall) as (w' & Hrun & He & Hn).
    exists w'. unfold bind. rewrite Hrun. auto.
Qed.

(** C10.  The matching loop calls the comparison only for candidates that
    have a stored descriptor; a student it newly matches is a candidate
    with a stored descriptor; and when no active student has one, every
    detected face gets the unknown record, with no comparison and no
    request made. *)
Theorem absent_descriptor_never_compared :
  (forall f cs m0 b0 w,
     exists added,
       events (fst (match_students f cs m0 b0 w)) = events w ++ added
       /\ forall s, In (EvCompare s) added ->
            In s cs /\ stored_encoding s <> None)
  /\ (forall f cs w w' s best,
        match_students f cs None 0 w = (w', Return (Some s, best)) ->
        In s cs /\ stored_encoding s <> None)
  /\ (forall now faces w,
        Forall (fun s => stored_encoding s = None) (active_students w) ->
        exists w',
          for_each (analyze_face now) faces w
          = (w', Return (map (fun _ => unknown_record) faces))
          /\ events w' = events w /\ network w' = network w).
Proof.
  split; [|split].
  - intros f cs m0 b0 w.
    destruct (match_students_events f cs m0 b0 w) as (added & He & Hf).
    exists added. split; [exact He|]. intros s Hin.
    rewrite Forall_forall in Hf. apply (Hf _ Hin).
  - intros f cs w w' s best Hrun.
    rewrite match_students_select in Hrun.
    destruct (similarities f cs w) as [w1 [sims|message]] eqn:Hs;
      [|discriminate].
    injection Hrun as _ Hsel.
    apply similarities_students in Hs. rewrite Forall_forall in Hs.
    destruct (select_spec sims None 0%Q)
      as [[Heq _] | (before & s' & b & after & Heq & Hsplit & _)].
    + rewrite Heq in Hsel. discriminate.
    + rewrite Heq in Hsel. injection Hsel as -> ->.
      apply (Hs (s, best)). rewrite Hsplit.
      apply in_or_app. right. left. reflexivity.
  - intros now faces w. apply for_each_no_descriptor.
Qed.

End DescriptorFacts.

(** ** Frame analysis *)

Section AnalysisFacts.
Context `{Platform}.

(** C6.  With monitoring disabled [analyze_frame] answers with status
    "skipped" and leaves the world as it was: no decoding, no request to
    the remote model, no entry-log row, no alert, no change of the alarm. *)
Theorem disabled_monitoring_skips (data : pyval) (w : World) :
  monitoring_active w = false ->
  analyze_frame data w = (w, status_message "skipped" "Monitoring not active")
  /\ exists d,
       snd (analyze_frame data w) = PDict d
       /\ dict_get "status" d PNone = PStr "skipped".
Proof.
  intro Hm. unfold analyze_frame. rewrite Hm. split; [reflexivity|].
  eexists. split; reflexivity.
Qed.

Lemma find_match_no_features (face : Face) (w : World) :
  truthy (features face) = false ->
  find_match face w = (w, Return (None, 0%Q)).
Proof. intro Hf. unfold find_match. rewrite Hf. reflexivity. Qed.

(** C2, as the code has it.  A candidate whose crop is not empty is kept
    by [process_frame_for_faces] also when feature extraction returns no
    descriptor.  For such a face [analyze_frame] makes no comparison and
    no request, and records it as unknown: one entry-log row without
    student and confidence, one alert, one call of the alarm trigger and
    the unknown record in the results. *)
Theorem failed_extraction_recorded_unknown
  (now : Q) (face : Face) (w : World) :
  truthy (features face) = false ->
  analyze_face now face w = (after_no_match now 0 w, Return [unknown_record])
  /\ session (after_no_match now 0 w)
     = session w ++ [entry_row now None 0; alert_row now]
  /\ alarm_system (after_no_match now 0 w)
     = trigger_alarm (alarm_clock w) (alarm_system w)
         "unknown_person" (unknown_message now) "high"
  /\ events (after_no_match now 0 w) = events w
  /\ network (after_no_match now 0 w) = network w
  /\ (forall frame d region w0 w1,
        crop_region frame (dict_get "bbox" d (PDict [])) = Some region ->
        (0 <? image_size region)%N = true ->
        extract_face_features region w0 = (w1, Return PNone) ->
        process_face frame (PDict d) w0
        = (w1, Return [ {| bbox := dict_get "bbox" d (PDict []);
                           confidence := dict_get "confidence" d (PNum 0);
                           features := PNone;
                           face_region := region |} ])).
Proof.
  intro Hf. split.
  - unfold analyze_face, bind. rewrite find_match_no_features by exact Hf.
    cbn [fst snd]. apply record_outcome_no_match.
  - repeat split.
    intros frame d region w0 w1 Hcrop Hsize Hext.
    unfold process_face. rewrite Hcrop, Hsize. unfold bind. rewrite Hext.
    reflexivity.
Qed.

Lemma analyze_face_result (now : Q) (face : Face) (w w' : World)
  (rs : list pyval) :
  analyze_face now face w = (w', Return rs) ->
  exists r, rs = [r] /\ record_fields r.
Proof.
  unfold analyze_face, bind.
  destruct (find_match face w) as [w1 [[m b]|message]]; [|discriminate].
  cbn [fst snd]. destruct m as [s|].
  - rewrite record_outcome_match. intro E. injection E as _ <-.
    eexists. split; [reflexivity|].
    exists [("recognized", PBool true); ("name", PStr (s_name s));
            ("confidence", PNum b)], true, (s_name s).
    repeat split.
  - rewrite record_outcome_no_match. intro E. injection E as _ <-.
    eexists. split; [reflexivity|].
    exists [("recognized", PBool false); ("name", PStr "Unknown")],
           false, "Unknown".
    repeat split.
Qed.

Lemma for_each_results (now : Q) (faces : list Face) :
  forall w w' results,
    for_each (analyze_face now) faces w = (w', Return results) ->
    List.length results = List.length faces /\ Forall record_fields results.
Proof.
  induction faces as [|face rest IH]; intros w w' results.
  - cbn. intro E. injection E as _ <-. split; [reflexivity | constructor].
  - cbn [for_each]. unfold bind at 1.
    destruct (analyze_face now face w) as [w1 [here|message]] eqn:Hface;
      [|discriminate].
    unfold bind at 1.
    destruct (for_each (analyze_face now) rest w1) as [w2 [later|message]]
      eqn:Hrest; [|discriminate].
    unfold ret. intro E. injection E as _ <-.
    destruct (analyze_face_result _ _ _ _ _ Hface) as (r & -> & Hr).
    destruct (IH _ _ _ Hrest) as [Hlen Hall].
    split; [cbn; f_equal; exact Hlen | constructor; assumption].
Qed.

End AnalysisFacts.

Lemma disabled_monitoring_skips_witness :
  monitoring_active idle_world = false
  /\ analyze_frame sample_request idle_world
     = (idle_world, status_message "skipped" "Monitoring not active").
Proof.
  split; [reflexivity|].
  apply (disabled_monitoring_skips sample_request idle_world). reflexivity.
Defined.

Lemma failed_extraction_recorded_unknown_witness :
  truthy (features (sample_face PNone)) = false
  /\ analyze_face 0 (sample_face PNone) extraction_fails_world
     = (after_no_match 0 0 extraction_fails_world, Return [unknown_record]).
Proof.
  split; [reflexivity|].
  apply (failed_extraction_recorded_unknown 0 (sample_face PNone)
           extraction_fails_world).
  reflexivity.
Defined.

(** C2 as stated fails: the extraction request for the one candidate of
    this frame fails, the candidate is kept without descriptor, and the
    analysis records an outcome for it, adds an entry-log row and an alert
    and activates the alarm. *)
Lemma failed_extraction_not_skipped :
  snd (process_frame_for_faces sample_frame extraction_fails_world)
  = Return [sample_face PNone]
  /\ snd (analyze_frame sample_request extraction_fails_world)
     = success_response 1 [unknown_record]
  /\ entry_logs (fst (analyze_frame sample_request extraction_fails_world))
     = [ {| e_student_id := None; e_is_recognized := false;
            e_confidence_score := None; e_entry_time := 0 |} ]
  /\ List.length
       (system_alerts (fst (analyze_frame sample_request extraction_fails_world)))
     = 1%nat
  /\ is_active (alarm_system extraction_fails_world) = false
  /\ is_active
       (alarm_system (fst (analyze_frame sample_request extraction_fails_world)))
     = true.
Proof.
  repeat split; vm_compute; reflexivity.
Qed.

(** C8 as stated fails: the record of an unmatched face has no
    [confidence] field. *)
Lemma unknown_record_lacks_confidence :
  snd (analyze_frame sample_request no_match_world)
  = success_response 1 [PDict unknown_items]
  /\ dict_has "recognized" unknown_items = true
  /\ dict_has "name" unknown_items = true
  /\ dict_has "confidence" unknown_items = false.
Proof.
  repeat split; vm_compute; reflexivity.
Qed.

(** ** Evaluations on the sample platform *)

Example json_span_none : json_span "no braces here" = None.
Proof. reflexivity. Qed.

Example json_span_outermost :
  json_span "ok {a} and {b} end" = Some "{a} and {b}".
Proof. reflexivity. Qed.

Example json_span_reversed : json_span "} {" = None.
Proof. reflexivity. Qed.

(** A status-200 text without braces: detection and comparison return
    [None], and the frame analysis then ends in its exception handler. *)
Example reply_without_span :
  detect_result (reply "no faces") = PNone
  /\ compare_result (reply "similar") = PNone
  /\ snd (analyze_frame sample_request
            (sample_world true [alice] [reply "no faces"]))
     = status_message "error" "TypeError: object is not iterable".
Proof. repeat split; vm_compute; reflexivity. Qed.

(** Equal similarities: the student met first is kept. *)
Example tie_keeps_first :
  snd (analyze_frame sample_request
         (sample_world true [alice; carol; bob]
            [reply doc_one_face; reply (doc_descriptor "c");
             reply (doc_similarity "0.875"); reply (doc_similarity "0.875")]))
  = success_response 1 [recognized_record alice (7 # 8)].
Proof. vm_compute. reflexivity. Qed.

(** A similarity of exactly 0.75 is no match. *)
Example threshold_is_strict :
  snd (analyze_frame sample_request
         (sample_world true [alice]
            [reply doc_one_face; reply (doc_descriptor "c");
             reply (doc_similarity "0.75")]))
  = success_response 1 [unknown_record].
Proof. vm_compute. reflexivity. Qed.

(** Thirty failed reads keep the capture loop going, the next one ends
    it; the published frame stays in the cell. *)
Example capture_stops_at_31 :
  let failing := {| loop_condition := true;
                    camera_read := ReadReturns false None |} in
  let good := {| loop_condition := true;
                 camera_read := ReadReturns true (Some sample_frame) |} in
  _capture_loop {| latest_frame := None; latest_frame_b64 := None |}
    (good :: repeat failing 30)
  = (30%nat, published sample_frame sample_jpeg, Capturing)
  /\ _capture_loop {| latest_frame := None; latest_frame_b64 := None |}
       (good :: repeat failing 31 ++ [good])
     = (31%nat, published sample_frame sample_jpeg, CaptureExited).
Proof. split; reflexivity. Qed.

(** * Further properties *)

(** ** Strings: [find], [rfind] and the brace span *)

Lemma has_char_app (c : ascii) (s t : string) :
  has_char c (s ++ t)%string = has_char c s || has_char c t.
Proof.
  induction s as [|a s IH]; cbn; [reflexivity|].
  rewrite IH. apply orb_assoc.
Qed.

Lemma find_ge (c : ascii) (s : string) : -1 <= find c s.
Proof.
  induction s as [|a s IH]; cbn; [lia|].
  destruct (Ascii.eqb a c); [lia|].
  destruct (find c s <? 0) eqn:E; [lia|]. apply Z.ltb_ge in E. lia.
Qed.

Lemma rfind_ge (c : ascii) (s : string) : -1 <= rfind c s.
Proof.
  induction s as [|a s IH]; cbn; [lia|].
  destruct (0 <=? rfind c s) eqn:E.
  - apply Z.leb_le in E. lia.
  - destruct (Ascii.eqb a c); lia.
Qed.

Lemma find_absent (c : ascii) (s : string) :
  has_char c s = false -> find c s = -1.
Proof.
  induction s as [|a s IH]; cbn; [reflexivity|].
  intro Hh. apply orb_false_iff in Hh. destruct Hh as [Ha Hs].
  rewrite Ha, (IH Hs). reflexivity.
Qed.

Lemma rfind_absent (c : ascii) (s : string) :
  has_char c s = false -> rfind c s = -1.
Proof.
  induction s as [|a s IH]; cbn; [reflexivity|].
  intro Hh. apply orb_false_iff in Hh. destruct Hh as [Ha Hs].
  rewrite Ha, (IH Hs). reflexivity.
Qed.

(** [find] gives the length of the longest prefix without the character. *)
Lemma find_split (c : ascii) (s : string) :
  0 <= find c s ->
  exists before after,
    s = (before ++ String c after)%string
    /\ find c s = Z.of_nat (String.length before)
    /\ has_char c before = false.
Proof.
  induction s as [|a s IH]; cbn [find]; [lia|].
  destruct (Ascii.eqb a c) eqn:Ha.
  - intros _. apply Ascii.eqb_eq in Ha. subst a.
    exists EmptyString, s. repeat split.
  - destruct (find c s <? 0) eqn:E; [lia|]. apply Z.ltb_ge in E.
    intros _. destruct (IH E) as (before & after & -> & Hlen & Hno).
    exists (String a before), after. cbn [String.length has_char append].
    rewrite Ha, Hno, Hlen. repeat split. lia.
Qed.

Lemma find_app (c : ascii) (before after : string) :
  has_char c before = false ->
  find c (before ++ String c after)%string = Z.of_nat (String.length before).
Proof.
  induction before as [|a before IH]; cbn [append find String.length has_char].
  - intros _. rewrite Ascii.eqb_refl. reflexivity.
  - intro Hh. apply orb_false_iff in Hh. destruct Hh as [Ha Hb].
    rewrite Ha, (IH Hb).
    destruct (Z.of_nat (String.length before) <? 0) eqn:E.
    + apply Z.ltb_lt in E. lia.
    + lia.
Qed.

(** [rfind] gives the length of what precedes the last occurrence. *)
Lemma rfind_split (c : ascii) (s : string) :
  0 <= rfind c s ->
  exists before after,
    s = (before ++ String c after)%string
    /\ rfind c s = Z.of_nat (String.length before)
    /\ has_char c after = false.
Proof.
  induction s as [|a s IH]; cbn [rfind]; [lia|].
  destruct (0 <=? rfind c s) eqn:E.
  - apply Z.leb_le in E. intros _.
    destruct (IH E) as (before & after & -> & Hlen & Hno).
    exists (String a before), after. cbn [String.length append].
    rewrite Hlen. repeat split; [lia | exact Hno].
  - apply Z.leb_gt in E.
    assert (Hnone : has_char c s = false).
    { destruct (has_char c s) eqn:Hh; [|reflexivity].
      exfalso. clear IH. revert E. induction s as [|b s IHs]; [discriminate Hh|].
      cbn [rfind]. destruct (0 <=? rfind c s) eqn:E2.
      - apply Z.leb_le in E2. lia.
      - cbn [has_char] in Hh. destruct (Ascii.eqb b c); [lia|].
        cbn in Hh. apply Z.leb_gt in E2. intros _. apply (IHs Hh E2). }
    destruct (Ascii.eqb a c) eqn:Ha; [|lia].
    intros _. apply Ascii.eqb_eq in Ha. subst a.
    exists EmptyString, s. repeat split. exact Hnone.
Qed.

Lemma rfind_app (c : ascii) (before after : string) :
  has_char c after = false ->
  rfind c (before ++ String c after)%string = Z.of_nat (String.length before).
Proof.
  intro Hno. induction before as [|a before IH]; cbn [append rfind String.length].
  - rewrite (rfind_absent _ _ Hno). cbn. rewrite Ascii.eqb_refl. reflexivity.
  - rewrite IH.
    destruct (0 <=? Z.of_nat (String.length before)) eqn:E.
    + lia.
    + apply Z.leb_gt in E. lia.
Qed.

Lemma append_assoc (s t u : string) :
  ((s ++ t) ++ u = s ++ (t ++ u))%string.
Proof. induction s as [|a s IH]; cbn; [reflexivity | rewrite IH; reflexivity]. Qed.

Lemma length_append (s t : string) :
  String.length (s ++ t)%string = (String.length s + String.length t)%nat.
Proof. induction s as [|a s IH]; cbn; [reflexivity | rewrite IH; reflexivity]. Qed.

(** Two ways to cut the same string: the longer prefix extends the
    shorter one. *)
Lemma append_align (p1 : string) :
  forall p2 x y,
    (p1 ++ x = p2 ++ y)%string ->
    (String.length p1 <= String.length p2)%nat ->
    exists m, p2 = (p1 ++ m)%string /\ x = (m ++ y)%string.
Proof.
  induction p1 as [|a p1 IH]; intros p2 x y Heq Hlen.
  - exists p2. split; [reflexivity | exact Heq].
  - destruct p2 as [|b p2]; [cbn in Hlen; lia|].
    cbn in Heq. injection Heq as -> Heq. cbn in Hlen.
    destruct (IH p2 x y Heq ltac:(lia)) as (m & -> & ->).
    exists m. split; reflexivity.
Qed.

Lemma substring_skip (p s : string) (n : nat) :
  substring (String.length p) n (p ++ s)%string = substring 0 n s.
Proof. induction p as [|a p IH]; cbn; [reflexivity | exact IH]. Qed.

Lemma substring_prefix (m t : string) :
  substring 0 (String.length m) (m ++ t)%string = m.
Proof.
  induction m as [|a m IH]; cbn.
  - destruct t; reflexivity.
  - rewrite IH. reflexivity.
Qed.

Lemma slice_middle (before middle after : string) :
  slice (before ++ middle ++ after)%string
    (Z.of_nat (String.length before))
    (Z.of_nat (String.length before + String.length middle))
  = middle.
Proof.
  unfold slice. rewrite Nat2Z.id.
  replace (Z.to_nat (Z.of_nat (String.length before + String.length middle)
                     - Z.of_nat (String.length before)))
    with (String.length middle) by lia.
  rewrite substring_skip. apply substring_prefix.
Qed.

Lemma json_span_wrapped (before middle after : string) :
  has_char "{" before = false ->
  has_char "}" after = false ->
  json_span (before ++ ("{" ++ middle ++ "}") ++ after)%string
  = Some ("{" ++ middle ++ "}")%string.
Proof.
  intros Hno1 Hno2. unfold json_span.
  assert (Hf : find "{" (before ++ ("{" ++ middle ++ "}") ++ after)%string
               = Z.of_nat (String.length before)).
  { cbn. apply find_app, Hno1. }
  assert (Hr : rfind "}" (before ++ ("{" ++ middle ++ "}") ++ after)%string
               = Z.of_nat (String.length before + S (String.length middle))).
  { replace (before ++ ("{" ++ middle ++ "}") ++ after)%string
      with ((before ++ String "{" middle) ++ String "}" after)%string.
    - rewrite rfind_app by exact Hno2. rewrite length_append. reflexivity.
    - rewrite append_assoc. cbn. rewrite append_assoc. reflexivity. }
  rewrite Hf, Hr.
  replace ((0 <=? Z.of_nat (String.length before))
           && (Z.of_nat (String.length before)
               <? Z.of_nat (String.length before + S (String.length middle)) + 1))
    with true.
  + f_equal.
    replace (Z.of_nat (String.length before + S (String.length middle)) + 1)
      with (Z.of_nat (String.length before
                      + String.length ("{" ++ middle ++ "}")%string)).
    * apply slice_middle.
    * rewrite !length_append. cbn [String.length]. lia.
  + symmetry. apply andb_true_iff. split.
    * apply Z.leb_le. lia.
    * apply Z.ltb_lt. lia.
Qed.

(** X1.  [json_span] succeeds exactly on the texts that have an opening
    brace followed, somewhere later, by a closing brace; the span then
    runs from the first opening brace to the last closing brace, both
    included. *)
Theorem json_span_first_to_last (content span : string) :
  json_span content = Some span
  <-> exists before middle after,
        content = (before ++ ("{" ++ middle ++ "}") ++ after)%string
        /\ has_char "{" before = false
        /\ has_char "}" after = false
        /\ span = ("{" ++ middle ++ "}")%string.
Proof.
  unfold json_span. split.
  - destruct ((0 <=? find "{" content)
              && (find "{" content <? rfind "}" content + 1)) eqn:E;
      [|discriminate].
    apply andb_true_iff in E. destruct E as [E1 E2].
    apply Z.leb_le in E1. apply Z.ltb_lt in E2.
    destruct (find_split _ _ E1) as (p1 & s1 & Hc1 & Hf & Hno1).
    assert (E3 : 0 <= rfind "}" content) by lia.
    destruct (rfind_split _ _ E3) as (p2 & s2 & Hc2 & Hr & Hno2).
    assert (Hlen : (String.length p1 <= String.length p2)%nat) by lia.
    assert (Heq : (p1 ++ String "{" s1 = p2 ++ String "}" s2)%string)
      by congruence.
    destruct (append_align _ _ _ _ Heq Hlen) as (m & -> & Hm).
    destruct m as [|b middle]; [discriminate Hm|].
    cbn in Hm. injection Hm as <- ->.
    intro Hs. injection Hs as <-.
    exists p1, middle, s2. split; [|split; [exact Hno1|split; [exact Hno2|]]].
    + rewrite Hc1. cbn. rewrite append_assoc. reflexivity.
    + rewrite Hf, Hr, Hc1.
      replace (p1 ++ String "{" (middle ++ String "}" s2))%string
        with (p1 ++ ("{" ++ middle ++ "}") ++ s2)%string
        by (cbn; rewrite append_assoc; reflexivity).
      replace (Z.of_nat (String.length (p1 ++ String "{" middle)) + 1)
        with (Z.of_nat (String.length p1
                        + String.length ("{" ++ middle ++ "}")%string)).
      * apply slice_middle.
      * rewrite !length_append. cbn [String.length]. lia.
  - intros (before & middle & after & -> & Hno1 & Hno2 & ->).
    apply json_span_wrapped; assumption.
Qed.

Section SurroundingText.
Context `{Platform}.

Lemma json_span_bare (middle : string) :
  json_span ("{" ++ middle ++ "}")%string = Some ("{" ++ middle ++ "}")%string.
Proof.
  pose proof (json_span_wrapped EmptyString middle EmptyString
                eq_refl eq_refl) as Hw.
  replace (EmptyString ++ ("{" ++ middle ++ "}") ++ EmptyString)%string
    with ("{" ++ middle ++ "}")%string in Hw; [exact Hw|].
  cbn. f_equal. clear.
  induction middle as [|a m IH]; cbn; [reflexivity|]. f_equal.
  rewrite append_assoc in *. cbn in *. exact IH.
Qed.

(** X2.  Text around the JSON object of a reply is ignored: a status-200
    reply whose text wraps an object in a preamble without opening brace
    and an epilogue without closing brace gives detection and comparison
    the result of the bare object, and gives extraction that result too
    when the object is valid JSON. *)
Theorem surrounding_text_ignored (before middle after : string) :
  has_char "{" before = false ->
  has_char "}" after = false ->
  let object := ("{" ++ middle ++ "}")%string in
  let wrapped := (before ++ object ++ after)%string in
  detect_result (HttpResponse 200 (Some wrapped))
  = detect_result (HttpResponse 200 (Some object))
  /\ compare_result (HttpResponse 200 (Some wrapped))
     = compare_result (HttpResponse 200 (Some object))
  /\ (json_loads object <> None ->
      extract_result (HttpResponse 200 (Some wrapped))
      = extract_result (HttpResponse 200 (Some object))).
Proof.
  intros H1 H2. cbv zeta.
  pose proof (json_span_wrapped before middle after H1 H2) as Hw.
  pose proof (json_span_bare middle) as Hb.
  unfold detect_result, compare_result, extract_result.
  cbn [Z.eqb Pos.eqb]. rewrite Hw, Hb.
  repeat split.
  intro Hv. destruct (json_loads ("{" ++ middle ++ "}")%string);
    [reflexivity | congruence].
Qed.

End SurroundingText.

Lemma surrounding_text_ignored_witness :
  has_char "{" "Here is the result: " = false
  /\ has_char "}" " Hope this helps." = false
  /\ compare_result
       (reply ("Here is the result: " ++ doc_similarity "0.875"
               ++ " Hope this helps.")%string)
     = compare_result (reply (doc_similarity "0.875")).
Proof.
  split; [reflexivity | split; [reflexivity|]].
  pose proof (surrounding_text_ignored "Here is the result: "
                (quoted "similarity_score" ++ ": 0.875")%string
                " Hope this helps." eq_refl eq_refl) as Hthm.
  cbv zeta in Hthm. destruct Hthm as (_ & Hc & _).
  vm_compute in Hc. vm_compute. exact Hc.
Defined.

(** ** Upload file names *)

Lemma rsplit_tail_app (c : ascii) (stem tail : string) :
  has_char c tail = false ->
  rsplit_tail c (stem ++ String c tail)%string = Some tail.
Proof.
  intro Hno.
  assert (Hnone : forall s, has_char c s = false -> rsplit_tail c s = None).
  { induction s as [|a s IH]; cbn; [reflexivity|].
    intro Hh. apply orb_false_iff in Hh. destruct Hh as [Ha Hs].
    rewrite (IH Hs), Ha. reflexivity. }
  induction stem as [|a stem IH]; cbn [append rsplit_tail].
  - rewrite (Hnone _ Hno), Ascii.eqb_refl. reflexivity.
  - rewrite IH. reflexivity.
Qed.

Lemma existsb_eqb_In (x : string) (l : list string) :
  existsb (String.eqb x) l = true <-> In x l.
Proof.
  rewrite existsb_exists. split.
  - intros (y & Hin & Heq). apply String.eqb_eq in Heq. subst. exact Hin.
  - intro Hin. exists x. split; [exact Hin | apply String.eqb_refl].
Qed.

(** X3.  [allowed_file] looks only at what follows the last dot, without
    regard to case: a name [stem.ext] whose [ext] has no dot is accepted
    exactly when [ext] in lower case is png, jpg, jpeg or gif, whatever
    the stem (also an empty one); a name without dot is rejected. *)
Theorem allowed_file_last_extension (stem extension : string) :
  has_char "." extension = false ->
  (allowed_file (stem ++ "." ++ extension)%string = true
   <-> In (lower extension) ALLOWED_EXTENSIONS)
  /\ allowed_file extension = false.
Proof.
  intro Hno. split.
  - unfold allowed_file.
    change (stem ++ "." ++ extension)%string
      with (stem ++ String "." extension)%string.
    rewrite has_char_app, rsplit_tail_app by exact Hno.
    cbn [has_char]. rewrite Ascii.eqb_refl, orb_true_r. cbn [andb orb].
    apply existsb_eqb_In.
  - unfold allowed_file. rewrite Hno. reflexivity.
Qed.

Lemma allowed_file_last_extension_witness :
  has_char "." "JPG" = false
  /\ allowed_file "holiday.photo.JPG" = true
  /\ allowed_file "JPG" = false.
Proof.
  split; [reflexivity|].
  pose proof (allowed_file_last_extension "holiday.photo" "JPG" eq_refl)
    as [Hiff Hbare].
  split; [|exact Hbare].
  apply Hiff. cbn. auto.
Defined.

(** ** What the steps of an analysis can change *)

Lemma same_store_refl (w : World) : same_store w w.
Proof. repeat split. Qed.

Lemma same_store_trans (w1 w2 w3 : World) :
  same_store w1 w2 -> same_store w2 w3 -> same_store w1 w3.
Proof.
  intros (A1 & A2 & A3 & A4 & A5 & A6 & A7 & A8)
         (B1 & B2 & B3 & B4 & B5 & B6 & B7 & B8).
  repeat split; congruence.
Qed.

Lemma same_tables_refl (w : World) : same_tables w w.
Proof. repeat split. exists []. rewrite app_nil_r. reflexivity. Qed.

Lemma same_tables_trans (w1 w2 w3 : World) :
  same_tables w1 w2 -> same_tables w2 w3 -> same_tables w1 w3.
Proof.
  intros (A1 & A2 & A3 & A4 & A5 & A6 & (x & A7))
         (B1 & B2 & B3 & B4 & B5 & B6 & (y & B7)).
  repeat split; try congruence.
  exists (x ++ y). rewrite B7, A7, app_assoc. reflexivity.
Qed.

Lemma same_store_tables (w w' : World) : same_store w w' -> same_tables w w'.
Proof.
  intros (A1 & A2 & A3 & A4 & A5 & A6 & A7 & A8).
  repeat split; try assumption.
  exists []. rewrite app_nil_r. exact A5.
Qed.

(** A relation between the world before and after that every step keeps
    is kept by a sequence and by a loop, whatever the outcome. *)
Lemma bind_keeps {A B : Type} (R : World -> World -> Prop)
  (m : M A) (k : A -> M B) (w : World) :
  (forall w1 w2 w3, R w1 w2 -> R w2 w3 -> R w1 w3) ->
  R w (fst (m w)) ->
  (forall a w1, R w1 (fst (k a w1))) ->
  R w (fst (bind m k w)).
Proof.
  intros Htrans Hm Hk. unfold bind.
  destruct (m w) as [w1 [a|message]]; cbn [fst] in *.
  - eapply Htrans; [exact Hm | apply Hk].
  - exact Hm.
Qed.

Lemma for_each_keeps {A B : Type} (R : World -> World -> Prop)
  (body : A -> M (list B)) :
  (forall w, R w w) ->
  (forall w1 w2 w3, R w1 w2 -> R w2 w3 -> R w1 w3) ->
  (forall x w, R w (fst (body x w))) ->
  forall xs w, R w (fst (for_each body xs w)).
Proof.
  intros Hrefl Htrans Hbody xs.
  induction xs as [|x rest IH]; intro w; cbn [for_each].
  - apply Hrefl.
  - apply bind_keeps; [exact Htrans | apply Hbody|].
    intros here w1. apply bind_keeps; [exact Htrans | apply IH|].
    intros later w2. apply Hrefl.
Qed.

Section StepFacts.
Context `{Platform}.

Lemma requests_post_one (c : Capability) (w : World) :
  one_request c w (fst (requests_post c w))
  /\ exists r, snd (requests_post c w) = Return r.
Proof.
  destruct w as [mon studs logs alerts sess alarm0 net clk aclk evs].
  unfold requests_post, one_request, same_store.
  destruct net as [|r rest]; cbn.
  - split; [|eexists; reflexivity].
    split; [repeat split|]. right. split; reflexivity.
  - split; [|eexists; reflexivity].
    split; [repeat split|]. right. split; reflexivity.
Qed.

Lemma one_request_none (c : Capability) (w : World) : one_request c w w.
Proof. split; [apply same_store_refl | left; split; reflexivity]. Qed.

Lemma detect_one (image : Image) (w : World) :
  one_request Detect w (fst (detect_faces_in_image image w)).
Proof.
  unfold detect_faces_in_image.
  destruct (no_image_data _); [apply one_request_none|].
  unfold bind. pose proof (requests_post_one Detect w) as [Hone _].
  destruct (requests_post Detect w) as [w1 [r|message]]; exact Hone.
Qed.

Lemma extract_one (image : Image) (w : World) :
  one_request Extract w (fst (extract_face_features image w)).
Proof.
  unfold extract_face_features.
  destruct (no_image_data _); [apply one_request_none|].
  unfold bind. pose proof (requests_post_one Extract w) as [Hone _].
  destruct (requests_post Extract w) as [w1 [r|message]]; exact Hone.
Qed.

Lemma compare_one (f1 f2 : pyval) (w : World) :
  one_request Compare w (fst (compare_faces f1 f2 w)).
Proof.
  unfold compare_faces.
  destruct (negb (truthy f1) || negb (truthy f2)); [apply one_request_none|].
  unfold bind. pose proof (requests_post_one Compare w) as [Hone _].
  destruct (requests_post Compare w) as [w1 [r|message]]; exact Hone.
Qed.

(** X4.  Each capability wrapper makes at most one request: it touches
    nothing but the trace and the queue of pending replies, logging one
    request of its own kind and taking the first pending reply, or leaving
    both as they were.  It makes no request at all for an image that
    cannot be encoded, nor for a comparison in which one descriptor is
    empty, and then returns the neutral result. *)
Theorem capability_calls_make_one_request
  (image : Image) (f1 f2 : pyval) (w : World) :
  one_request Detect w (fst (detect_faces_in_image image w))
  /\ one_request Extract w (fst (extract_face_features image w))
  /\ one_request Compare w (fst (compare_faces f1 f2 w))
  /\ (no_image_data (encode_image_to_base64 image) = true ->
      detect_faces_in_image image w = (w, Return (PList []))
      /\ extract_face_features image w = (w, Return PNone))
  /\ (truthy f1 = false \/ truthy f2 = false ->
      compare_faces f1 f2 w = (w, Return (PNum 0))).
Proof.
  split; [apply detect_one|]. split; [apply extract_one|].
  split; [apply compare_one|]. split.
  - intro Hno. unfold detect_faces_in_image, extract_face_features.
    rewrite Hno. split; reflexivity.
  - intro Hf. unfold compare_faces.
    destruct Hf as [-> | ->]; cbn; [reflexivity|].
    rewrite orb_true_r. reflexivity.
Qed.

End StepFacts.

(** ** Detected faces *)

Section FaceListFacts.
Context `{Platform}.

Lemma extract_run (image : Image) (w : World) :
  exists w' v,
    extract_face_features image w = (w', Return v) /\ one_request Extract w w'.
Proof.
  pose proof (extract_one image w) as Hone. revert Hone.
  unfold extract_face_features.
  destruct (no_image_data _); [intro; eexists _, _; split; [reflexivity|exact Hone]|].
  unfold bind, requests_post.
  destruct (network w); cbn; intro Hone; eexists _, _;
    (split; [reflexivity | exact Hone]).
Qed.

Lemma detect_run (image : Image) (w : World) :
  exists w' v,
    detect_faces_in_image image w = (w', Return v) /\ one_request Detect w w'.
Proof.
  pose proof (detect_one image w) as Hone. revert Hone.
  unfold detect_faces_in_image.
  destruct (no_image_data _); [intro; eexists _, _; split; [reflexivity|exact Hone]|].
  unfold bind, requests_post.
  destruct (network w); cbn; intro Hone; eexists _, _;
    (split; [reflexivity | exact Hone]).
Qed.

(** One candidate: at most one face, cut from the frame, for at most one
    extraction request. *)
Lemma process_face_run (frame : Image) (face : pyval) (w : World) :
  exists w' faces added,
    process_face frame face w = (w', Return faces)
    /\ same_store w w'
    /\ events w' = events w ++ added
    /\ Forall (cut_from frame) faces
    /\ Forall (eq (EvPost Extract)) added
    /\ (List.length added <= List.length faces <= 1)%nat.
Proof.
  assert (Hskip : exists w' faces added,
            @ret (list Face) [] w = (w', Return faces)
            /\ same_store w w'
            /\ events w' = events w ++ added
            /\ Forall (cut_from frame) faces
            /\ Forall (eq (EvPost Extract)) added
            /\ (List.length added <= List.length faces <= 1)%nat).
  { exists w, [], []. rewrite app_nil_r.
    repeat split; auto using same_store_refl. }
  unfold process_face.
  destruct face as [| | | | |d]; try exact Hskip.
  destruct (crop_region frame (dict_get "bbox" d (PDict []))) as [region|] eqn:Hc;
    [|exact Hskip].
  destruct (0 <? image_size region)%N eqn:Hs; [|exact Hskip].
  unfold bind.
  destruct (extract_run region w) as (w1 & v & -> & Hstore & Hev).
  unfold ret.
  assert (Hcut : cut_from frame
            {| bbox := dict_get "bbox" d (PDict []);
               confidence := dict_get "confidence" d (PNum 0);
               features := v; face_region := region |}).
  { split; [exact Hc | apply N.ltb_lt, Hs]. }
  destruct Hev as [[He _] | [He _]].
  - eexists w1, _, []. split; [reflexivity|]. split; [exact Hstore|].
    split; [rewrite app_nil_r; exact He|].
    split; [constructor; [exact Hcut | constructor]|].
    split; [constructor | cbn; lia].
  - eexists w1, _, [EvPost Extract]. split; [reflexivity|].
    split; [exact Hstore|]. split; [exact He|].
    split; [constructor; [exact Hcut | constructor]|].
    split; [repeat constructor | cbn; lia].
Qed.

Lemma process_faces_run (frame : Image) (candidates : list pyval) :
  forall w,
    exists w' faces added,
      for_each (process_face frame) candidates w = (w', Return faces)
      /\ same_store w w'
      /\ events w' = events w ++ added
      /\ Forall (cut_from frame) faces
      /\ Forall (eq (EvPost Extract)) added
      /\ (List.length added <= List.length faces <= List.length candidates)%nat.
Proof.
  induction candidates as [|face rest IH]; intro w.
  - exists w, [], []. cbn. rewrite app_nil_r.
    repeat split; auto using same_store_refl.
  - cbn [for_each]. unfold bind.
    destruct (process_face_run frame face w)
      as (w1 & here & added1 & -> & Hs1 & He1 & Hc1 & Ha1 & Hl1).
    destruct (IH w1)
      as (w2 & later & added2 & -> & Hs2 & He2 & Hc2 & Ha2 & Hl2).
    unfold ret.
    exists w2, (here ++ later), (added1 ++ added2).
    split; [reflexivity|].
    split; [eapply same_store_trans; eassumption|].
    split; [rewrite He2, He1, app_assoc; reflexivity|].
    split; [apply Forall_app; split; assumption|].
    split; [apply Forall_app; split; assumption|].
    rewrite !length_app. cbn [List.length]. lia.
Qed.

(** X5.  Every face [process_frame_for_faces] returns is a non-empty crop
    of the frame by its own bounding box; the call touches nothing but the
    trace and the pending replies, makes at most one detection request
    followed by at most one extraction request per returned face, and
    returns no more faces than the detection listed. *)
Theorem detected_faces_are_crops (frame : Image) (w w' : World)
  (faces : list Face) :
  process_frame_for_faces frame w = (w', Return faces) ->
  same_store w w'
  /\ Forall (cut_from frame) faces
  /\ exists detected candidates requests extractions,
       snd (detect_faces_in_image frame w) = Return detected
       /\ py_iter detected = Some candidates
       /\ (List.length faces <= List.length candidates)%nat
       /\ events w' = events w ++ requests ++ extractions
       /\ (requests = [] \/ requests = [EvPost Detect])
       /\ Forall (eq (EvPost Extract)) extractions
       /\ (List.length extractions <= List.length faces)%nat.
Proof.
  unfold process_frame_for_faces, bind.
  destruct (detect_run frame w) as (w1 & detected & -> & Hstore & Hev).
  cbn [snd].
  destruct (py_iter detected) as [candidates|] eqn:Hiter; [|discriminate].
  destruct (process_faces_run frame candidates w1)
    as (w2 & found & added & -> & Hs & He & Hc & Ha & Hl).
  intro E. injection E as <- <-.
  split; [eapply same_store_trans; eassumption|]. split; [exact Hc|].
  exists detected, candidates.
  destruct Hev as [[He1 _] | [He1 _]].
  - exists [], added. split; [reflexivity|]. split; [exact Hiter|].
    split; [lia|]. split; [rewrite He, He1; reflexivity|].
    split; [left; reflexivity|]. split; [exact Ha | lia].
  - exists [EvPost Detect], added. split; [reflexivity|]. split; [exact Hiter|].
    split; [lia|]. split; [rewrite He, He1, <- app_assoc; reflexivity|].
    split; [right; reflexivity|]. split; [exact Ha | lia].
Qed.

End FaceListFacts.

(** ** One face of an analysis *)

Section FaceRunFacts.
Context `{Platform}.

Lemma log_event_store (e : Event) (w : World) :
  same_store w (fst (log_event e w)).
Proof. repeat split. Qed.

Lemma match_students_store (f : pyval) (cs : list Student) :
  forall m0 b0 w, same_store w (fst (match_students f cs m0 b0 w)).
Proof.
  induction cs as [|s rest IH]; intros m0 b0 w; cbn [match_students].
  - apply same_store_refl.
  - destruct (stored_encoding s) as [text|]; [|apply IH].
    destruct (json_loads text) as [stored|]; [|apply same_store_refl].
    apply bind_keeps; [exact same_store_trans | apply log_event_store|].
    intros _ w1.
    apply bind_keeps; [exact same_store_trans | apply compare_one|].
    intros similarity w2.
    destruct (as_number similarity) as [q|]; [|apply same_store_refl].
    destruct (Qgtb q b0 && Qgtb q (3 # 4)); apply IH.
Qed.

Lemma find_match_store (face : Face) (w : World) :
  same_store w (fst (find_match face w)).
Proof.
  unfold find_match. destruct (truthy (features face));
    [|apply same_store_refl].
  unfold bind, gets. apply match_students_store.
Qed.

(** What the search returns: no student and score 0, or an active student
    with a stored descriptor and a score above 3/4. *)
Lemma find_match_result (face : Face) (w w1 : World)
  (m : option Student) (b : Q) :
  find_match face w = (w1, Return (m, b)) ->
  (m = None /\ b = 0%Q)
  \/ (exists s, m = Some s /\ (3 # 4 < b)%Q
        /\ In s (active_students w) /\ stored_encoding s <> None).
Proof.
  unfold find_match. destruct (truthy (features face)).
  - unfold bind, gets. rewrite match_students_select.
    destruct (similarities (features face) (active_students w) w)
      as [w2 [sims|message]] eqn:Hs; [|discriminate].
    intro E. injection E as _ Hsel.
    apply similarities_students in Hs. rewrite Forall_forall in Hs.
    destruct (select_spec sims None 0%Q)
      as [[Heq _] | (before & s & q & after & Heq & Hsplit & _ & Ht & _)].
    + rewrite Heq in Hsel. injection Hsel as <- <-. left. split; reflexivity.
    + rewrite Heq in Hsel. injection Hsel as <- <-. right.
      exists s. split; [reflexivity|]. split; [exact Ht|].
      apply (Hs (s, q)). rewrite Hsplit.
      apply in_or_app. right. left. reflexivity.
  - unfold ret. intro E. injection E as _ <- <-. left. split; reflexivity.
Qed.

(** The two ways an iteration over a face ends without exception. *)
Lemma analyze_face_cases (now : Q) (face : Face) (w w' : World)
  (rs : list pyval) :
  analyze_face now face w = (w', Return rs) ->
  exists w1,
    same_store w w1
    /\ ((exists s b, (3 # 4 < b)%Q /\ In s (active_students w)
           /\ w' = after_match now s b w1
           /\ rs = [recognized_record s b])
        \/ (w' = after_no_match now 0 w1 /\ rs = [unknown_record])).
Proof.
  unfold analyze_face, bind.
  pose proof (find_match_store face w) as Hstore.
  destruct (find_match face w) as [w1 [[m b]|message]] eqn:Hfind;
    [|discriminate].
  cbn [fst snd] in *. intro Hrun. exists w1. split; [exact Hstore|].
  destruct (find_match_result _ _ _ _ _ Hfind)
    as [[-> ->] | (s & -> & Ht & Hin & _)].
  - rewrite record_outcome_no_match in Hrun. injection Hrun as <- <-.
    right. split; reflexivity.
  - rewrite record_outcome_match in Hrun. injection Hrun as <- <-.
    left. exists s, b. repeat split; assumption.
Qed.

Lemma record_outcome_tables (now : Q) (m : option Student) (b : Q) (w : World) :
  same_tables w (fst (record_outcome now m b w)).
Proof.
  destruct m as [s|].
  - rewrite record_outcome_match. cbn [fst]. repeat split.
    eexists. reflexivity.
  - rewrite record_outcome_no_match. cbn [fst]. repeat split.
    eexists. reflexivity.
Qed.

Lemma analyze_face_tables (now : Q) (face : Face) (w : World) :
  same_tables w (fst (analyze_face now face w)).
Proof.
  unfold analyze_face.
  apply bind_keeps; [exact same_tables_trans | |].
  - apply same_store_tables, find_match_store.
  - intros found w1. apply record_outcome_tables.
Qed.

End FaceRunFacts.

(** ** All faces of an analysis *)

Section FacesRunFacts.
Context `{Platform}.

Lemma trigger_alarm_active (n : Q) (a : AlarmSystem) (t m s : string) :
  is_active (trigger_alarm n a t m s) = true.
Proof.
  unfold trigger_alarm. destruct (is_active a) eqn:E; cbn; [exact E|reflexivity].
Qed.

Lemma trigger_alarm_again (n : Q) (a : AlarmSystem) (t m s : string) :
  is_active a = true -> trigger_alarm n a t m s = a.
Proof. intro E. unfold trigger_alarm. rewrite E. reflexivity. Qed.

Lemma entry_row_match_written (now : Q) (s : Student) (b : Q) :
  (3 # 4 < b)%Q ->
  exists e, entry_row now (Some s) b = RowEntry e /\ entry_written now e.
Proof.
  intro Hb. eexists. split; [reflexivity|]. split; [reflexivity|].
  left. split; [reflexivity|]. exists (s_id s), b.
  cbn. assert (Hpos : Qgtb b 0 = true) by (apply Qgtb_true; lra).
  rewrite Hpos. repeat split. exact Hb.
Qed.

Lemma entry_row_unknown_written (now : Q) :
  exists e, entry_row now None 0 = RowEntry e /\ entry_written now e.
Proof.
  eexists. split; [reflexivity|]. split; [reflexivity|].
  right. repeat split.
Qed.

(** The loop over the detected faces, when it ends without exception. *)
Lemma for_each_analysis (now : Q) (faces : list Face) :
  forall w w' results,
    for_each (analyze_face now) faces w = (w', Return results) ->
    List.length results = List.length faces
    /\ same_tables w w'
    /\ Forall (face_record w) results
    /\ alarm_system w'
       = (if existsb is_unknown results then triggered now w
          else alarm_system w)
    /\ exists rows,
         session w' = session w ++ rows
         /\ List.length (entries_of rows) = List.length faces
         /\ Forall (entry_written now) (entries_of rows)
         /\ alerts_of rows
            = repeat (unknown_alert now)
                (List.length (filter is_unknown results)).
Proof.
  induction faces as [|face rest IH]; intros w w' results.
  - cbn. intro E. injection E as <- <-.
    split; [reflexivity|]. split; [apply same_tables_refl|].
    split; [constructor|]. split; [reflexivity|].
    exists []. rewrite app_nil_r. repeat split. constructor.
  - cbn [for_each]. unfold bind at 1.
    destruct (analyze_face now face w) as [wa [here|message]] eqn:Hface;
      [|discriminate].
    unfold bind at 1.
    destruct (for_each (analyze_face now) rest wa) as [wb [later|message]]
      eqn:Hrest; [|discriminate].
    unfold ret. intro E. injection E as <- <-.
    pose proof (analyze_face_tables now face w) as Hta.
    rewrite Hface in Hta. cbn [fst] in Hta.
    destruct (IH _ _ _ Hrest) as (Hlen & Htb & Hrec & Halarm & rows & Hsess & Hne & Hwr & Hal).
    destruct (analyze_face_cases _ _ _ _ _ Hface)
      as (w1 & Hstore & [(s & b & Hb & Hin & -> & ->) | [-> ->]]).
    + (* the face is matched *)
      destruct Hstore as (S1 & S2 & S3 & S4 & S5 & S6 & S7 & S8).
      destruct (entry_row_match_written now s b Hb) as (e & He & Hew).
      split; [cbn; f_equal; exact Hlen|].
      split; [eapply same_tables_trans; eassumption|].
      split.
      { constructor.
        - left. exists s, b. repeat split; assumption.
        - eapply Forall_impl; [|exact Hrec].
          intros r [(s' & b' & -> & Hin' & Hb') | ->]; [left|right; reflexivity].
          exists s', b'. repeat split; try assumption.
          unfold active_students in *. cbn in Hin'. rewrite S2 in Hin'.
          exact Hin'. }
      split.
      { rewrite Halarm. cbn [app existsb is_unknown recognized_record dict_get].
        cbn. unfold triggered. cbn. rewrite S6, S8. reflexivity. }
      exists (entry_row now (Some s) b :: rows).
      split; [rewrite Hsess; cbn; rewrite S5, <- app_assoc; reflexivity|].
      rewrite He. cbn [entries_of alerts_of flat_map app].
      split; [cbn; f_equal; exact Hne|].
      split; [constructor; [exact Hew | exact Hwr]|].
      exact Hal.
    + (* the face is unknown *)
      destruct Hstore as (S1 & S2 & S3 & S4 & S5 & S6 & S7 & S8).
      destruct (entry_row_unknown_written now) as (e & He & Hew).
      split; [cbn; f_equal; exact Hlen|].
      split; [eapply same_tables_trans; eassumption|].
      split.
      { constructor.
        - right. reflexivity.
        - eapply Forall_impl; [|exact Hrec].
          intros r [(s' & b' & -> & Hin' & Hb') | ->]; [left|right; reflexivity].
          exists s', b'. repeat split; try assumption.
          unfold active_students in *. cbn in Hin'. rewrite S2 in Hin'.
          exact Hin'. }
      split.
      { assert (Ha : alarm_system (after_no_match now 0 w1) = triggered now w).
        { unfold triggered. cbn. rewrite S6, S8. reflexivity. }
        rewrite Halarm. cbn [app existsb]. 
        change (is_unknown unknown_record) with true. cbn [orb].
        destruct (existsb is_unknown later); [|exact Ha].
        unfold triggered at 1. rewrite Ha.
        apply trigger_alarm_again, trigger_alarm_active. }
      exists (entry_row now None 0 :: alert_row now :: rows).
      split.
      { rewrite Hsess. cbn. rewrite S5, <- app_assoc. reflexivity. }
      rewrite He. cbn [entries_of alerts_of flat_map app alert_row].
      split; [cbn; f_equal; exact Hne|].
      split; [constructor; [exact Hew | exact Hwr]|].
      change (is_unknown unknown_record) with true. cbn [filter List.length repeat].
      fold (alerts_of rows). rewrite Hal. reflexivity.
Qed.

End FacesRunFacts.

(** ** A whole analysis *)

Section AnalysisRunFacts.
Context `{Platform}.

Lemma process_frame_store (frame : Image) (w : World) :
  same_store w (fst (process_frame_for_faces frame w)).
Proof.
  unfold process_frame_for_faces, bind.
  destruct (detect_run frame w) as (w1 & detected & -> & Hstore & _).
  destruct (py_iter detected) as [candidates|]; [|exact Hstore].
  destruct (process_faces_run frame candidates w1)
    as (w2 & faces & added & -> & Hs & _).
  cbn [fst]. eapply same_store_trans; eassumption.
Qed.

Lemma for_each_analysis_tables (now : Q) (faces : list Face) (w : World) :
  same_tables w (fst (for_each (analyze_face now) faces w)).
Proof.
  apply for_each_keeps.
  - exact same_tables_refl.
  - exact same_tables_trans.
  - intros face w0. apply analyze_face_tables.
Qed.

Lemma same_tables_rollback (w w1 : World) :
  same_tables w w1 ->
  monitoring_active (rollback w1) = monitoring_active w
  /\ students (rollback w1) = students w
  /\ entry_logs (rollback w1) = entry_logs w
  /\ system_alerts (rollback w1) = system_alerts w
  /\ clock (rollback w1) = clock w.
Proof. intros (A1 & A2 & A3 & A4 & A5 & _). cbn. auto. Qed.

(** How the body of [analyze_frame] can end. *)
Lemma analyze_frame_body_cases (data : pyval) (w wb : World)
  (ob : outcome pyval) :
  analyze_frame_body data w = (wb, ob) ->
  (exists message,
     ob = Return (status_message "error" message) /\ same_store w wb)
  \/ (exists message, ob = Raise message /\ same_tables w wb)
  \/ (exists d frame w2 w3 faces results,
        data = PDict d
        /\ imdecode_b64 (dict_get "frame" d PNone) = Some (Some frame)
        /\ process_frame_for_faces frame
             (set_events (events w ++ [EvDecode]) w) = (w2, Return faces)
        /\ for_each (analyze_face (clock w)) faces w2 = (w3, Return results)
        /\ wb = commit w3
        /\ ob = Return (success_response (List.length faces) results)).
Proof.
  intro Hb. unfold analyze_frame_body in Hb.
  destruct (negb (truthy data)).
  { unfold ret in Hb. injection Hb as <- <-. left.
    eexists. split; [reflexivity | apply same_store_refl]. }
  destruct (contains_frame data) as [[|]|].
  2:{ unfold ret in Hb. injection Hb as <- <-. left.
      eexists. split; [reflexivity | apply same_store_refl]. }
  2:{ unfold raise in Hb. injection Hb as <- <-. right. left.
      eexists. split; [reflexivity | apply same_tables_refl]. }
  destruct data as [| | | | |d];
    try (unfold raise in Hb; injection Hb as <- <-; right; left;
         eexists; split; [reflexivity | apply same_tables_refl]).
  unfold bind at 1 in Hb. rewrite log_event_run in Hb.
  set (w0 := set_events (events w ++ [EvDecode]) w) in *.
  assert (Hw0 : same_store w w0) by (repeat split).
  destruct (imdecode_b64 (dict_get "frame" d PNone)) as [[frame|]|] eqn:Hdec.
  3:{ unfold raise in Hb. injection Hb as <- <-. right. left.
      eexists. split; [reflexivity | apply same_store_tables, Hw0]. }
  2:{ unfold ret in Hb. injection Hb as <- <-. left.
      eexists. split; [reflexivity | exact Hw0]. }
  destruct (image_size frame =? 0)%N.
  { unfold ret in Hb. injection Hb as <- <-. left.
    eexists. split; [reflexivity | exact Hw0]. }
  unfold bind at 1 in Hb. unfold gets at 1 in Hb. unfold bind at 1 in Hb.
  pose proof (process_frame_store frame w0) as Hp.
  destruct (process_frame_for_faces frame w0) as [w2 [faces|message]] eqn:Hproc;
    cbn [fst] in Hp.
  2:{ injection Hb as <- <-. right. left. eexists. split; [reflexivity|].
      apply same_store_tables. exact (same_store_trans _ _ _ Hw0 Hp). }
  unfold bind at 1 in Hb.
  pose proof (for_each_analysis_tables (clock w0) faces w2) as Hf.
  destruct (for_each (analyze_face (clock w0)) faces w2)
    as [w3 [results|message]] eqn:Hloop; cbn [fst] in Hf.
  2:{ injection Hb as <- <-. right. left. eexists. split; [reflexivity|].
      eapply same_tables_trans; [|exact Hf].
      apply same_store_tables. exact (same_store_trans _ _ _ Hw0 Hp). }
  unfold bind, modify, ret in Hb. injection Hb as <- <-. right. right.
  exists d, frame, w2, w3, faces, results. repeat split; auto.
Qed.

(** How [analyze_frame] can end: skipped; an error answer, after an early
    return or after the handler rolled the session back; or success, with
    the session committed. *)
Lemma analyze_frame_cases (data : pyval) (w w' : World) (response : pyval) :
  analyze_frame data w = (w', response) ->
  (monitoring_active w = false /\ w' = w
   /\ response = status_message "skipped" "Monitoring not active")
  \/ (monitoring_active w = true
      /\ exists message w1,
           response = status_message "error" message
           /\ same_tables w w1
           /\ ((w' = w1 /\ same_store w w1) \/ w' = rollback w1))
  \/ (monitoring_active w = true
      /\ exists d frame w2 w3 faces results,
           data = PDict d
           /\ imdecode_b64 (dict_get "frame" d PNone) = Some (Some frame)
           /\ process_frame_for_faces frame
                (set_events (events w ++ [EvDecode]) w) = (w2, Return faces)
           /\ for_each (analyze_face (clock w)) faces w2 = (w3, Return results)
           /\ w' = commit w3
           /\ response = success_response (List.length faces) results).
Proof.
  unfold analyze_frame.
  destruct (monitoring_active w) eqn:Hmon; cbn [negb].
  2:{ intro E. injection E as <- <-. left. repeat split. }
  destruct (analyze_frame_body data w) as [wb ob] eqn:Hbody.
  intro Hrun. right.
  destruct (analyze_frame_body_cases _ _ _ _ Hbody)
    as [(message & -> & Hs) | [(message & -> & Ht) | Hok]].
  - injection Hrun as <- <-. left. split; [reflexivity|].
    exists message, wb. split; [reflexivity|].
    split; [apply same_store_tables, Hs|]. left. split; [reflexivity|exact Hs].
  - injection Hrun as <- <-. left. split; [reflexivity|].
    exists message, wb. split; [reflexivity|]. split; [exact Ht|].
    right. reflexivity.
  - destruct Hok as (d & frame & w2 & w3 & faces & results
                     & Hd & Hdec & Hp & Hf & -> & ->).
    injection Hrun as <- <-. right. split; [reflexivity|].
    exists d, frame, w2, w3, faces, results. repeat split; assumption.
Qed.

End AnalysisRunFacts.

Section AnalysisProperties.
Context `{Platform}.

Lemma dict_has_truthy (key : string) (d : list (string * pyval)) :
  dict_has key d = true -> truthy (PDict d) = true.
Proof. destruct d; [discriminate | reflexivity]. Qed.

(** X6.  A frame for which detection returns the empty list is answered
    with success, zero faces and no records; with nothing pending in the
    session, the entry log, the alerts and the alarm are as before. *)
Theorem no_faces_no_outcome (d : list (string * pyval)) (frame : Image)
  (w : World) :
  monitoring_active w = true ->
  session w = [] ->
  dict_has "frame" d = true ->
  imdecode_b64 (dict_get "frame" d PNone) = Some (Some frame) ->
  image_size frame <> 0%N ->
  snd (detect_faces_in_image frame (set_events (events w ++ [EvDecode]) w))
  = Return (PList []) ->
  snd (analyze_frame (PDict d) w) = success_response 0 []
  /\ entry_logs (fst (analyze_frame (PDict d) w)) = entry_logs w
  /\ system_alerts (fst (analyze_frame (PDict d) w)) = system_alerts w
  /\ alarm_system (fst (analyze_frame (PDict d) w)) = alarm_system w
  /\ session (fst (analyze_frame (PDict d) w)) = [].
Proof.
  intros Hmon Hsess Hkey Hdec Hsize Hdet.
  destruct (detect_run frame (set_events (events w ++ [EvDecode]) w))
    as (w1 & v & Hrun & Hstore & _).
  rewrite Hrun in Hdet. cbn [snd] in Hdet. injection Hdet as ->.
  assert (Hall : analyze_frame (PDict d) w
                 = (commit w1, success_response 0 [])).
  { unfold analyze_frame, analyze_frame_body. rewrite Hmon. cbn [negb].
    rewrite (dict_has_truthy _ _ Hkey). cbn [negb contains_frame].
    rewrite Hkey. unfold bind at 1. rewrite log_event_run, Hdec.
    apply N.eqb_neq in Hsize. rewrite Hsize.
    unfold bind at 1. unfold gets at 1. unfold bind at 1.
    unfold process_frame_for_faces. unfold bind at 1. rewrite Hrun.
    reflexivity. }
  rewrite Hall. cbn [fst snd].
  destruct Hstore as (S1 & S2 & S3 & S4 & S5 & S6 & S7 & S8).
  cbn in S3, S4, S5, S6.
  cbn [commit entry_logs system_alerts alarm_system session].
  rewrite S3, S4, S5, S6, Hsess. cbn. rewrite !app_nil_r.
  repeat split.
Qed.

(** X7.  With monitoring active, a request that cannot be analysed is
    answered with an error and has no effect.  A parsed body that is falsy
    or contains no [frame] is answered "No frame data received" and leaves
    the world as it was.  A [frame] field that decodes to no image or to
    an empty one is answered "Could not decode frame", and one whose
    decoding raises is answered with the message of the exception after
    the handler rolled the session back; both only add the decoding to
    the trace.  In no case is a request made to the remote model or a row
    written. *)
Theorem unusable_request_rejected (data : pyval) (w : World) :
  monitoring_active w = true ->
  (truthy data = false \/ contains_frame data = Some false ->
   analyze_frame data w
   = (w, status_message "error" "No frame data received"))
  /\ (forall d,
        data = PDict d ->
        dict_has "frame" d = true ->
        imdecode_b64 (dict_get "frame" d PNone) = Some None
        \/ (exists frame,
              imdecode_b64 (dict_get "frame" d PNone) = Some (Some frame)
              /\ image_size frame = 0%N) ->
        analyze_frame data w
        = (set_events (events w ++ [EvDecode]) w,
           status_message "error" "Could not decode frame"))
  /\ (forall d,
        data = PDict d ->
        dict_has "frame" d = true ->
        imdecode_b64 (dict_get "frame" d PNone) = None ->
        exists message,
          analyze_frame data w
          = (rollback (set_events (events w ++ [EvDecode]) w),
             status_message "error" message)).
Proof.
  intro Hmon. split; [|split].
  - intros Hbad. unfold analyze_frame, analyze_frame_body.
    rewrite Hmon. cbn [negb].
    destruct (truthy data) eqn:Ht; cbn [negb]; [|reflexivity].
    destruct Hbad as [Hf | ->]; [discriminate Hf | reflexivity].
  - intros d -> Hkey Hdec. unfold analyze_frame, analyze_frame_body.
    rewrite Hmon. cbn [negb].
    rewrite (dict_has_truthy _ _ Hkey). cbn [negb contains_frame].
    rewrite Hkey. unfold bind at 1. rewrite log_event_run.
    destruct Hdec as [-> | (frame & -> & Hsize)]; [reflexivity|].
    rewrite Hsize. reflexivity.
  - intros d -> Hkey Hdec. unfold analyze_frame, analyze_frame_body.
    rewrite Hmon. cbn [negb].
    rewrite (dict_has_truthy _ _ Hkey). cbn [negb contains_frame].
    rewrite Hkey. unfold bind at 1. rewrite log_event_run, Hdec.
    eexists. reflexivity.
Qed.

Lemma success_is_not_error (n : nat) (results : list pyval)
  (status message : string) :
  status <> "success" ->
  status_message status message <> success_response n results.
Proof.
  intros Hs E. unfold status_message, success_response in E.
  injection E as E1 _. congruence.
Qed.

Lemma success_response_inj (n m : nat) (rs rs' : list pyval) :
  success_response n rs = success_response m rs' -> n = m /\ rs = rs'.
Proof.
  unfold success_response. intro E. injection E as E1 E2.
  split; [apply Nat2Z.inj; exact E1 | exact E2].
Qed.

(** Each record of the loop over the detected faces is the one the
    iteration for the face at its position appended. *)
Lemma for_each_per_face (now : Q) (faces : list Face) :
  forall w w' results,
    for_each (analyze_face now) faces w = (w', Return results) ->
    Forall2 (fun face r =>
               exists wa wb, analyze_face now face wa = (wb, Return [r]))
      faces results.
Proof.
  induction faces as [|face rest IH]; intros w w' results.
  - cbn. intro E. injection E as _ <-. constructor.
  - cbn [for_each]. unfold bind at 1.
    destruct (analyze_face now face w) as [w1 [here|message]] eqn:Hface;
      [|discriminate].
    unfold bind at 1.
    destruct (for_each (analyze_face now) rest w1) as [w2 [later|message]]
      eqn:Hrest; [|discriminate].
    unfold ret. intro E. injection E as _ <-.
    destruct (analyze_face_result _ _ _ _ _ Hface) as (r & -> & _).
    cbn [app]. constructor; [|exact (IH _ _ _ Hrest)].
    exists w, w1. exact Hface.
Qed.

(** C8, as the code has it.  A response of [analyze_frame] with status
    "success" is the answer to a request whose [frame] field decodes to an
    image: it carries the number of faces [process_frame_for_faces]
    returned for that image and one record for each of them, in their
    order.  A record is either [{recognized: true, name, confidence}] with
    the name of an active student and a confidence above 3/4, or
    [{recognized: false, name: "Unknown"}]: it has a boolean [recognized]
    and a [name], and a [confidence] exactly when [recognized] is true. *)
Theorem success_response_shape (data : pyval) (w w' : World)
  (d : list (string * pyval)) :
  analyze_frame data w = (w', PDict d) ->
  dict_get "status" d PNone = PStr "success" ->
  exists body frame w2 faces results,
    data = PDict body
    /\ imdecode_b64 (dict_get "frame" body PNone) = Some (Some frame)
    /\ process_frame_for_faces frame (set_events (events w ++ [EvDecode]) w)
       = (w2, Return faces)
    /\ PDict d = success_response (List.length faces) results
    /\ Forall2 (fun face r =>
                  exists wa wb,
                    analyze_face (clock w) face wa = (wb, Return [r]))
         faces results
    /\ Forall (fun r =>
                 (exists s b,
                    r = PDict [ ("recognized", PBool true);
                                ("name", PStr (s_name s));
                                ("confidence", PNum b) ]
                    /\ In s (students w) /\ s_is_active s = true
                    /\ (3 # 4 < b)%Q)
                 \/ r = PDict [ ("recognized", PBool false);
                                ("name", PStr "Unknown") ])
         results
    /\ Forall record_fields results.
Proof.
  intros Hrun Hstatus.
  destruct (analyze_frame_cases _ _ _ _ Hrun)
    as [(_ & _ & E) | [(_ & message & w1 & E & _) | (_ & Hok)]].
  - exfalso. injection E as ->. cbn in Hstatus. discriminate Hstatus.
  - exfalso. injection E as ->. cbn in Hstatus. discriminate Hstatus.
  - destruct Hok as (body & frame & w2 & w3 & faces & results
                     & -> & Hdec & Hp & Hf & _ & E).
    exists body, frame, w2, faces, results.
    split; [reflexivity|]. split; [exact Hdec|]. split; [exact Hp|].
    split; [exact E|]. split; [exact (for_each_per_face _ _ _ _ _ Hf)|].
    pose proof (process_frame_store frame
                  (set_events (events w ++ [EvDecode]) w)) as Hs.
    rewrite Hp in Hs. cbn [fst] in Hs.
    destruct Hs as (_ & S2 & _). cbn in S2.
    destruct (for_each_analysis _ _ _ _ _ Hf) as (_ & _ & Hrec & _).
    split; [|exact (proj2 (for_each_results _ _ _ _ _ Hf))].
    eapply Forall_impl; [|exact Hrec].
    intros r [(s & b & -> & Hin & Hb) | ->]; [left|right; reflexivity].
    exists s, b. split; [reflexivity|].
    unfold active_students in Hin. rewrite S2 in Hin.
    apply filter_In in Hin. destruct Hin as [Hin Hact]. auto.
Qed.

(** X8.  An analysis never changes the roster, the monitoring flag or the
    clock, and never removes or rewrites a committed row: the entry log
    and the alerts after it extend those before it.  Unless the answer is
    a success, both tables are exactly as before. *)
Theorem analysis_keeps_committed_rows (data : pyval) (w : World) :
  let w' := fst (analyze_frame data w) in
  let response := snd (analyze_frame data w) in
  students w' = students w
  /\ monitoring_active w' = monitoring_active w
  /\ clock w' = clock w
  /\ exists entries alerts,
       entry_logs w' = entry_logs w ++ entries
       /\ system_alerts w' = system_alerts w ++ alerts
       /\ ((forall n results, response <> success_response n results) ->
           entries = [] /\ alerts = []).
Proof.
  cbv zeta.
  destruct (analyze_frame data w) as [w' response] eqn:Hrun. cbn [fst snd].
  destruct (analyze_frame_cases _ _ _ _ Hrun)
    as [(_ & -> & _) | [(_ & message & w1 & _ & Ht & Hw) | (_ & Hok)]].
  - repeat split. exists [], []. rewrite !app_nil_r. auto.
  - assert (Hfields : students w' = students w
                      /\ monitoring_active w' = monitoring_active w
                      /\ clock w' = clock w
                      /\ entry_logs w' = entry_logs w
                      /\ system_alerts w' = system_alerts w).
    { destruct Hw as [[-> _] | ->].
      - destruct Ht as (A1 & A2 & A3 & A4 & A5 & _). auto.
      - destruct (same_tables_rollback _ _ Ht) as (A1 & A2 & A3 & A4 & A5).
        auto. }
    destruct Hfields as (A1 & A2 & A3 & A4 & A5).
    split; [exact A1|]. split; [exact A2|]. split; [exact A3|].
    exists [], []. rewrite !app_nil_r. auto.
  - destruct Hok as (d & frame & w2 & w3 & faces & results
                     & _ & _ & Hp & Hf & -> & ->).
    pose proof (process_frame_store frame
                  (set_events (events w ++ [EvDecode]) w)) as Hs.
    rewrite Hp in Hs. cbn [fst] in Hs.
    pose proof (for_each_analysis_tables (clock w) faces w2) as Ht.
    rewrite Hf in Ht. cbn [fst] in Ht.
    destruct Hs as (S1 & S2 & S3 & S4 & S5 & S6 & S7 & S8).
    destruct Ht as (T1 & T2 & T3 & T4 & T5 & _).
    cbn in S1, S2, S3, S4, S7. cbn [commit students monitoring_active clock
                                      entry_logs system_alerts].
    split; [congruence|]. split; [congruence|]. split; [congruence|].
    exists (entries_of (session w3)), (alerts_of (session w3)).
    split; [congruence|]. split; [congruence|].
    intro Hno. exfalso. apply (Hno _ _ eq_refl).
Qed.

(** X9.  A successful analysis that starts with an empty session writes
    exactly one entry-log row per detected face, stamped with the time of
    the analysis, and one alert per record with [recognized] false; a row
    is either recognized, with a student and a confidence above 3/4, or
    unrecognized, with neither.  The rows are appended after the existing
    ones and the session is empty again. *)
Theorem successful_analysis_rows (data : pyval) (w w' : World) (n : nat)
  (results : list pyval) :
  analyze_frame data w = (w', success_response n results) ->
  session w = [] ->
  List.length results = n
  /\ Forall (face_record w) results
  /\ session w' = []
  /\ system_alerts w'
     = system_alerts w
       ++ repeat (unknown_alert (clock w))
            (List.length (filter is_unknown results))
  /\ exists entries,
       entry_logs w' = entry_logs w ++ entries
       /\ List.length entries = n
       /\ Forall (entry_written (clock w)) entries.
Proof.
  intros Hrun Hsess.
  destruct (analyze_frame_cases _ _ _ _ Hrun)
    as [(_ & _ & E) | [(_ & message & w1 & E & _) | (_ & Hok)]].
  - exfalso. symmetry in E. revert E. apply success_is_not_error. discriminate.
  - exfalso. symmetry in E. revert E. apply success_is_not_error. discriminate.
  - destruct Hok as (d & frame & w2 & w3 & faces & results0
                     & _ & _ & Hp & Hf & -> & E).
    apply success_response_inj in E. destruct E as [-> ->].
    pose proof (process_frame_store frame
                  (set_events (events w ++ [EvDecode]) w)) as Hs.
    rewrite Hp in Hs. cbn [fst] in Hs.
    destruct Hs as (S1 & S2 & S3 & S4 & S5 & S6 & S7 & S8).
    cbn in S1, S2, S3, S4, S5, S7.
    destruct (for_each_analysis _ _ _ _ _ Hf)
      as (Hlen & Ht & Hrec & _ & rows & Hrows & Hne & Hwr & Hal).
    destruct Ht as (T1 & T2 & T3 & T4 & T5 & _).
    split; [exact Hlen|]. split.
    { eapply Forall_impl; [|exact Hrec].
      intros r [(s & b & -> & Hin & Hb) | ->]; [left|right; reflexivity].
      exists s, b. split; [reflexivity|]. split; [|exact Hb].
      unfold active_students in *. rewrite S2 in Hin. exact Hin. }
    split; [reflexivity|].
    assert (Hsess3 : session w3 = rows).
    { rewrite Hrows, S5, Hsess. reflexivity. }
    cbn [commit system_alerts entry_logs]. rewrite Hsess3, T3, T4, S3, S4, Hal.
    split; [reflexivity|].
    exists (entries_of rows). split; [reflexivity|].
    split; [exact Hne | exact Hwr].
Qed.


End AnalysisProperties.

(** ** More on matching *)

Lemma select_below (sims rest : list (Student * Q)) :
  Forall (fun x => (snd x <= 3 # 4)%Q) sims ->
  forall m b, select (sims ++ rest) m b = select rest m b.
Proof.
  induction 1 as [|[s q] sims Hq _ IH]; intros m b; [reflexivity|].
  cbn [app select]. cbn in Hq.
  assert (E : Qgtb q (3 # 4) = false) by (apply Qgtb_false; exact Hq).
  rewrite E, andb_false_r. apply IH.
Qed.

Section MatchingProperties.
Context `{Platform}.

(** X11.  When exactly one of the similarities returned for a face is
    above 3/4, the face is recorded as that student with that similarity
    as confidence, wherever the student stands in the roster. *)
Theorem single_candidate_is_matched
  (now : Q) (face : Face) (w w1 : World)
  (before after : list (Student * Q)) (s : Student) (q : Q) :
  face_similarities face w = (w1, Return (before ++ (s, q) :: after)) ->
  (3 # 4 < q)%Q ->
  Forall (fun x => (snd x <= 3 # 4)%Q) before ->
  Forall (fun x => (snd x <= 3 # 4)%Q) after ->
  analyze_face now face w
  = (after_match now s q w1, Return [recognized_record s q]).
Proof.
  intros Hsims Hq Hbefore Hafter.
  apply find_match_select in Hsims.
  unfold analyze_face, bind. rewrite Hsims.
  rewrite select_below by exact Hbefore. cbn [select].
  assert (E1 : Qgtb q 0 = true) by (apply Qgtb_true; lra).
  assert (E2 : Qgtb q (3 # 4) = true) by (apply Qgtb_true; exact Hq).
  rewrite E1, E2. cbn [andb].
  rewrite <- (app_nil_r after), select_below by exact Hafter.
  cbn [select fst snd]. apply record_outcome_match.
Qed.

Lemma compare_run (f1 f2 : pyval) (w : World) :
  exists w' v,
    compare_faces f1 f2 w = (w', Return v) /\ one_request Compare w w'.
Proof.
  pose proof (compare_one f1 f2 w) as Hone. revert Hone.
  unfold compare_faces.
  destruct (negb (truthy f1) || negb (truthy f2));
    [intro; eexists _, _; split; [reflexivity|exact Hone]|].
  unfold bind, requests_post.
  destruct (network w); cbn; intro Hone; eexists _, _;
    (split; [reflexivity | exact Hone]).
Qed.

Lemma compared_students_app (xs ys : list Event) :
  compared_students (xs ++ ys) = compared_students xs ++ compared_students ys.
Proof. unfold compared_students. apply flat_map_app. Qed.

(** X12.  The matching loop has no early exit: when it ends without
    exception it has called the comparison once for every candidate that
    has a stored descriptor, in roster order, also after a match was
    found, and for no other student. *)
Theorem every_descriptor_is_compared (f : pyval) (cs : list Student) :
  forall m0 b0 w w' r,
    match_students f cs m0 b0 w = (w', Return r) ->
    exists added,
      events w' = events w ++ added
      /\ compared_students added = filter has_descriptor cs.
Proof.
  induction cs as [|s rest IH]; intros m0 b0 w w' r.
  - cbn. intro E. injection E as <- _. exists [].
    rewrite app_nil_r. split; reflexivity.
  - cbn [match_students filter]. unfold has_descriptor at 1.
    destruct (stored_encoding s) as [text|]; [|apply IH].
    destruct (json_loads text) as [stored|]; [|discriminate].
    unfold bind at 1. rewrite log_event_run. unfold bind at 1.
    destruct (compare_run f stored (set_events (events w ++ [EvCompare s]) w))
      as (w1 & v & -> & _ & Hev).
    assert (Hw1 : exists posts,
              events w1 = events w ++ EvCompare s :: posts
              /\ compared_students posts = []).
    { destruct Hev as [[He _] | [He _]]; cbn in He.
      - exists []. rewrite He. split; reflexivity.
      - exists [EvPost Compare]. rewrite He, <- app_assoc.
        split; reflexivity. }
    destruct Hw1 as (posts & Hw1 & Hposts).
    destruct (as_number v) as [q|]; [|discriminate].
    assert (Hgo : forall m b,
              match_students f rest m b w1 = (w', Return r) ->
              exists added,
                events w' = events w ++ added
                /\ compared_students added = s :: filter has_descriptor rest).
    { intros m b Hrun. destruct (IH _ _ _ _ _ Hrun) as (added & He & Hc).
      exists (EvCompare s :: posts ++ added). split.
      - rewrite He, Hw1, <- app_assoc. reflexivity.
      - change (EvCompare s :: posts ++ added)
          with ([EvCompare s] ++ posts ++ added).
        rewrite !compared_students_app, Hposts, Hc. reflexivity. }
    destruct (Qgtb q b0 && Qgtb q (3 # 4)); apply Hgo.
Qed.

End MatchingProperties.

(** ** The alarm history and the alarm threads *)

Lemma slice_from_end_positive {A : Type} (limit : Z) (xs : list A) :
  1 <= limit -> slice_from_end limit xs = last_n (Z.to_nat limit) xs.
Proof.
  intro Hl. unfold slice_from_end, last_n.
  destruct (- limit <? 0) eqn:E; [|apply Z.ltb_ge in E; lia].
  f_equal. lia.
Qed.

Lemma slice_from_end_zero {A : Type} (xs : list A) : slice_from_end 0 xs = xs.
Proof.
  unfold slice_from_end. cbn [Z.opp Z.ltb Z.compare].
  rewrite Z.min_l by lia. reflexivity.
Qed.

Lemma slice_from_end_negative {A : Type} (limit : Z) (xs : list A) :
  limit < 0 -> slice_from_end limit xs = skipn (Z.to_nat (- limit)) xs.
Proof.
  intro Hl. unfold slice_from_end.
  destruct (- limit <? 0) eqn:E; [apply Z.ltb_lt in E; lia|].
  destruct (Z.min_spec (- limit) (Z.of_nat (List.length xs))) as [[_ ->] | [Hge ->]];
    [reflexivity|].
  rewrite Nat2Z.id. rewrite skipn_all.
  symmetry. apply skipn_all2. lia.
Qed.

Section HistoryFacts.
Context `{Platform}.

(** X13.  [get_alarm_history] on a stored list returns [logs[-limit:]]:
    for a limit of at least 1 the last [limit] entries in their order (all
    of them when there are fewer), for a negative limit the entries after
    the first [-limit] ones, and for limit 0 the whole list, not an empty
    one.  A missing or unreadable file, and a stored dict, number or
    boolean, give the empty list. *)
Theorem alarm_history_slice (logs : list pyval) (limit : Z) :
  get_alarm_history (FileJSON (PList logs)) limit
  = PList (slice_from_end limit logs)
  /\ (1 <= limit ->
      slice_from_end limit logs = last_n (Z.to_nat limit) logs
      /\ Z.of_nat (List.length (slice_from_end limit logs)) <= limit)
  /\ slice_from_end 0 logs = logs
  /\ (limit < 0 ->
      slice_from_end limit logs = skipn (Z.to_nat (- limit)) logs)
  /\ get_alarm_history FileMissing limit = PList []
  /\ get_alarm_history FileUnreadable limit = PList []
  /\ (forall d, get_alarm_history (FileJSON (PDict d)) limit = PList [])
  /\ (forall q, get_alarm_history (FileJSON (PNum q)) limit = PList [])
  /\ (forall b, get_alarm_history (FileJSON (PBool b)) limit = PList []).
Proof.
  split; [|split; [|split; [|split]]].
  - destruct logs as [|x logs]; [|reflexivity].
    cbn. unfold slice_from_end. rewrite skipn_nil. reflexivity.
  - intro Hl. rewrite slice_from_end_positive by exact Hl.
    split; [reflexivity|]. pose proof (last_n_length (Z.to_nat limit) logs). lia.
  - apply slice_from_end_zero.
  - apply slice_from_end_negative.
  - repeat split; try reflexivity.
    + intro d. cbn. destruct d; reflexivity.
    + intro q. cbn. destruct (negb (Qeq_bool q 0)); reflexivity.
    + intro b. cbn. destruct b; reflexivity.
Qed.

Lemma last_n_suffix {A : Type} (n : nat) (xs : list A) :
  exists dropped, xs = dropped ++ last_n n xs.
Proof. eexists. apply last_n_split. Qed.

(** X14.  What [_log_alarm] writes, [get_alarm_history] reads back: after
    logging to a file that was absent, unreadable or held a list, the
    history for a limit of at least 1 ends with the entry just logged,
    preceded by fewer than [limit] of the most recent older entries in
    their order; for limit 1 it is that entry alone.  So a trigger of an
    idle alarm is the last entry of the history. *)
Theorem logged_entry_is_read_back
  (now : Q) (f : LogFile) (alert_type message severity : string)
  (logs : list pyval) (limit : Z) :
  stored_logs f = Some logs ->
  1 <= limit ->
  let entry := log_entry now alert_type message severity in
  let f' := _log_alarm now f alert_type message severity in
  (exists dropped older,
     get_alarm_history f' limit = PList (older ++ [entry])
     /\ logs = dropped ++ older
     /\ Z.of_nat (List.length older) < limit)
  /\ get_alarm_history f' 1 = PList [entry]
  /\ (forall a,
        is_active a = false -> alarm_log a = f ->
        alarm_log (trigger_alarm now a alert_type message severity) = f').
Proof.
  intros Hs Hl. cbv zeta.
  rewrite (stored_logs_written _ _ _ _ _ _ Hs).
  assert (Hget : forall k, 1 <= k ->
            get_alarm_history
              (FileJSON (PList (last_n 999 logs
                                ++ [log_entry now alert_type message severity])))
              k
            = PList (last_n (Z.to_nat k - 1) (last_n 999 logs)
                     ++ [log_entry now alert_type message severity])).
  { intros k Hk. unfold get_alarm_history.
    assert (Ht : truthy (PList (last_n 999 logs
                   ++ [log_entry now alert_type message severity])) = true).
    { cbn. destruct (last_n 999 logs); reflexivity. }
    rewrite Ht, slice_from_end_positive by exact Hk.
    replace (Z.to_nat k) with (S (Z.to_nat k - 1)) at 1 by lia.
    rewrite last_n_snoc. reflexivity. }
  split; [|split].
  - destruct (last_n_suffix 999 logs) as (d1 & Hd1).
    destruct (last_n_suffix (Z.to_nat limit - 1) (last_n 999 logs))
      as (d2 & Hd2).
    exists (d1 ++ d2), (last_n (Z.to_nat limit - 1) (last_n 999 logs)).
    split; [apply Hget, Hl|]. split.
    + rewrite <- app_assoc, <- Hd2. exact Hd1.
    + pose proof (last_n_length (Z.to_nat limit - 1) (last_n 999 logs)). lia.
  - rewrite Hget by lia. cbn [Z.to_nat Pos.to_nat Pos.iter_op Nat.sub].
    unfold last_n at 1. rewrite Nat.sub_0_r, skipn_all. reflexivity.
  - intros a Hidle <-. unfold trigger_alarm. rewrite Hidle. cbn.
    apply stored_logs_written, Hs.
Qed.

End HistoryFacts.

(** The loop leaves at the first reading that does not pass. *)
Lemma alarm_loop_exits_at (d : Z) (start : Q) (before : list LoopCheck) :
  forall c after,
    Forall (passes d start) before ->
    ~ passes d start c ->
    _alarm_loop d start (before ++ c :: after) = Exited (time_now c).
Proof.
  induction before as [|b before IH]; intros c after Hb Hc; cbn [app _alarm_loop].
  - destruct (seen_active c && Qgtb (inject_Z d) (time_now c - start)) eqn:E;
      [|reflexivity].
    apply passes_dec in E. contradiction.
  - inversion Hb as [|? ? Hpb Hrest]; subst. apply passes_dec in Hpb.
    rewrite Hpb. apply IH; assumption.
Qed.

(** X15.  [_alarm_loop] leaves its loop at the first evaluation of its
    condition that sees the flag cleared or the duration elapsed, and at
    no other: every earlier reading saw the flag set with time left.  On
    leaving it clears the flag, so a [stop_alarm] ends the thread at its
    next reading. *)
Theorem alarm_loop_leaves_at_first_failing_reading
  (t : AlarmThread) (checks : list LoopCheck) (a : AlarmSystem) (T : Q) :
  let d := _get_alarm_duration (th_severity t) in
  (snd (run_alarm_thread t checks a) = Exited T
   <-> exists before c after,
         checks = before ++ c :: after
         /\ time_now c = T
         /\ Forall (passes d (th_start_time t)) before
         /\ (seen_active c = false
             \/ (inject_Z d <= time_now c - th_start_time t)%Q))
  /\ (snd (run_alarm_thread t checks a) = Exited T ->
      is_active (fst (run_alarm_thread t checks a)) = false).
Proof.
  cbv zeta. unfold run_alarm_thread.
  assert (Hnot : forall c,
            ~ passes (_get_alarm_duration (th_severity t)) (th_start_time t) c
            <-> (seen_active c = false
                 \/ (inject_Z (_get_alarm_duration (th_severity t))
                     <= time_now c - th_start_time t)%Q)).
  { intro c. unfold passes. split.
    - intro Hn. destruct (seen_active c); [|left; reflexivity].
      right. apply Qnot_lt_le. intro Hlt. apply Hn. split; [reflexivity|exact Hlt].
    - intros [Hf | Hle] [Ha Hlt]; [congruence|].
      apply (Qlt_not_le _ _ Hlt Hle). }
  split.
  - split.
    + destruct (_alarm_loop _ _ checks) as [|T'] eqn:E; [discriminate|].
      cbn [snd]. intro ET. injection ET as ->.
      destruct (alarm_loop_exited _ _ _ _ E)
        as (before & c & after & Hc & Ht & Hb & Hn).
      exists before, c, after. repeat split; try assumption.
      apply Hnot, Hn.
    + intros (before & c & after & -> & <- & Hb & Hn).
      rewrite alarm_loop_exits_at; [reflexivity | exact Hb | apply Hnot, Hn].
  - destruct (_alarm_loop _ _ checks) as [|T'];
      [discriminate | reflexivity].
Qed.

Section ThreadFacts.
Context `{Platform}.

(** X16.  [stop_alarm] clears the flag but does not end the notification
    thread.  When the alarm is triggered again before the old thread next
    evaluates its condition, both threads run: the old one sees the flag
    set again and goes on while its own duration lasts, and when that has
    elapsed it clears the flag, which deactivates the new alarm whatever
    its own start time and duration. *)
Theorem stop_then_trigger_keeps_old_thread
  (r : AlarmRun) (t : AlarmThread) (c : TriggerCall) (now : Q) :
  live r = [t] ->
  let d := inject_Z (_get_alarm_duration (th_severity t)) in
  let r2 := alarm_run [Stopped; Triggered c] r in
  let r3 := alarm_run [Stopped; Triggered c; LoopRead 0 now] r in
  (live r2 = [t; thread_of c]
   /\ is_active (alarm r2) = true
   /\ alarm_thread (alarm r2) = Some (thread_of c))
  /\ ((now - th_start_time t < d)%Q -> r3 = r2)
  /\ ((d <= now - th_start_time t)%Q ->
      live r3 = [thread_of c] /\ is_active (alarm r3) = false).
Proof.
  intro Hlive. cbv zeta.
  assert (E2 : alarm_run [Stopped; Triggered c] r
               = {| alarm := trigger_call (stop_alarm (alarm r)) c;
                    live := [t; thread_of c] |}).
  { unfold alarm_run.
    cbn [fold_left alarm_step alarm live stop_alarm is_active].
    rewrite Hlive. reflexivity. }
  assert (E3 : alarm_run [Stopped; Triggered c; LoopRead 0 now] r
               = loop_read (alarm_run [Stopped; Triggered c] r) 0 now)
    by reflexivity.
  rewrite E3, E2. split.
  - cbn [live alarm]. split; [reflexivity|].
    split; [apply trigger_call_activates | reflexivity].
  - unfold loop_read. cbn [live nth_error alarm].
    rewrite trigger_call_activates. cbn [andb]. split.
    + intro Hlt. apply Qgtb_true in Hlt. rewrite Hlt. reflexivity.
    + intro Hle. apply Qgtb_false in Hle. rewrite Hle. cbn. split; reflexivity.
Qed.

End ThreadFacts.

(** ** More on the capture loop *)

Section CaptureProperties.
Context `{Platform}.

(** X17.  While the capture loop runs, the cell holds the newest frame:
    after a run that has not ended, either no iteration published and the
    cell is the initial one, or the cell is the frame and encoding of an
    iteration after which no later iteration published. *)
Theorem cell_holds_newest_frame (iters : list CaptureIter) :
  forall n cell n' cell',
    capture_from n cell iters = (n', cell', Capturing) ->
    (cell' = cell /\ Forall (fun it => publishes it = false) iters)
    \/ (exists before it after f b64,
          iters = before ++ it :: after
          /\ successful_read it f
          /\ imencode70_b64 f = Some b64
          /\ cell' = published f b64
          /\ Forall (fun later => publishes later = false) after).
Proof.
  induction iters as [|it rest IH]; intros n cell n' cell'.
  - cbn. intro E. injection E as _ <-. left. split; [reflexivity|constructor].
  - cbn [capture_from].
    destruct (loop_condition it) eqn:Hc; cbn [negb]; [|discriminate].
    assert (Hshift : forall n0 cell0,
              publishes it = false ->
              capture_from n0 cell0 rest = (n', cell', Capturing) ->
              (cell' = cell0 /\ Forall (fun x => publishes x = false) (it :: rest))
              \/ (exists before it0 after f b64,
                    it :: rest = before ++ it0 :: after
                    /\ successful_read it0 f
                    /\ imencode70_b64 f = Some b64
                    /\ cell' = published f b64
                    /\ Forall (fun later => publishes later = false) after)).
    { intros n0 cell0 Hnp Hrun.
      destruct (IH _ _ _ _ Hrun)
        as [[-> Hall] | (before & it0 & after & f & b64 & -> & Hs & He & -> & Hafter)].
      - left. split; [reflexivity|]. constructor; assumption.
      - right. exists (it :: before), it0, after, f, b64.
        repeat split; try assumption; apply Hs. }
    unfold publishes in Hshift.
    destruct (camera_read it) as [|ret frame] eqn:Hr.
    + apply Hshift. reflexivity.
    + destruct (good_read ret frame) as [f|] eqn:Hg.
      * destruct (imencode70_b64 f) as [b64|] eqn:He.
        -- intro Hrun. right.
           assert (Hs : successful_read it f).
           { split; [exact Hc|]. exists ret, frame. split; [exact Hr|exact Hg]. }
           destruct (IH _ _ _ _ Hrun)
             as [[-> Hall] | (before & it0 & after & f0 & b0 & -> & Hs0 & He0 & -> & Hafter)].
           ++ exists [], it, rest, f, b64. repeat split; try assumption; apply Hs.
           ++ exists (it :: before), it0, after, f0, b0.
              repeat split; try assumption; apply Hs0.
        -- apply Hshift. reflexivity.
      * destruct (30 <? S n)%nat; [discriminate|].
        apply Hshift. reflexivity.
Qed.

(** A run that ends although the loop condition held throughout. *)
Lemma capture_break_needs_failures (iters : list CaptureIter) :
  forall n cell n' cell',
    (n <= 30)%nat ->
    Forall (fun it => loop_condition it = true) iters ->
    capture_from n cell iters = (n', cell', CaptureExited) ->
    n' = 31%nat
    /\ ((exists streak after,
           iters = streak ++ after
           /\ Forall (fun it => is_good_read it = false) streak
           /\ (n + List.length (filter is_failed_read streak) = 31)%nat)
        \/ (exists before streak after,
              iters = before ++ streak ++ after
              /\ Forall (fun it => is_good_read it = false) streak
              /\ List.length (filter is_failed_read streak) = 31%nat)).
Proof.
  induction iters as [|it rest IH]; intros n cell n' cell' Hn Hcond.
  - cbn. discriminate.
  - inversion Hcond as [|? ? Hc Hrest]; subst.
    cbn [capture_from]. rewrite Hc. cbn [negb].
    destruct (camera_read it) as [|ret frame] eqn:Hr.
    + intro Hrun. destruct (IH _ _ _ _ Hn Hrest Hrun) as [-> Hcases].
      split; [reflexivity|].
      assert (Hg : is_good_read it = false) by (unfold is_good_read; rewrite Hr; reflexivity).
      assert (Hf : is_failed_read it = false) by (unfold is_failed_read; rewrite Hr; reflexivity).
      destruct Hcases as [(streak & after & -> & Hs & Hcount)
                         | (before & streak & after & -> & Hs & Hcount)].
      * left. exists (it :: streak), after.
        split; [reflexivity|]. split; [constructor; assumption|].
        cbn [filter]. rewrite Hf. exact Hcount.
      * right. exists (it :: before), streak, after. repeat split; assumption.
    + destruct (good_read ret frame) as [f|] eqn:Hg.
      * assert (Hgo : forall cell0,
                  capture_from 0 cell0 rest = (n', cell', CaptureExited) ->
                  n' = 31%nat
                  /\ ((exists streak after,
                         it :: rest = streak ++ after
                         /\ Forall (fun it => is_good_read it = false) streak
                         /\ (n + List.length (filter is_failed_read streak) = 31)%nat)
                      \/ (exists before streak after,
                            it :: rest = before ++ streak ++ after
                            /\ Forall (fun it => is_good_read it = false) streak
                            /\ List.length (filter is_failed_read streak) = 31%nat))).
        { intros cell0 Hrun.
          destruct (IH _ _ _ _ (Nat.le_0_l 30) Hrest Hrun) as [-> Hcases].
          split; [reflexivity|]. right.
          destruct Hcases as [(streak & after & -> & Hs & Hcount)
                             | (before & streak & after & -> & Hs & Hcount)].
          - exists [it], streak, after. repeat split; assumption.
          - exists (it :: before), streak, after. repeat split; assumption. }
        destruct (imencode70_b64 f); apply Hgo.
      * assert (Hgood : is_good_read it = false)
          by (unfold is_good_read; rewrite Hr, Hg; reflexivity).
        assert (Hfail : is_failed_read it = true)
          by (unfold is_failed_read; rewrite Hr, Hg; reflexivity).
        destruct (30 <? S n)%nat eqn:Hlt.
        -- apply Nat.ltb_lt in Hlt. intro E. injection E as <- _.
           split; [lia|]. left. exists [it], rest.
           split; [reflexivity|]. split; [constructor; [exact Hgood|constructor]|].
           cbn [filter]. rewrite Hfail. cbn. lia.
        -- apply Nat.ltb_ge in Hlt. intro Hrun.
           destruct (IH _ _ _ _ Hlt Hrest Hrun) as [-> Hcases].
           split; [reflexivity|].
           destruct Hcases as [(streak & after & -> & Hs & Hcount)
                              | (before & streak & after & -> & Hs & Hcount)].
           ++ left. exists (it :: streak), after.
              split; [reflexivity|]. split; [constructor; assumption|].
              cbn [filter]. rewrite Hfail. cbn [List.length]. lia.
           ++ right. exists (it :: before), streak, after.
              repeat split; assumption.
Qed.

(** X18.  The capture loop does not give up early: when it ends although
    its loop condition held at every iteration, the counter is 31 and the
    iterations contain a stretch without any successful read in which 31
    reads failed.  Iterations that raise lie in such a stretch without
    being counted and without resetting the counter. *)
Theorem capture_ends_only_after_31_failures
  (cell : FrameCell) (iters : list CaptureIter) (n' : nat) (cell' : FrameCell) :
  Forall (fun it => loop_condition it = true) iters ->
  _capture_loop cell iters = (n', cell', CaptureExited) ->
  n' = 31%nat
  /\ exists before streak after,
       iters = before ++ streak ++ after
       /\ Forall (fun it => is_good_read it = false) streak
       /\ List.length (filter is_failed_read streak) = 31%nat.
Proof.
  intros Hcond Hrun. unfold _capture_loop in Hrun.
  destruct (capture_break_needs_failures _ _ _ _ _ (Nat.le_0_l 30) Hcond Hrun)
    as [-> Hcases].
  split; [reflexivity|].
  destruct Hcases as [(streak & after & -> & Hs & Hcount)
                     | (before & streak & after & -> & Hs & Hcount)].
  - exists [], streak, after. repeat split; assumption.
  - exists before, streak, after. repeat split; assumption.
Qed.

(** X19.  Once the cell holds an encoded frame, [get_camera_frame] keeps
    answering with a frame: through failed reads and after the loop has
    ended it serves the last published encoding, given that encodings are
    never empty.  Before anything was published it answers that no frame
    is available. *)
Theorem frame_stays_available
  (cell : FrameCell) (iters : list CaptureIter) (now : Q) :
  (forall f b, imencode70_b64 f = Some b -> b <> "") ->
  (exists b, latest_frame_b64 cell = Some b /\ b <> "") ->
  let cell' := snd (fst (_capture_loop cell iters)) in
  (exists b,
     latest_frame_b64 cell' = Some b
     /\ get_camera_frame now cell'
        = PDict [ ("status", PStr "success");
                  ("frame", PStr b);
                  ("timestamp", PStr (isoformat now)) ])
  /\ get_camera_frame now {| latest_frame := None; latest_frame_b64 := None |}
     = status_message "error" "No frame available yet".
Proof.
  intros Henc (b0 & Hb0 & Hne0). cbv zeta. split; [|reflexivity].
  unfold _capture_loop.
  pose proof (capture_from_cell iters 0%nat cell (Nat.le_0_l 30)) as Hc.
  destruct (capture_from 0 cell iters) as [[n' cell'] status].
  cbn [fst snd]. destruct Hc as (_ & _ & Hfrom).
  assert (Hserve : forall c b,
            latest_frame_b64 c = Some b -> b <> "" ->
            get_camera_frame now c
            = PDict [ ("status", PStr "success");
                      ("frame", PStr b);
                      ("timestamp", PStr (isoformat now)) ]).
  { intros c b Hl Hne. unfold get_camera_frame. rewrite Hl.
    apply String.eqb_neq in Hne. rewrite Hne. reflexivity. }
  destruct Hfrom as [-> | (it & f & b64 & _ & _ & He & ->)].
  - exists b0. split; [exact Hb0 | apply Hserve; assumption].
  - exists b64. split; [reflexivity|]. apply Hserve; [reflexivity|].
    eapply Henc, He.
Qed.

End CaptureProperties.

(** ** Monitoring control and student removal *)

Lemma set_monitoring_same (w : World) :
  set_monitoring (monitoring_active w) w = w.
Proof. destruct w. reflexivity. Qed.

Lemma control_sets_flag (w : World) (r : ControlRequest) :
  control w r
  = set_monitoring
      (match r with StartMonitoring => true | StopMonitoring => false end) w.
Proof.
  destruct r; cbn; [|reflexivity].
  unfold start_monitoring.
  destruct (monitoring_active w) eqn:E; cbn; [|reflexivity].
  rewrite <- E. symmetry. apply set_monitoring_same.
Qed.

Lemma control_all_sets_flag (requests : list ControlRequest) :
  forall w, exists b, fold_left control requests w = set_monitoring b w.
Proof.
  induction requests as [|r rest IH]; intro w.
  - exists (monitoring_active w). symmetry. apply set_monitoring_same.
  - cbn [fold_left]. rewrite control_sets_flag.
    destruct (IH (set_monitoring
                    (match r with StartMonitoring => true | StopMonitoring => false end)
                    w)) as (b & ->).
    exists b. reflexivity.
Qed.

Section ControlProperties.
Context `{Platform}.

(** X20.  Start and stop requests change nothing but the monitoring flag,
    and only the last one counts: after any series of them the state is
    the initial one with the flag set by the last request.  A start
    request while monitoring is active is answered with "info" and leaves
    the state as it is.  After a stop, frames are skipped; after a start,
    they are not. *)
Theorem monitoring_follows_last_request
  (requests : list ControlRequest) (last : ControlRequest) (w : World) :
  let w' := fold_left control (requests ++ [last]) w in
  w' = set_monitoring
         (match last with StartMonitoring => true | StopMonitoring => false end)
         w
  /\ start_monitoring (fst (start_monitoring w))
     = (fst (start_monitoring w),
        status_message "info" "Monitoring already active")
  /\ (forall data,
        last = StopMonitoring ->
        analyze_frame data w'
        = (w', status_message "skipped" "Monitoring not active"))
  /\ (forall data,
        last = StartMonitoring ->
        snd (analyze_frame data w')
        <> status_message "skipped" "Monitoring not active").
Proof.
  cbv zeta. rewrite fold_left_app. cbn [fold_left].
  destruct (control_all_sets_flag requests w) as (b & ->).
  rewrite control_sets_flag.
  assert (E : set_monitoring
                (match last with StartMonitoring => true | StopMonitoring => false end)
                (set_monitoring b w)
              = set_monitoring
                  (match last with StartMonitoring => true | StopMonitoring => false end)
                  w) by reflexivity.
  rewrite E. split; [reflexivity|]. split; [|split].
  - unfold start_monitoring. destruct (monitoring_active w) eqn:Hm; cbn.
    + rewrite Hm. reflexivity.
    + reflexivity.
  - intros data ->. reflexivity.
  - intros data ->. unfold analyze_frame. cbn [set_monitoring monitoring_active negb].
    destruct (analyze_frame_body data (set_monitoring true w)) as [wb [resp|message]]
      eqn:Hbody; cbn [snd].
    + destruct (analyze_frame_body_cases _ _ _ _ Hbody)
        as [(m & E1 & _) | [(m & E1 & _) | (d & fr & w2 & w3 & fs & rs & _ & _ & _ & _ & _ & E1)]].
      * injection E1 as ->. discriminate.
      * discriminate E1.
      * injection E1 as ->. discriminate.
    + discriminate.
Qed.

End ControlProperties.

Lemma deactivate_ids (pk : Z) (rows : list Student) :
  forall rows',
    deactivate pk rows = Some rows' ->
    map s_id rows' = map s_id rows
    /\ (forall s, In s rows' -> s_id s <> pk -> In s rows)
    /\ (forall s, In s rows -> s_id s <> pk -> In s rows')
    /\ (NoDup (map s_id rows) ->
        forall s, In s rows' -> s_id s = pk -> s_is_active s = false).
Proof.
  induction rows as [|r rest IH]; intros rows'; cbn [deactivate].
  - discriminate.
  - destruct (s_id r =? pk) eqn:E.
    + apply Z.eqb_eq in E. intro Hs. injection Hs as <-.
      split; [reflexivity|]. split; [|split].
      * intros s [<- | Hin] Hne; [cbn in Hne; congruence | right; exact Hin].
      * intros s [<- | Hin] Hne; [congruence | right; exact Hin].
      * intros Hnd s [<- | Hin] Hpk; [reflexivity|].
        exfalso. cbn in Hnd. inversion Hnd as [|? ? Hnot _]; subst.
        apply Hnot. rewrite <- Hpk. apply in_map, Hin.
    + apply Z.eqb_neq in E.
      destruct (deactivate pk rest) as [rest'|]; [|discriminate].
      cbn [option_map]. intro Hs. injection Hs as <-.
      destruct (IH rest' eq_refl) as (Hids & Hold & Hnew & Hoff).
      split; [cbn; rewrite Hids; reflexivity|]. split; [|split].
      * intros s [<- | Hin] Hne; [left; reflexivity | right; auto].
      * intros s [<- | Hin] Hne; [left; reflexivity | right; auto].
      * intros Hnd s [<- | Hin] Hpk; [congruence|].
        cbn in Hnd. inversion Hnd; subst. auto.
Qed.

Lemma deactivate_absent (pk : Z) (rows : list Student) :
  deactivate pk rows = None <-> Forall (fun s => s_id s <> pk) rows.
Proof.
  induction rows as [|r rest IH]; cbn [deactivate].
  - split; [constructor | reflexivity].
  - destruct (s_id r =? pk) eqn:E.
    + apply Z.eqb_eq in E. split; [discriminate|].
      intro Hf. inversion Hf as [|? ? Hne _]; subst. congruence.
    + apply Z.eqb_neq in E.
      destruct (deactivate pk rest) as [rest'|]; cbn [option_map].
      * split; [discriminate|]. intro Hf.
        inversion Hf as [|? ? _ Hrest]; subst.
        apply IH in Hrest. discriminate Hrest.
      * split; [|reflexivity]. intros _. constructor; [exact E|].
        apply IH. reflexivity.
Qed.

Section RemovalProperties.
Context `{Platform}.

(** X22.  [delete_student] is a soft delete.  With primary keys distinct,
    afterwards no active student has the deleted key, every other student
    is there as before, and the rows keep their keys and number; so no
    later search returns the deleted student as a match.  Deleting a key
    that no row has leaves the roster as it is. *)
Theorem deleted_student_is_never_matched (pk : Z) (w : World) :
  NoDup (map s_id (students w)) ->
  let w' := delete_student pk w in
  map s_id (students w') = map s_id (students w)
  /\ (forall s, In s (active_students w') -> s_id s <> pk)
  /\ (forall s, s_id s <> pk ->
        (In s (active_students w') <-> In s (active_students w)))
  /\ (forall face wa wb s b,
        students wa = students w' ->
        find_match face wa = (wb, Return (Some s, b)) ->
        s_id s <> pk)
  /\ (Forall (fun s => s_id s <> pk) (students w) ->
      students w' = students w).
Proof.
  intro Hnd. cbv zeta. unfold delete_student.
  destruct (deactivate pk (students w)) as [rows|] eqn:Hd.
  - destruct (deactivate_ids _ _ _ Hd) as (Hids & Hold & Hnew & Hoff).
    specialize (Hoff Hnd).
    assert (Hactive : forall s, In s (filter s_is_active rows) -> s_id s <> pk).
    { intros s Hin Hpk. apply filter_In in Hin. destruct Hin as [Hin Hact].
      rewrite (Hoff s Hin Hpk) in Hact. discriminate. }
    cbn [commit set_students students]. unfold active_students.
    cbn [commit set_students students].
    split; [exact Hids|]. split; [exact Hactive|]. split; [|split].
    + intros s Hne. rewrite !filter_In. split.
      * intros [Hin Hact]. split; [apply Hold; assumption | exact Hact].
      * intros [Hin Hact]. split; [apply Hnew; assumption | exact Hact].
    + intros face wa wb s b Hst Hfind.
      destruct (find_match_result _ _ _ _ _ Hfind)
        as [[Hn _] | (s' & Hs & _ & Hin & _)]; [discriminate|].
      injection Hs as <-. apply Hactive.
      unfold active_students in Hin. rewrite Hst in Hin. exact Hin.
    + intro Hall. apply deactivate_absent in Hall. congruence.
  - apply deactivate_absent in Hd. rewrite Forall_forall in Hd.
    cbn [rollback set_session students]. unfold active_students.
    cbn [rollback set_session students].
    split; [reflexivity|]. split; [|split; [|split]].
    + intros s Hin. apply filter_In in Hin. apply Hd, Hin.
    + intros s _. reflexivity.
    + intros face wa wb s b Hst Hfind.
      destruct (find_match_result _ _ _ _ _ Hfind)
        as [[Hn _] | (s' & Hs & _ & Hin & _)]; [discriminate|].
      injection Hs as <-. unfold active_students in Hin.
      rewrite Hst in Hin. apply filter_In in Hin. apply Hd, Hin.
    + intros _. reflexivity.
Qed.

End RemovalProperties.

(** ** The properties on sample data *)

Lemma detected_faces_are_crops_witness :
  process_frame_for_faces sample_frame no_match_world
  = (detection_done_world, Return [tie_face])
  /\ Forall (cut_from sample_frame) [tie_face].
Proof.
  assert (Hrun : process_frame_for_faces sample_frame no_match_world
                 = (detection_done_world, Return [tie_face])).
  { vm_compute. reflexivity. }
  split; [exact Hrun|].
  pose proof (detected_faces_are_crops sample_frame no_match_world
                detection_done_world [tie_face] Hrun) as Hthm.
  exact (proj1 (proj2 Hthm)).
Defined.

Lemma no_faces_no_outcome_witness :
  monitoring_active no_faces_world = true
  /\ session no_faces_world = []
  /\ snd (analyze_frame sample_request no_faces_world) = success_response 0 []
  /\ entry_logs (fst (analyze_frame sample_request no_faces_world)) = [].
Proof.
  assert (Hdec : imdecode_b64 (dict_get "frame" [("frame", PStr sample_jpeg)] PNone)
                 = Some (Some sample_frame)).
  { vm_compute. reflexivity. }
  assert (Hsize : image_size sample_frame <> 0%N).
  { vm_compute. intro E. discriminate E. }
  assert (Hdet : snd (detect_faces_in_image sample_frame
                        (set_events (events no_faces_world ++ [EvDecode])
                           no_faces_world))
                 = Return (PList [])).
  { vm_compute. reflexivity. }
  pose proof (no_faces_no_outcome [("frame", PStr sample_jpeg)] sample_frame
                no_faces_world eq_refl eq_refl eq_refl Hdec Hsize Hdet)
    as Hthm.
  destruct Hthm as (Hresp & Hlogs & _).
  split; [reflexivity|]. split; [reflexivity|].
  split; [exact Hresp | exact Hlogs].
Defined.

Lemma unusable_request_rejected_witness :
  analyze_frame (PDict [("image", PStr sample_jpeg)]) no_match_world
  = (no_match_world, status_message "error" "No frame data received")
  /\ analyze_frame (PDict [("frame", PStr "AAAA")]) no_match_world
     = (set_events (events no_match_world ++ [EvDecode]) no_match_world,
        status_message "error" "Could not decode frame")
  /\ exists message,
       analyze_frame (PDict [("frame", PNum 5)]) no_match_world
       = (rollback (set_events (events no_match_world ++ [EvDecode])
                      no_match_world),
          status_message "error" message).
Proof.
  split; [|split].
  - pose proof (unusable_request_rejected
                  (PDict [("image", PStr sample_jpeg)]) no_match_world
                  eq_refl) as Hthm.
    destruct Hthm as [Hmissing _].
    apply Hmissing. right. reflexivity.
  - pose proof (unusable_request_rejected
                  (PDict [("frame", PStr "AAAA")]) no_match_world
                  eq_refl) as Hthm.
    destruct Hthm as (_ & Hdecode & _).
    apply (Hdecode [("frame", PStr "AAAA")] eq_refl eq_refl).
    left. vm_compute. reflexivity.
  - pose proof (unusable_request_rejected
                  (PDict [("frame", PNum 5)]) no_match_world
                  eq_refl) as Hthm.
    destruct Hthm as (_ & _ & Hraise).
    apply (Hraise [("frame", PNum 5)] eq_refl eq_refl).
    vm_compute. reflexivity.
Defined.

Lemma successful_analysis_rows_witness :
  analyze_frame sample_request no_match_world
  = (no_match_world_after, success_response 1 [unknown_record])
  /\ session no_match_world = []
  /\ system_alerts no_match_world_after = [unknown_alert 0]
  /\ exists entries,
       entry_logs no_match_world_after = entries
       /\ List.length entries = 1%nat
       /\ Forall (entry_written 0) entries.
Proof.
  assert (Hrun : analyze_frame sample_request no_match_world
                 = (no_match_world_after, success_response 1 [unknown_record])).
  { vm_compute. reflexivity. }
  pose proof (successful_analysis_rows sample_request no_match_world
                no_match_world_after 1 [unknown_record] Hrun eq_refl) as Hthm.
  destruct Hthm as (_ & _ & _ & Halerts & entries & Hlogs & Hlen & Hall).
  split; [exact Hrun|]. split; [reflexivity|].
  split; [exact Halerts|].
  exists entries. split; [exact Hlogs|]. split; [exact Hlen | exact Hall].
Defined.


Lemma single_candidate_is_matched_witness :
  face_similarities tie_face late_match_world
  = (late_match_world_compared,
     Return ([(bob, 1 # 2)] ++ (alice, 7 # 8) :: []))
  /\ analyze_face 0 tie_face late_match_world
     = (after_match 0 alice (7 # 8) late_match_world_compared,
        Return [recognized_record alice (7 # 8)]).
Proof.
  assert (Hsims : face_similarities tie_face late_match_world
                  = (late_match_world_compared,
                     Return ([(bob, 1 # 2)] ++ (alice, 7 # 8) :: []))).
  { vm_compute. reflexivity. }
  split; [exact Hsims|].
  apply (single_candidate_is_matched 0 tie_face late_match_world
           late_match_world_compared [(bob, 1 # 2)] [] alice (7 # 8) Hsims).
  - reflexivity.
  - constructor; [|constructor]. cbn. intro E. discriminate E.
  - constructor.
Defined.

Lemma every_descriptor_is_compared_witness :
  match_students (features tie_face) [alice; carol; bob] None 0 tie_world
  = (tie_world_matched, Return (Some alice, 7 # 8))
  /\ exists added,
       events tie_world_matched = events tie_world ++ added
       /\ compared_students added = [alice; bob].
Proof.
  assert (Hrun : match_students (features tie_face) [alice; carol; bob]
                   None 0 tie_world
                 = (tie_world_matched, Return (Some alice, 7 # 8))).
  { vm_compute. reflexivity. }
  split; [exact Hrun|].
  exact (every_descriptor_is_compared (features tie_face)
           [alice; carol; bob] None 0 tie_world tie_world_matched
           (Some alice, 7 # 8) Hrun).
Defined.

Lemma logged_entry_is_read_back_witness :
  stored_logs sample_log_file
  = Some [ log_entry 0 "test_alert" "first" "low";
           log_entry 0 "test_alert" "second" "low" ]
  /\ get_alarm_history
       (_log_alarm 1 sample_log_file "unknown_person" "third" "high") 1
     = PList [log_entry 1 "unknown_person" "third" "high"].
Proof.
  split; [reflexivity|].
  pose proof (logged_entry_is_read_back 1 sample_log_file
                "unknown_person" "third" "high"
                [ log_entry 0 "test_alert" "first" "low";
                  log_entry 0 "test_alert" "second" "low" ] 2
                eq_refl ltac:(lia)) as Hthm.
  cbv zeta in Hthm. exact (proj1 (proj2 Hthm)).
Defined.

Lemma alarm_loop_leaves_at_first_failing_reading_witness :
  snd (run_alarm_thread sample_low_thread sample_readings sample_active_alarm)
  = Exited 15.
Proof.
  pose proof (alarm_loop_leaves_at_first_failing_reading sample_low_thread
                sample_readings sample_active_alarm 15) as Hthm.
  cbv zeta in Hthm. destruct Hthm as [[_ Hexit] _].
  apply Hexit.
  exists [ {| seen_active := true; time_now := 0 |};
           {| seen_active := true; time_now := 5 |};
           {| seen_active := true; time_now := 10 |} ],
         {| seen_active := true; time_now := 15 |},
         [].
  split; [reflexivity|]. split; [reflexivity|]. split.
  - repeat constructor.
  - right. vm_compute. intro E. discriminate E.
Defined.

Lemma stop_then_trigger_keeps_old_thread_witness :
  live sample_alarm_run = [sample_low_thread]
  /\ live (alarm_run [Stopped; Triggered sample_call] sample_alarm_run)
     = [sample_low_thread; thread_of sample_call]
  /\ is_active
       (alarm (alarm_run [Stopped; Triggered sample_call; LoopRead 0 20]
                 sample_alarm_run))
     = false.
Proof.
  pose proof (stop_then_trigger_keeps_old_thread sample_alarm_run
                sample_low_thread sample_call 20 eq_refl) as Hthm.
  cbv zeta in Hthm. destruct Hthm as ((Hlive & _) & _ & Hoff).
  split; [reflexivity|]. split; [exact Hlive|].
  apply Hoff. vm_compute. intro E. discriminate E.
Defined.

Lemma cell_holds_newest_frame_witness :
  capture_from 0 empty_cell [good_iter; failed_iter; raising_iter]
  = (1%nat, published sample_frame sample_jpeg, Capturing)
  /\ ((published sample_frame sample_jpeg = empty_cell
       /\ Forall (fun it => publishes it = false)
            [good_iter; failed_iter; raising_iter])
      \/ (exists before it after f b64,
            [good_iter; failed_iter; raising_iter] = before ++ it :: after
            /\ successful_read it f
            /\ imencode70_b64 f = Some b64
            /\ published sample_frame sample_jpeg = published f b64
            /\ Forall (fun later => publishes later = false) after)).
Proof.
  assert (Hrun : capture_from 0 empty_cell [good_iter; failed_iter; raising_iter]
                 = (1%nat, published sample_frame sample_jpeg, Capturing)).
  { reflexivity. }
  split; [exact Hrun|].
  exact (cell_holds_newest_frame [good_iter; failed_iter; raising_iter]
           0%nat empty_cell 1%nat (published sample_frame sample_jpeg) Hrun).
Defined.

Lemma capture_ends_only_after_31_failures_witness :
  _capture_loop empty_cell
    (good_iter :: repeat failed_iter 30 ++ [raising_iter; failed_iter])
  = (31%nat, published sample_frame sample_jpeg, CaptureExited)
  /\ exists before streak after,
       good_iter :: repeat failed_iter 30 ++ [raising_iter; failed_iter]
       = before ++ streak ++ after
       /\ Forall (fun it => is_good_read it = false) streak
       /\ List.length (filter is_failed_read streak) = 31%nat.
Proof.
  assert (Hcond : Forall (fun it => loop_condition it = true)
                    (good_iter
                     :: repeat failed_iter 30 ++ [raising_iter; failed_iter])).
  { cbn [repeat app]. repeat constructor. }
  assert (Hrun : _capture_loop empty_cell
                   (good_iter
                    :: repeat failed_iter 30 ++ [raising_iter; failed_iter])
                 = (31%nat, published sample_frame sample_jpeg, CaptureExited)).
  { reflexivity. }
  split; [exact Hrun|].
  exact (proj2 (capture_ends_only_after_31_failures empty_cell _ 31%nat _
                  Hcond Hrun)).
Defined.

Lemma frame_stays_available_witness :
  exists b,
    latest_frame_b64
      (snd (fst (_capture_loop (published sample_frame sample_jpeg)
                   (raising_iter :: repeat failed_iter 31))))
    = Some b
    /\ get_camera_frame 0
         (snd (fst (_capture_loop (published sample_frame sample_jpeg)
                      (raising_iter :: repeat failed_iter 31))))
       = PDict [ ("status", PStr "success");
                 ("frame", PStr b);
                 ("timestamp", PStr (isoformat 0)) ].
Proof.
  assert (Hencode : forall (f : Image) b, imencode70_b64 f = Some b -> b <> "").
  { intros f b E. cbn in E. unfold sample_imencode in E.
    destruct (0 <? sample_size f)%N; [|discriminate E].
    injection E as <-. intro E2. discriminate E2. }
  assert (Hcell : exists b,
            latest_frame_b64 (published sample_frame sample_jpeg) = Some b
            /\ b <> "").
  { exists sample_jpeg. split; [reflexivity|]. intro E. discriminate E. }
  pose proof (frame_stays_available (published sample_frame sample_jpeg)
                (raising_iter :: repeat failed_iter 31) 0 Hencode Hcell)
    as Hthm.
  cbv zeta in Hthm. exact (proj1 Hthm).
Defined.

Lemma monitoring_follows_last_request_witness :
  analyze_frame sample_request
    (fold_left control ([StopMonitoring; StartMonitoring] ++ [StopMonitoring])
       no_match_world)
  = (fold_left control ([StopMonitoring; StartMonitoring] ++ [StopMonitoring])
       no_match_world,
     status_message "skipped" "Monitoring not active")
  /\ snd (analyze_frame sample_request
            (fold_left control ([StopMonitoring] ++ [StartMonitoring])
               no_match_world))
     <> status_message "skipped" "Monitoring not active".
Proof.
  pose proof (monitoring_follows_last_request
                [StopMonitoring; StartMonitoring] StopMonitoring
                no_match_world) as Hstop.
  pose proof (monitoring_follows_last_request
                [StopMonitoring] StartMonitoring no_match_world) as Hstart.
  cbv zeta in Hstop, Hstart.
  destruct Hstop as (_ & _ & Hskip & _).
  destruct Hstart as (_ & _ & _ & Hrun).
  split; [exact (Hskip sample_request eq_refl)
         | exact (Hrun sample_request eq_refl)].
Defined.

Lemma deleted_student_is_never_matched_witness :
  NoDup (map s_id (students tie_world))
  /\ ~ In bob (active_students (delete_student 2 tie_world))
  /\ (In alice (active_students (delete_student 2 tie_world))
      <-> In alice (active_students tie_world)).
Proof.
  assert (Hnd : NoDup (map s_id (students tie_world))).
  { cbn. repeat constructor; cbn; intro Hin;
      repeat (destruct Hin as [Hin|Hin]; [discriminate Hin|]); exact Hin. }
  pose proof (deleted_student_is_never_matched 2 tie_world Hnd) as Hthm.
  cbv zeta in Hthm. destruct Hthm as (_ & Hoff & Hothers & _).
  split; [exact Hnd|]. split.
  - intro Hin. apply (Hoff bob Hin). reflexivity.
  - apply Hothers. cbn. intro E. discriminate E.
Defined.
Lemma success_response_shape_witness :
  analyze_frame sample_request match_world
  = (match_world_after,
     success_response 1 [recognized_record alice (7 # 8)])
  /\ exists w2,
       process_frame_for_faces sample_frame
         (set_events (events match_world ++ [EvDecode]) match_world)
       = (w2, Return [tie_face]).
Proof.
  assert (Hrun : analyze_frame sample_request match_world
                 = (match_world_after,
                    PDict [ ("status", PStr "success");
                            ("faces_detected", PNum (inject_Z (Z.of_nat 1)));
                            ("results",
                             PList [recognized_record alice (7 # 8)]) ])).
  { vm_compute. reflexivity. }
  split; [exact Hrun|].
  pose proof (success_response_shape sample_request match_world
                match_world_after _ Hrun eq_refl) as Hthm.
  destruct Hthm as (body & frame & w2 & faces & results
                    & Hbody & Hdec & Hp & Hd & Heach & _).
  injection Hbody as <-.
  assert (Hframe : frame = sample_frame).
  { vm_compute in Hdec. injection Hdec as <-. reflexivity. }
  subst frame. exists w2.
  assert (Hfaces : snd (process_frame_for_faces sample_frame
                          (set_events (events match_world ++ [EvDecode])
                             match_world))
                   = Return [tie_face]).
  { vm_compute. reflexivity. }
  rewrite Hp in Hfaces. cbn [snd] in Hfaces. injection Hfaces as Hfaces.
  rewrite <- Hfaces. exact Hp.
Defined.

Lemma capture_loop_failure_policy_witness :
  successful_read good_iter sample_frame
  /\ failed_read failed_iter
  /\ capture_from 30 empty_cell [good_iter; failed_iter]
     = (1%nat, published sample_frame sample_jpeg, Capturing)
  /\ capture_from 30 empty_cell [failed_iter; good_iter]
     = (31%nat, empty_cell, CaptureExited).
Proof.
  pose proof capture_loop_failure_policy
    as (Hfailed & Hgood & Hfail_step & Hgood_step & _).
  assert (Hs : successful_read good_iter sample_frame).
  { apply Hgood. split; [reflexivity|]. split; [reflexivity|].
    vm_compute. reflexivity. }
  assert (Hf : failed_read failed_iter).
  { apply Hfailed. split; [reflexivity|].
    exists false, None. split; [reflexivity|]. left. reflexivity. }
  split; [exact Hs|]. split; [exact Hf|]. split.
  - rewrite (Hgood_step 30%nat empty_cell good_iter [failed_iter]
               sample_frame Hs).
    rewrite (Hfail_step 0%nat _ failed_iter [] Hf). reflexivity.
  - rewrite (Hfail_step 30%nat empty_cell failed_iter [good_iter] Hf).
    reflexivity.
Defined.

Lemma log_alarm_keeps_cap_witness :
  _log_alarm 1 sample_log_file "unknown_person" "third" "high"
  = FileJSON (PList [ log_entry 0 "test_alert" "first" "low";
                      log_entry 0 "test_alert" "second" "low";
                      log_entry 1 "unknown_person" "third" "high" ])
  /\ _log_alarm 1 FileMissing "unknown_person" "third" "high"
     = FileJSON (PList [log_entry 1 "unknown_person" "third" "high"]).
Proof.
  pose proof (log_alarm_keeps_cap 1 sample_log_file
                "unknown_person" "third" "high") as Hfile.
  pose proof (log_alarm_keeps_cap 1 FileMissing
                "unknown_person" "third" "high") as Hmissing.
  cbv zeta in Hfile, Hmissing.
  destruct Hfile as (_ & Hlist & _).
  destruct Hmissing as (_ & _ & Hnone & _).
  split.
  - destruct (Hlist _ eq_refl) as (_ & _ & Hshort).
    apply Hshort. cbn. lia.
  - apply Hnone. left. reflexivity.
Defined.
